(** * URFT: UDP reliable file transfer (urft_client.py, urft_server.py)

    A shallow embedding of the sender (send_file), of the receiver
    (receive_file) and of the generator of test files (create_test_file
    of test_file.py), and the properties of the protocol state machines.

    Conventions of the embedding.
    - Python integers are [Z]; a datagram is a [list byte].
    - Python floats (clock readings, percentages, timeouts) are exact
      rationals [Q]; the decimal literals of the source (0.2, 0.9, 1.1 ...)
      are the corresponding fractions.  The sender's timeouts are thus
      the exact products, which the doubles of the code approach to the
      last bit (0.2 * 0.8 is 0.16000000000000003 there).  The two
      products of an integer of any size and a float in the receiver,
      [expected_packets * 0.5] and [total_packets * 0.9], are computed
      as doubles, with the OverflowError of an integer that no double
      holds (module [Float]).
    - [open] of the output file is an oracle on the file name.
    - dicts are [gmap Z _], sets are [gset Z].
    - the socket is an oracle: every blocking [recvfrom] consumes one
      event (a datagram, a timeout, an error); every [sendto], [f.write]
      and [time.sleep] is recorded in a list of effects.  [print] is not
      modelled. *)

From Stdlib Require Import ZArith QArith Qminmax Qpower Lqa Lia Bool.
From Stdlib Require Import Strings.Byte.
From stdpp Require Import base option list gmap sets sorting.

Local Open Scope Z_scope.

Abbreviation bytes := (list byte).

#[global] Instance byte_eq_decision : EqDecision byte := Byte.byte_eq_dec.

(** ** Constants (both files) *)

Definition BUFFER_SIZE : Z := 4096.
Definition CHUNK_SIZE : Z := 1024.
Definition TIMEOUT : Q := 2 # 10.
Definition WINDOW_SIZE : Z := 32.
Definition MAX_RETRIES : Z := 25.
Definition MAX_TRANSFER_TIME : Q := 120 # 1.
Definition SERVER_TIMEOUT : Q := 120 # 1.
Definition MAX_REASONABLE_PACKETS : Z := 100000.

(** Control words, as the byte strings of the source. *)
Definition HEADER_ACK : bytes :=
  [x48; x45; x41; x44; x45; x52; x5f; x41; x43; x4b]%byte.
Definition RTT_PROBE : bytes :=
  [x52; x54; x54; x5f; x50; x52; x4f; x42; x45]%byte.
Definition RTT_ACK : bytes :=
  [x52; x54; x54; x5f; x41; x43; x4b]%byte.

(** Boolean comparisons on rationals. *)
Definition Qltb (x y : Q) : bool := negb (Qle_bool y x).
Definition Qgtb (x y : Q) : bool := Qltb y x.

(** ** Wire framing: struct.pack / struct.unpack with format "!I" *)

Module Wire.

Definition Z_of_byte (b : byte) : Z := Z.of_N (Byte.to_N b).

Definition byte_of_Z (z : Z) : byte :=
  match Byte.of_N (Z.to_N (z mod 256)) with
  | Some b => b
  | None => x00%byte
  end.

(** [struct.pack("!I", n)]: four big-endian bytes; struct.error when [n]
    is not an unsigned 32-bit integer. *)
Definition pack_u32 (n : Z) : option bytes :=
  if (0 <=? n) && (n <? 2 ^ 32) then
    Some [byte_of_Z (n / 2 ^ 24); byte_of_Z (n / 2 ^ 16);
          byte_of_Z (n / 2 ^ 8); byte_of_Z n]
  else None.

Definition be32 (b0 b1 b2 b3 : byte) : Z :=
  Z_of_byte b0 * 2 ^ 24 + Z_of_byte b1 * 2 ^ 16
  + Z_of_byte b2 * 2 ^ 8 + Z_of_byte b3.

(** [struct.unpack("!I", d)]: struct.error unless [d] has four bytes. *)
Definition unpack_u32 (d : bytes) : option Z :=
  match d with
  | [b0; b1; b2; b3] => Some (be32 b0 b1 b2 b3)
  | _ => None
  end.

(** [struct.pack("!II", seq, total) + payload] (urft_client.py:162). *)
Definition encode_data (seq total : Z) (payload : bytes) : option bytes :=
  match pack_u32 seq, pack_u32 total with
  | Some a, Some b => Some (a ++ b ++ payload)
  | _, _ => None
  end.

(** The receiver's decoding (urft_server.py:99-106): a datagram shorter
    than [struct.calcsize("!II") = 8] is malformed; otherwise the first
    eight bytes are two big-endian words and the rest is the chunk. *)
Definition decode_data (data : bytes) : option (Z * Z * bytes) :=
  match data with
  | a0 :: a1 :: a2 :: a3 :: b0 :: b1 :: b2 :: b3 :: chunk =>
      Some (be32 a0 a1 a2 a3, be32 b0 b1 b2 b3, chunk)
  | _ => None
  end.

Definition encode_ack (seq : Z) : option bytes := pack_u32 seq.
Definition decode_ack (d : bytes) : option Z := unpack_u32 d.

End Wire.

(** ** [bytes.decode()]: strict UTF-8

    [ack.decode()] raises UnicodeDecodeError unless the datagram is
    well-formed UTF-8 (no overlong forms, no surrogates, nothing above
    U+10FFFF).  Decoding is injective, so on a well-formed datagram the
    comparison of the decoded text with an ASCII literal is the comparison
    of the bytes. *)

Module Utf8.
Import Wire.

Definition in_range (lo hi : Z) (b : byte) : bool :=
  (lo <=? Z_of_byte b) && (Z_of_byte b <=? hi).

Definition cont (b : byte) : bool := in_range 128 191 b.

Definition second_of_3 (b0 b1 : byte) : bool :=
  if Z_of_byte b0 =? 224 then in_range 160 191 b1
  else if Z_of_byte b0 =? 237 then in_range 128 159 b1
  else cont b1.

Definition second_of_4 (b0 b1 : byte) : bool :=
  if Z_of_byte b0 =? 240 then in_range 144 191 b1
  else if Z_of_byte b0 =? 244 then in_range 128 143 b1
  else cont b1.

Fixpoint valid (d : bytes) : bool :=
  match d with
  | [] => true
  | b0 :: r0 =>
      if in_range 0 127 b0 then valid r0
      else
        match r0 with
        | [] => false
        | b1 :: r1 =>
            if in_range 194 223 b0 then cont b1 && valid r1
            else
              match r1 with
              | [] => false
              | b2 :: r2 =>
                  if in_range 224 239 b0
                  then second_of_3 b0 b1 && cont b2 && valid r2
                  else
                    match r2 with
                    | [] => false
                    | b3 :: r3 =>
                        in_range 240 244 b0 && second_of_4 b0 b1
                        && cont b2 && cont b3 && valid r3
                    end
              end
        end
  end.

End Utf8.

(** ** Effects and socket events shared by the two endpoints *)

Inductive effect : Type :=
| Sendto (d : bytes)              (* sock.sendto(d, peer) *)
| Write (seq : Z) (chunk : bytes) (* f.write(chunk), the chunk of index seq *)
| Sleep (secs : Q).               (* time.sleep(secs) *)

(** What a blocking [sock.recvfrom] gives back. *)
Inductive recv_event : Type :=
| Datagram (d : bytes)
| SockTimeout                     (* socket.timeout *)
| SockError (winerror : option Z). (* another socket.error *)

(** How a loop body ends: it goes on with a new state, it makes the
    function return, or an exception leaves the function. *)
Inductive step_result (S : Type) : Type :=
| Running (st : S) (effs : list effect)
| Returned (ret : bool) (effs : list effect)
| Raised (effs : list effect).
Arguments Running {S} st effs.
Arguments Returned {S} ret effs.
Arguments Raised {S} effs.

Definition emit {S : Type} (pre : list effect) (r : step_result S)
  : step_result S :=
  match r with
  | Running st effs => Running st (pre ++ effs)
  | Returned b effs => Returned b (pre ++ effs)
  | Raised effs => Raised (pre ++ effs)
  end.

Definition effects_of {S : Type} (r : step_result S) : list effect :=
  match r with
  | Running _ effs | Returned _ effs | Raised effs => effs
  end.

Definition is_send (e : effect) : bool :=
  match e with Sendto _ => true | _ => false end.

Definition sent (effs : list effect) : list bytes :=
  omap (fun e => match e with Sendto d => Some d | _ => None end) effs.

(** ** The sender: [send_file] of urft_client.py *)

Module Sender.
Import Wire.

(** *** Header handshake (urft_client.py:48-67)

    One event is consumed by each [recvfrom]; [retries] is the counter
    of the source.  The result says how the loop and the test after it
    end: [Running retries] when HEADER_ACK arrived, [Returned false]
    when the retries are used up, [Raised] when [ack.decode()] or the
    socket raises something other than socket.timeout.  When the events
    run out the sender is blocked in [recvfrom], reported as [None]. *)
Fixpoint header_sync (header : bytes) (evs : list recv_event) (retries : Z)
  : option (step_result Z) * list recv_event :=
  if retries <? MAX_RETRIES then
    match evs with
    | [] => (None, [])
    | Datagram ack :: evs' =>
        if Utf8.valid ack then
          if decide (ack = HEADER_ACK)
          then (Some (Running retries [Sendto header]), evs')
          else
            let '(r, rest) := header_sync header evs' (retries + 1) in
            (emit [Sendto header] <$> r, rest)
        else (Some (Raised [Sendto header]), evs')
    | SockTimeout :: evs' =>
        let '(r, rest) := header_sync header evs' (retries + 1) in
        (emit [Sendto header] <$> r, rest)
    | SockError _ :: evs' => (Some (Raised [Sendto header]), evs')
    end
  else (Some (Returned false []), evs).

(** A datagram that [ack.decode()] accepts and that is not HEADER_ACK. *)
Definition rejected (d : bytes) : bool :=
  Utf8.valid d && negb (bool_decide (d = HEADER_ACK)).

(** *** RTT probing (urft_client.py:70-81)

    Each attempt consumes one event, paired with the wall time that the
    attempt took.  The result is [initial_rtt]. *)
Fixpoint rtt_probe (attempts : nat) (evs : list (recv_event * Q))
  : option (step_result Q) :=
  match attempts with
  | O => Some (Running 0%Q [])
  | S n =>
      match evs with
      | [] => None
      | (Datagram d, took) :: evs' =>
          if decide (d = RTT_ACK) then Some (Running took [Sendto RTT_PROBE])
          else emit [Sendto RTT_PROBE] <$> rtt_probe n evs'
      | (SockTimeout, _) :: evs' =>
          emit [Sendto RTT_PROBE] <$> rtt_probe n evs'
      | (SockError _, _) :: _ => Some (Raised [Sendto RTT_PROBE])
      end
  end.

(** *** Chunking (urft_client.py:107-116): [f.read(CHUNK_SIZE)] until
    the empty read. *)
Fixpoint read_chunks (fuel : nat) (content : bytes) : list bytes :=
  match fuel with
  | O => []
  | S n =>
      match content with
      | [] => []
      | _ => take (Z.to_nat CHUNK_SIZE) content
             :: read_chunks n (drop (Z.to_nat CHUNK_SIZE) content)
      end
  end.

Definition file_chunks (content : bytes) : list bytes :=
  read_chunks (length content) content.

(** A window entry: (packet_data, sent_time, retries). *)
Record entry : Type := Entry {
  packet : bytes;
  sent_time : Q;
  retries : Z
}.

(** The variables of the streaming loop. *)
Record sstate : Type := SState {
  window : gmap Z entry;
  next_seq_num : Z;
  base_seq_num : Z
}.

Inductive send_result : Type :=
| SentOk (st : sstate) (e : effect)
| IndexError
| StructError.

Definition init : sstate :=
  {| window := ∅; next_seq_num := 0; base_seq_num := 0 |}.

(** The clock readings and the socket event of one pass of the
    streaming loop: [now_top] is [time.time()] at the top of the pass,
    [stamp s] the reading taken when packet [s] is sent in this pass,
    [now_recv] the reading taken in the timeout handler. *)
Record tick : Type := Tick {
  now_top : Q;
  stamp : Z -> Q;
  recv : recv_event;
  now_recv : Q
}.

Section Session.
Variable chunks : list bytes.
Variable start_time : Q.
Variable initial_rtt : Q.

Definition total_packets : Z := Z.of_nat (length chunks).

(** urft_client.py:87-100 *)
Definition high_rtt_mode : bool := Qgtb initial_rtt (1 # 10).
Definition extreme_rtt_mode : bool := Qgtb initial_rtt (2 # 10).

Definition effective_timeout : Q :=
  if extreme_rtt_mode then Qmax 1 (initial_rtt * 3)%Q
  else if high_rtt_mode then Qmax (5 # 10) (initial_rtt * 2)%Q
  else TIMEOUT.

Definition effective_window : Z :=
  if extreme_rtt_mode then Z.min 192 (WINDOW_SIZE * 6)
  else if high_rtt_mode then Z.min 128 (WINDOW_SIZE * 4)
  else WINDOW_SIZE.

(** urft_client.py:128-132 and 234 *)
Definition remaining_time_percent (now : Q) : Q :=
  ((MAX_TRANSFER_TIME - (now - start_time)) / MAX_TRANSFER_TIME * 100)%Q.

Definition actual_progress_percent (base : Z) : Q :=
  (inject_Z base / inject_Z total_packets * 100)%Q.

(** urft_client.py:135-156: the burst cap of one pass. *)
Definition max_burst (remaining progress : Q) : Z :=
  let deficit := ((100 - remaining) - progress)%Q in
  let mb := if high_rtt_mode then 12 else 8 in
  let mb := if Qgtb deficit 5 || Qltb remaining 70
            then (if high_rtt_mode then 24 else 16) else mb in
  let mb := if Qgtb deficit 10 || Qltb remaining 50
            then (if high_rtt_mode then 48 else 32) else mb in
  let mb := if Qgtb deficit 15 || Qltb remaining 30
            then (if high_rtt_mode then 96 else 64) else mb in
  let mb := if Qltb remaining 20 && Qgtb progress 75
            then (if high_rtt_mode then 192 else 128) else mb in
  if extreme_rtt_mode
  then (if Qltb remaining 50 then mb * 2 * 2 else mb * 2)
  else mb.

(** One new packet (urft_client.py:161-165 and 188-192), or the
    exception raised by [chunks[next_seq_num]] or by [struct.pack]. *)
Definition send_next (clock : Z -> Q) (st : sstate) : send_result :=
  match chunks !! Z.to_nat (next_seq_num st) with
  | None => IndexError
  | Some chunk =>
      match encode_data (next_seq_num st) total_packets chunk with
      | None => StructError
      | Some pkt =>
          SentOk {| window := <[next_seq_num st :=
                                  Entry pkt (clock (next_seq_num st)) 0]>
                                (window st);
                    next_seq_num := next_seq_num st + 1;
                    base_seq_num := base_seq_num st |}
                 (Sendto pkt)
      end
  end.

(** urft_client.py:160-166; [budget] is [max_burst - send_count]. *)
Fixpoint send_burst (budget : nat) (clock : Z -> Q) (st : sstate)
  : step_result sstate :=
  match budget with
  | O => Running st []
  | S b =>
      if (Z.of_nat (size (window st)) <? effective_window)
         && (next_seq_num st <? total_packets)
      then
        match send_next clock st with
        | SentOk st' e => emit [e] (send_burst b clock st')
        | IndexError | StructError => Raised []
        end
      else Running st []
  end.

(** urft_client.py:179-180 *)
Fixpoint advance_base (fuel : nat) (w : gmap Z entry) (base : Z) : Z :=
  match fuel with
  | O => base
  | S n =>
      if (base <? total_packets) && negb (bool_decide (is_Some (w !! base)))
      then advance_base n w (base + 1)
      else base
  end.

(** urft_client.py:186-192: the extra sends after an ACK.  The last
    component is the exception that stopped the loop, if any; what
    was sent before it stays sent. *)
Fixpoint send_extra (n : nat) (clock : Z -> Q) (st : sstate)
  : sstate * list effect * option send_result :=
  match n with
  | O => (st, [], None)
  | S m =>
      if next_seq_num st <? total_packets then
        match send_next clock st with
        | SentOk st' e =>
            let '(st'', effs, exn) := send_extra m clock st' in
            (st'', e :: effs, exn)
        | exn => (st, [], Some exn)
        end
      else send_extra m clock st
  end.

(** urft_client.py:170-199: a datagram came back. *)
Definition handle_ack (clock : Z -> Q) (remaining : Q) (ack : bytes)
    (st : sstate) : step_result sstate :=
  match decode_ack ack with
  | None => Running st []
  | Some ack_num =>
      if bool_decide (is_Some (window st !! ack_num)) then
        let w := delete ack_num (window st) in
        let base :=
          advance_base (Z.to_nat (total_packets - base_seq_num st)) w
                       (base_seq_num st) in
        let st1 := {| window := w; next_seq_num := next_seq_num st;
                      base_seq_num := base |} in
        let '(st2, effs, exn) :=
          if Qltb remaining 40
             && (Z.of_nat (size w) <? effective_window / 2)
          then send_extra
                 (Z.to_nat (Z.min 3 (effective_window - Z.of_nat (size w))))
                 clock st1
          else (st1, [], None) in
        match exn with
        | None =>
            (* base_seq_num % (total_packets // (40 or 20)):
               ZeroDivisionError when the quotient is 0 *)
            if total_packets / (if high_rtt_mode then 40 else 20) =? 0
            then Raised effs
            else Running st2 effs
        | Some StructError => Running st2 effs (* caught, ignored *)
        | Some _ => Raised effs
        end
      else Running st []
  end.

(** urft_client.py:207-244: the timeout of one window entry. *)
Definition backoff_timeout (r : Z) : Q :=
  if extreme_rtt_mode then
    if r =? 0 then effective_timeout
    else if r <=? 3 then (effective_timeout * (11 # 10) ^ r)%Q
    else (effective_timeout * (12 # 10) ^ Z.min (r - 3) 3)%Q
  else if high_rtt_mode then
    if r =? 0 then effective_timeout
    else if r <=? 3 then (effective_timeout * (12 # 10) ^ r)%Q
    else (effective_timeout * (15 # 10) ^ Z.min (r - 3) 3)%Q
  else
    if r <=? 1 then (TIMEOUT * (8 # 10))%Q
    else if r <=? 3 then TIMEOUT
    else (TIMEOUT * (105 # 100) ^ (r - 3))%Q.

Definition dynamic_timeout (r : Z) (remaining progress : Q) : Q :=
  let dt := backoff_timeout r in
  let dt :=
    if Qltb remaining 50
    then Qmax (TIMEOUT * (2 # 10))%Q (dt * (4 # 10))%Q
    else if Qltb remaining 25 then (TIMEOUT * (15 # 100))%Q
    else dt in
  if Qltb remaining 20 && Qgtb progress 75 then (TIMEOUT * (1 # 10))%Q
  else dt.

(** The keys of the window in the order of [list(window.keys())]:
    a dict keeps insertion order and keys are inserted by increasing
    [next_seq_num], so this is the increasing order. *)
Definition window_keys (w : gmap Z entry) : list Z :=
  merge_sort Z.le (elements (dom w)).

(** urft_client.py:204-257 *)
Fixpoint retransmit (keys : list Z) (now progress : Q) (st : sstate)
  : step_result sstate :=
  match keys with
  | [] => Running st []
  | k :: ks =>
      match window st !! k with
      | None => Raised []
      | Some e =>
          let remaining := remaining_time_percent now in
          if Qgtb (now - sent_time e)%Q
                  (dynamic_timeout (retries e) remaining progress)
          then
            if retries e >=? MAX_RETRIES then Returned false []
            else
              emit [Sendto (packet e)]
                (retransmit ks now progress
                   {| window := <[k := Entry (packet e) now (retries e + 1)]>
                                  (window st);
                      next_seq_num := next_seq_num st;
                      base_seq_num := base_seq_num st |})
          else retransmit ks now progress st
      end
  end.

(** One pass of [while base_seq_num < total_packets] (the guard is
    tested by the caller). *)
Definition after_burst (tk : tick) (st : sstate) : step_result sstate :=
  let remaining := remaining_time_percent (now_top tk) in
  let progress := actual_progress_percent (base_seq_num st) in
  send_burst (Z.to_nat (max_burst remaining progress)) (stamp tk) st.

Definition on_event (tk : tick) (st0 st : sstate) : step_result sstate :=
  let remaining := remaining_time_percent (now_top tk) in
  let progress := actual_progress_percent (base_seq_num st0) in
  match recv tk with
  | Datagram ack => handle_ack (stamp tk) remaining ack st
  | SockTimeout =>
      retransmit (window_keys (window st)) (now_recv tk) progress st
  | SockError _ => Raised []
  end.

Definition iteration (tk : tick) (st : sstate) : step_result sstate :=
  if Qgtb (now_top tk - start_time)%Q MAX_TRANSFER_TIME
  then Returned false []
  else
    match after_burst tk st with
    | Running st1 e1 => emit e1 (on_event tk st st1)
    | r => r
    end.

(** The streaming loop over the passes that the oracle describes.
    [Some (Running st _)] is the normal exit of the loop, [None] a
    sender still in the loop when the oracle ends. *)
Fixpoint streaming (ticks : list tick) (st : sstate)
  : option (step_result sstate) :=
  if base_seq_num st <? total_packets then
    match ticks with
    | [] => None
    | tk :: ticks' =>
        match iteration tk st with
        | Running st' effs => emit effs <$> streaming ticks' st'
        | r => Some r
        end
    end
  else Some (Running st []).

(** The states at the top of the loop. *)
Inductive reachable : sstate -> Prop :=
| reach_init : reachable init
| reach_pass st tk st' effs :
    reachable st ->
    base_seq_num st < total_packets ->
    iteration tk st = Running st' effs ->
    reachable st'.

(** [later st st']: the loop gets from the top of a pass in state [st]
    to the top of the same or of a later pass in state [st']. *)
Inductive later : sstate -> sstate -> Prop :=
| later_now st : later st st
| later_pass st st1 tk st2 effs :
    later st st1 ->
    base_seq_num st1 < total_packets ->
    iteration tk st1 = Running st2 effs ->
    later st st2.

(** The window holds sequence numbers from [base_seq_num] up to, not
    including, [next_seq_num], and [base_seq_num] itself while
    something is in flight. *)
Record window_ok (st : sstate) : Prop := WindowOk {
  wok_base : 0 <= base_seq_num st <= next_seq_num st;
  wok_next : next_seq_num st <= total_packets;
  wok_keys : forall k,
    is_Some (window st !! k) -> base_seq_num st <= k < next_seq_num st;
  wok_first :
    base_seq_num st < next_seq_num st ->
    is_Some (window st !! base_seq_num st)
}.

(** *** Termination handshake (urft_client.py:259-326) *)

Definition repeat_count : Z :=
  if extreme_rtt_mode then 20 else if high_rtt_mode then 10 else 3.
Definition delay_time : Q :=
  if extreme_rtt_mode then 5 # 100
  else if high_rtt_mode then 2 # 100 else 1 # 100.
Definition settle_delay : list effect :=
  if extreme_rtt_mode then [Sleep (2 # 10)]
  else if high_rtt_mode then [Sleep (1 # 10)] else [].

Definition term_shots (term_packet : bytes) : list effect :=
  concat (repeat [Sendto term_packet; Sleep delay_time]
                 (Z.to_nat repeat_count)).

(** Each round reads the clock and consumes one event. *)
Fixpoint term_loop (term_packet : bytes) (rounds : list (Q * recv_event))
    (retries : Z) : option (step_result unit) :=
  if retries <? MAX_RETRIES then
    match rounds with
    | [] => None
    | (now, ev) :: rounds' =>
        if Qgtb (now - start_time)%Q MAX_TRANSFER_TIME
        then Some (Returned false [])
        else
          emit (term_shots term_packet) <$>
          match ev with
          | Datagram ack =>
              match decode_ack ack with
              | Some ack_num =>
                  if ack_num =? total_packets
                  then Some (Returned true [])
                  else term_loop term_packet rounds' (retries + 1)
              | None => term_loop term_packet rounds' (retries + 1)
              end
          | SockTimeout =>
              emit settle_delay <$>
                term_loop term_packet rounds' (retries + 1)
          | SockError _ => term_loop term_packet rounds' (retries + 1)
          end
    end
  else Some (Returned true []).

Definition termination (rounds : list (Q * recv_event))
  : option (step_result unit) :=
  match encode_data total_packets total_packets [] with
  | None => Some (Raised [])
  | Some term_packet => term_loop term_packet rounds 0
  end.

End Session.

(** The oracle of a whole run of [send_file]. *)
Record environment : Type := Environment {
  header_events : list recv_event;
  probe_events : list (recv_event * Q);
  stream_ticks : list tick;
  term_rounds : list (Q * recv_event)
}.

(** [send_file]: the four phases in sequence.  [header] is the encoded
    [name:size:md5] text, [content] the bytes of the file. *)
Definition send_file (header content : bytes) (start_time : Q)
    (env : environment) : option (step_result unit) :=
  match header_sync header (header_events env) 0 with
  | (None, _) => None
  | (Some (Returned b e), _) => Some (Returned b e)
  | (Some (Raised e), _) => Some (Raised e)
  | (Some (Running _ e0), _) =>
      emit e0 <$>
      match rtt_probe 3 (probe_events env) with
      | None => None
      | Some (Returned b e) => Some (Returned b e)
      | Some (Raised e) => Some (Raised e)
      | Some (Running initial_rtt e1) =>
          let chunks := file_chunks content in
          emit e1 <$>
          match streaming chunks start_time initial_rtt
                          (stream_ticks env) init with
          | None => None
          | Some (Returned b e) => Some (Returned b e)
          | Some (Raised e) => Some (Raised e)
          | Some (Running _ e2) =>
              emit e2 <$>
                termination chunks start_time initial_rtt (term_rounds env)
          end
      end
  end.

End Sender.

(** ** Integers times a float literal (urft_server.py:124 and 217)

    [n * 0.5] and [n * 0.9], with [n] an integer, first convert [n] to
    a double, to nearest with ties to even, and raise OverflowError when
    that is [2^1024] or more in absolute value; the product is then
    rounded in the same way.  The receiver's two products are embedded
    in this arithmetic, because the exception is a behaviour of the
    program.  A double is kept as the rational that it denotes. *)

Module Float.

(** A double has 53 significant bits.  For [k >= 0], [round53 k] is
    [(q, s)] where [q * 2^s] is the double nearest to [k]. *)
Definition round53 (k : Z) : Z * Z :=
  let s := Z.log2 k - 52 in
  if s <=? 0 then (k, 0)
  else
    let q := k / 2 ^ s in
    let r := k mod 2 ^ s in
    let half := 2 ^ (s - 1) in
    if (half <? r) || ((r =? half) && Z.odd q) then (q + 1, s) else (q, s).

(** [float(n)]: the integer that the double denotes, or [None] for the
    OverflowError. *)
Definition of_int (n : Z) : option Z :=
  let '(q, s) := round53 (Z.abs n) in
  let v := q * 2 ^ s in
  if 2 ^ 1024 <=? v then None else Some (Z.sgn n * v).

(** [x * 0.5] for a double [x] of integer value: exact. *)
Definition half (x : Z) : Q := x # 2.

(** The literal [0.9] is the double [nine_tenths / 2^53]. *)
Definition nine_tenths : Z := 8106479329266893.

(** [x * 0.9] for a double [x >= 1] of integer value: the product
    [x * nine_tenths / 2^53] rounded to a double. *)
Definition mul_nine_tenths (x : Z) : Q :=
  let '(q, s) := round53 (x * nine_tenths) in
  (q * 2 ^ s) # (2 ^ 53).

End Float.

(** ** The receiver: [receive_file] of urft_server.py

    The embedding starts after the header loop, with the output file
    open: [file_size] and [file_md5] are what the header gave, and the
    initial [high_rtt_mode] is true when a probe arrived before the
    header.  The header loop and the opening of the file are in
    [Header] below. *)

Module Receiver.
Import Wire.

(** The variables of the data loop. *)
Record rstate : Type := RState {
  high_rtt_mode : bool;
  total_packets : Z;
  expected_seq : Z;
  received_seq_nums : gset Z;
  received_packets : gmap Z bytes
}.

Definition init (high : bool) : rstate :=
  {| high_rtt_mode := high; total_packets := 0; expected_seq := 0;
     received_seq_nums := ∅; received_packets := ∅ |}.

(** How one pass of [while not transfer_complete] ends: [Continue] goes
    round again, [Complete] is [transfer_complete = True; break],
    [Abort] is [return False], [Escape] is an exception that no handler
    of [receive_file] catches. *)
Inductive rstep : Type :=
| Continue (st : rstate) (effs : list effect)
| Complete (st : rstate) (effs : list effect)
| Abort (effs : list effect)
| Escape (effs : list effect).

Definition state_of (r : rstep) : option rstate :=
  match r with
  | Continue st _ | Complete st _ => Some st
  | Abort _ | Escape _ => None
  end.

Definition effs_of (r : rstep) : list effect :=
  match r with
  | Continue _ effs | Complete _ effs | Abort effs | Escape effs => effs
  end.

Definition remit (pre : list effect) (r : rstep) : rstep :=
  match r with
  | Continue st effs => Continue st (pre ++ effs)
  | Complete st effs => Complete st (pre ++ effs)
  | Abort effs => Abort (pre ++ effs)
  | Escape effs => Escape (pre ++ effs)
  end.

Definition set_high (st : rstate) : rstate :=
  {| high_rtt_mode := true; total_packets := total_packets st;
     expected_seq := expected_seq st;
     received_seq_nums := received_seq_nums st;
     received_packets := received_packets st |}.

Definition set_total (st : rstate) (t : Z) : rstate :=
  {| high_rtt_mode := high_rtt_mode st; total_packets := t;
     expected_seq := expected_seq st;
     received_seq_nums := received_seq_nums st;
     received_packets := received_packets st |}.

(** urft_server.py:136-137 *)
Definition repeat_count (high : bool) : Z := if high then 15 else 5.
Definition delay_time (high : bool) : Q := if high then 5 # 100 else 1 # 100.

(** [sock.sendto(struct.pack("!I", n), client_addr)]; a struct.error is
    caught by the handler of the loop, and nothing is sent. *)
Definition send_ack (n : Z) : list effect :=
  match encode_ack n with
  | Some a => [Sendto a]
  | None => []
  end.

(** urft_server.py:164-168: the buffered chunks that are now in order.
    Each pass deletes one key, so the size of the buffer bounds the
    number of passes. *)
Fixpoint drain (fuel : nat) (st : rstate) : rstate * list effect :=
  match fuel with
  | O => (st, [])
  | S n =>
      match received_packets st !! expected_seq st with
      | Some chunk =>
          let st' :=
            {| high_rtt_mode := high_rtt_mode st;
               total_packets := total_packets st;
               expected_seq := expected_seq st + 1;
               received_seq_nums := {[expected_seq st]} ∪ received_seq_nums st;
               received_packets := delete (expected_seq st) (received_packets st) |} in
          let '(st'', effs) := drain n st' in
          (st'', Write (expected_seq st) chunk :: effs)
      | None => (st, [])
      end
  end.

Section Session.
Variable file_size : Z.

(** urft_server.py:68 *)
Definition expected_packets : Z := (file_size + 1023) / 1024.

(** urft_server.py:109-116: [None] is the packet that is ignored. *)
Definition sanitize_total (packet_total : Z) : option Z :=
  if (packet_total >? MAX_REASONABLE_PACKETS) || (packet_total =? 0) then
    if expected_packets >? 0 then Some expected_packets else None
  else Some packet_total.

(** urft_server.py:119-129: the new value of [total_packets].  [None]
    is the OverflowError of [expected_packets * 0.5], raised when
    line 120 has already set [total_packets] to [packet_total]. *)
Definition bind_total (total packet_total : Z) : option Z :=
  if total =? 0 then
    match Float.of_int expected_packets with
    | None => None
    | Some x =>
        if Qgtb (inject_Z (Z.abs (packet_total - expected_packets)))
                (Float.half x)
        then
          if (expected_packets >? 0)
             && (expected_packets <? MAX_REASONABLE_PACKETS)
          then Some expected_packets
          else Some packet_total
        else Some packet_total
    end
  else Some total.

(** urft_server.py:131-184: a packet whose total passed the sanity
    check, in the state where [total_packets] is bound. *)
Definition on_packet (st : rstate) (seq_num packet_total : Z)
    (data_chunk : bytes) : rstep :=
  if (seq_num =? total_packets st) && (packet_total =? total_packets st)
  then
    match encode_ack (total_packets st) with
    | Some a =>
        Complete st
          (concat (repeat [Sendto a; Sleep (delay_time (high_rtt_mode st))]
                          (Z.to_nat (repeat_count (high_rtt_mode st)))))
    | None => Continue st []
    end
  else if seq_num >=? total_packets st then Continue st []
  else if bool_decide (seq_num ∈ received_seq_nums st)
  then Continue st (send_ack seq_num)
  else if seq_num =? expected_seq st then
    let st1 :=
      {| high_rtt_mode := high_rtt_mode st;
         total_packets := total_packets st;
         expected_seq := expected_seq st + 1;
         received_seq_nums := {[seq_num]} ∪ received_seq_nums st;
         received_packets := received_packets st |} in
    let '(st2, effs) := drain (size (received_packets st1)) st1 in
    Continue st2 (Write seq_num data_chunk :: effs ++ send_ack seq_num)
  else if seq_num >? expected_seq st then
    Continue
      {| high_rtt_mode := high_rtt_mode st;
         total_packets := total_packets st;
         expected_seq := expected_seq st;
         received_seq_nums := {[seq_num]} ∪ received_seq_nums st;
         received_packets := <[seq_num := data_chunk]> (received_packets st) |}
      (send_ack seq_num)
  else Continue st (send_ack seq_num).

(** urft_server.py:89-129: a datagram arrived.  The OverflowError of
    line 124 is caught by the handler of line 227, which goes round
    again: the datagram is ignored, with [total_packets] bound. *)
Definition on_datagram (st : rstate) (data : bytes) : rstep :=
  if decide (data = RTT_PROBE) then Continue (set_high st) [Sendto RTT_ACK]
  else
    match decode_data data with
    | None => Continue st []
    | Some (seq_num, packet_total0, data_chunk) =>
        match sanitize_total packet_total0 with
        | None => Continue st []
        | Some packet_total =>
            match bind_total (total_packets st) packet_total with
            | Some total =>
                on_packet (set_total st total) seq_num packet_total data_chunk
            | None => Continue (set_total st packet_total) []
            end
        end
    end.

(** urft_server.py:190-210: [inactive] is
    [current_time - last_activity_time]. *)
Definition on_timeout (st : rstate) (inactive : Q) : rstep :=
  if high_rtt_mode st then
    if Qgtb inactive (SERVER_TIMEOUT * 2)%Q then Abort [] else Continue st []
  else
    if Qgtb inactive SERVER_TIMEOUT then Abort [] else Continue st [].

(** urft_server.py:212-225: socket errors; 10054 is the reset by the
    peer.  [None] is the OverflowError of [total_packets * 0.9]: raised
    inside the handler of socket.error, it leaves [receive_file]. *)
Definition reset_completes (st : rstate) : option bool :=
  if total_packets st >? 0 then
    match Float.of_int (total_packets st) with
    | None => None
    | Some x =>
        Some (Qgtb (inject_Z (expected_seq st)) (Float.mul_nine_tenths x))
    end
  else Some false.

Definition on_error (st : rstate) (winerror : option Z) : rstep :=
  match winerror with
  | Some 10054 =>
      match reset_completes st with
      | Some true => Complete st []
      | Some false => Continue st []
      | None => Escape []
      end
  | _ => Continue st []
  end.

Definition stream_step (st : rstate) (ev : recv_event) (inactive : Q)
  : rstep :=
  match ev with
  | Datagram data => on_datagram st data
  | SockTimeout => on_timeout st inactive
  | SockError w => on_error st w
  end.

(** The data loop over the events of the oracle; [None] is a receiver
    still waiting when the oracle ends. *)
Fixpoint stream_loop (evs : list (recv_event * Q)) (st : rstate)
  : option rstep :=
  match evs with
  | [] => None
  | (ev, inactive) :: evs' =>
      match stream_step st ev inactive with
      | Continue st' effs => remit effs <$> stream_loop evs' st'
      | r => Some r
      end
  end.

(** The state after the events, while the loop goes on. *)
Fixpoint run (evs : list (recv_event * Q)) (st : rstate)
  : option (rstate * list effect) :=
  match evs with
  | [] => Some (st, [])
  | (ev, inactive) :: evs' =>
      match stream_step st ev inactive with
      | Continue st' effs =>
          '(st'', effs') ← run evs' st'; Some (st'', effs ++ effs')
      | _ => None
      end
  end.

(** The bytes of the output file: the chunks written, in order. *)
Definition file_written (effs : list effect) : bytes :=
  concat (omap (fun e => match e with Write _ c => Some c | _ => None end)
               effs).

(** urft_server.py:234-267: the verification after the loop.  [md5]
    is hashlib's hex digest; an absent or empty digest in the header
    falls back to the size. *)
Definition verify (md5 : bytes -> bytes) (file_md5 : option bytes)
    (output : bytes) : bool :=
  match file_md5 with
  | Some (b :: digest) => bool_decide (md5 output = b :: digest)
  | _ => Z.of_nat (length output) =? file_size
  end.

(** The value that [receive_file] returns; [None] when it returns
    none, being still in the loop when the events end or left by an
    exception. *)
Definition receive_file (md5 : bytes -> bytes) (file_md5 : option bytes)
    (high : bool) (evs : list (recv_event * Q)) : option bool :=
  match stream_loop evs (init high) with
  | None | Some (Escape _) => None
  | Some (Abort _) => Some false
  | Some (Complete _ effs) | Some (Continue _ effs) =>
      Some (verify md5 file_md5 (file_written effs))
  end.

End Session.

(** *** What the receiver's variables mean

    [writes] is the log of [f.write]; [arrived evs s c] says that a
    datagram of sequence number [s] and chunk [c] is among the events. *)
Definition writes (effs : list effect) : list (Z * bytes) :=
  omap (fun e => match e with Write s c => Some (s, c) | _ => None end) effs.

Definition arrived (evs : list (recv_event * Q)) (s : Z) (c : bytes) : Prop :=
  exists d t inactive,
    (Datagram d, inactive) ∈ evs /\ decode_data d = Some (s, t, c).

Record coherent (evs : list (recv_event * Q)) (st : rstate)
    (effs : list effect) : Prop := Coherent {
  coh_bounds : 0 <= expected_seq st <= total_packets st;
  coh_written : (writes effs).*1 = seqZ 0 (expected_seq st);
  coh_delivered : forall k,
    k ∈ received_seq_nums st
    <-> (0 <= k < expected_seq st \/ is_Some (received_packets st !! k));
  coh_buffer : forall k,
    is_Some (received_packets st !! k) ->
    expected_seq st <= k < total_packets st;
  coh_written_arrived : forall s c, (s, c) ∈ writes effs -> arrived evs s c;
  coh_buffer_arrived : forall k c,
    received_packets st !! k = Some c -> arrived evs k c
}.

(** The invariant of the data loop: between two datagrams the next
    expected chunk is never in the buffer. *)
Definition consistent (evs : list (recv_event * Q)) (st : rstate)
    (effs : list effect) : Prop :=
  coherent evs st effs /\ received_packets st !! expected_seq st = None.

End Receiver.

(** ** The header: the text [name:size:md5]
    (urft_client.py:47, urft_server.py:32-65)

    The texts are kept as their UTF-8 bytes.  A byte of a multi-byte
    UTF-8 sequence is never an ASCII byte, so splitting the decoded text
    at the colon is splitting the bytes at [0x3a]. *)

Module Header.
Import Wire.

Definition colon : byte := x3a%byte.

(** [text.split(":")] *)
Fixpoint split (d : bytes) : list bytes :=
  match d with
  | [] => [[]]
  | b :: r =>
      if decide (b = colon) then [] :: split r
      else match split r with
           | p :: ps => (b :: p) :: ps
           | [] => [[b]]
           end
  end.

Definition is_digit (b : byte) : bool :=
  (48 <=? Z_of_byte b) && (Z_of_byte b <=? 57).

Definition digits_value (s : bytes) : Z :=
  fold_left (fun acc b => acc * 10 + (Z_of_byte b - 48)) s 0.

(** [str(n)] of an integer, as the f-string of the sender renders
    [file_size]: the decimal digits, most significant first. *)
Fixpoint decimal_digits (fuel : nat) (n : Z) : bytes :=
  match fuel with
  | O => []
  | S f =>
      (if n <? 10 then [] else decimal_digits f (n / 10))
      ++ [byte_of_Z (48 + n mod 10)]
  end.

Definition decimal (n : Z) : bytes :=
  if n <? 0 then x2d%byte :: decimal_digits (S (Z.to_nat (Z.log2 (- n)))) (- n)
  else decimal_digits (S (Z.to_nat (Z.log2 n))) n.

(** urft_client.py:47: [f"{file_name}:{file_size}:{file_md5}".encode()] *)
Definition header (file_name : bytes) (file_size : Z) (file_md5 : bytes)
  : bytes :=
  file_name ++ colon :: decimal file_size ++ colon :: file_md5.

(** The test of urft_server.py:41 on an event. *)
Definition is_probe (ev : recv_event) : bool :=
  match ev with
  | Datagram data => bool_decide (data = RTT_PROBE)
  | _ => false
  end.

(** What the header loop leaves: the variables that the rest of
    [receive_file] reads, or the [return False] of line 63. *)
Inductive outcome : Type :=
| HeaderOk (file_name : bytes) (file_size : Z) (file_md5 : option bytes)
           (high_rtt_mode : bool)
| HeaderTimeout.

Section Parse.

(** [int(text)] where the text is something else than 1 to 4300 ASCII
    digits (a sign, blanks, underscores, digits of other scripts, longer
    runs): the value, or [None] for the ValueError. *)
Variable int_other : bytes -> option Z.

Definition py_int (s : bytes) : option Z :=
  match s with
  | [] => None
  | _ =>
      if forallb is_digit s && (length s <=? 4300)%nat
      then Some (digits_value s)
      else int_other s
  end.

(** urft_server.py:47-53, the inner [try] on one datagram; [None] is
    an exception caught at line 59 ([decode], the index 1, [int]). *)
Definition parse_header (data : bytes) : option (bytes * Z * option bytes) :=
  if Utf8.valid data then
    match split data with
    | file_name :: size :: rest =>
        match py_int size with
        | Some file_size =>
            Some (file_name, file_size,
                  match rest with md5 :: _ => Some md5 | [] => None end)
        | None => None
        end
    | _ => None
    end
  else None.

(** urft_server.py:36-65, [while not header_received]. [None] is a
    receiver still waiting when the events end. *)
Fixpoint header_loop (evs : list recv_event) (high_rtt_mode : bool)
  : option (outcome * list effect) * list recv_event :=
  match evs with
  | [] => (None, [])
  | Datagram data :: evs' =>
      if decide (data = RTT_PROBE) then
        let '(r, rest) := header_loop evs' true in
        ((fun '(o, effs) => (o, Sendto RTT_ACK :: effs)) <$> r, rest)
      else
        match parse_header data with
        | Some (file_name, file_size, file_md5) =>
            (Some (HeaderOk file_name file_size file_md5 high_rtt_mode,
                   [Sendto HEADER_ACK]), evs')
        | None => header_loop evs' high_rtt_mode
        end
  | SockTimeout :: evs' => (Some (HeaderTimeout, []), evs')
  | SockError _ :: evs' => header_loop evs' high_rtt_mode
  end.

(** The text [received_] (urft_server.py:72). *)
Definition received_prefix : bytes :=
  [x72; x65; x63; x65; x69; x76; x65; x64; x5f]%byte.

(** [receive_file] from its first line: the header loop on its events,
    the opening of the output file, then the data loop and the
    verification on their events.  [writable name] says whether
    [open(name, "wb")] succeeds in the file system at hand; when it does
    not, its OSError leaves [receive_file], which returns no value. *)
Definition receive_file (writable : bytes -> bool) (md5 : bytes -> bytes)
    (hevs : list recv_event) (evs : list (recv_event * Q)) : option bool :=
  match header_loop hevs false with
  | (None, _) => None
  | (Some (HeaderTimeout, _), _) => Some false
  | (Some (HeaderOk file_name file_size file_md5 high, _), _) =>
      if writable (received_prefix ++ file_name)
      then Receiver.receive_file file_size md5 file_md5 high evs
      else None
  end.

End Parse.

End Header.

(** ** The test file: [create_test_file] of test_file.py *)

Module TestFile.

Section Create.

(** The [i]-th call of [random.randbytes] of the run, asked for [n]
    bytes. *)
Variable randbytes : nat -> Z -> bytes.

(** test_file.py:17-22: the chunks written.  Each pass takes at least
    one byte off [remaining], which bounds the number of passes. *)
Fixpoint write_loop (fuel : nat) (calls : nat) (remaining : Z) : list bytes :=
  match fuel with
  | O => []
  | S f =>
      if remaining >? 0 then
        let current_chunk := Z.min (1024 * 64) remaining in
        randbytes calls current_chunk
        :: write_loop f (S calls) (remaining - current_chunk)
      else []
  end.

(** The writes of [create_test_file(filename, size_bytes)]. *)
Definition create_test_file (size_bytes : Z) : list bytes :=
  write_loop (Z.to_nat size_bytes) 0 size_bytes.

End Create.

End TestFile.

(** ** Sample traffic used in the examples *)

Module Scenario.

(** The datagram of a data packet, as the sender builds it. *)
Definition data_packet (seq total : Z) (chunk : bytes) : bytes :=
  default [] (Wire.encode_data seq total chunk).

(** Datagrams that arrive without any timeout in between. *)
Definition feed (ds : list bytes) : list (recv_event * Q) :=
  map (fun d => (Datagram d, 0%Q)) ds.

(** Data packets [first .. first + count - 1] of a transfer of [total]
    one-byte chunks. *)
Definition in_order (first count total : Z) : list bytes :=
  map (fun i => data_packet i total [x61%byte]) (seqZ first count).

(** A header datagram, the text [a:1:]. *)
Definition sample_header : bytes := [x61; x3a; x31; x3a]%byte.

(** A datagram of one byte that is not UTF-8. *)
Definition not_utf8 : bytes := [xff%byte].

(** A datagram that is text but not a control word: [NO]. *)
Definition stray_text : bytes := [x4e; x4f]%byte.

(** A peer that announces 3 packets for a file of 1025 bytes, sends
    the two chunks of the file and then the termination marker. *)
Definition early_marker : list bytes :=
  [data_packet 0 3 (repeat x61%byte 1024); data_packet 1 3 [x62%byte];
   data_packet 3 3 []].

(** Three packets of a 3-chunk file, the last one first. *)
Definition reordered : list bytes :=
  [data_packet 2 3 [x63%byte]; data_packet 0 3 [x61%byte];
   data_packet 1 3 [x62%byte]].

(** A file of [n] chunks of one byte each, as the sender holds it. *)
Definition small_chunks (n : nat) : list bytes := repeat [x61%byte] n.

(** The ACK datagram for sequence number [n]. *)
Definition ack_packet (n : Z) : bytes := default [] (Wire.encode_ack n).

(** A pass of the sender's loop at clock reading [now] in which the
    ACK of [n] comes back. *)
Definition ack_tick (now : Q) (n : Z) : Sender.tick :=
  Sender.Tick now (fun _ => now) (Datagram (ack_packet n)) now.

(** A pass in which [recvfrom] times out. *)
Definition timeout_tick (now : Q) : Sender.tick :=
  Sender.Tick now (fun _ => now) SockTimeout now.

(** The termination marker of an empty file: eight zero bytes. *)
Definition empty_marker : bytes :=
  [x00; x00; x00; x00; x00; x00; x00; x00]%byte.

(** A file of two chunks, of 1024 bytes and of 2 bytes. *)
Definition two_chunk_file : bytes := repeat x61%byte 1024 ++ [x62; x63]%byte.

(** Its two packets: the second one, the first one, and the second one
    once more. *)
Definition shuffled : list bytes :=
  [data_packet 1 2 [x62; x63]%byte; data_packet 0 2 (repeat x61%byte 1024);
   data_packet 1 2 [x62; x63]%byte].

(** The receiver after these three datagrams, and after the termination
    marker that follows them. *)
Definition shuffled_run : Receiver.rstate * list effect :=
  default (Receiver.init false, [])
          (Receiver.run 1026 (feed shuffled) (Receiver.init false)).

Definition shuffled_end : Receiver.rstate * list effect :=
  match Receiver.stream_step 1026 shuffled_run.1
          (Datagram (data_packet 2 2 [])) 0 with
  | Receiver.Complete st e => (st, e)
  | _ => shuffled_run
  end.

(** Its second packet alone. *)
Definition late_only : list bytes := [data_packet 1 2 [x62; x63]%byte].

(** A file of twenty full chunks. *)
Definition twenty_chunk_file : bytes :=
  repeat x61%byte (Z.to_nat 20480).

(** Passes in which the ACKs of [0 .. n - 1] come back in order. *)
Definition acked_run (n : Z) : list Sender.tick :=
  map (ack_tick 1) (seqZ 0 n).

(** The sender's state after the first pass on a file of 40 chunks, in
    which the ACK of packet 0 came back. *)
Definition after_first_ack : Sender.sstate :=
  match Sender.iteration (small_chunks 40) 0 0 (ack_tick 1 0) Sender.init with
  | Running st _ => st
  | _ => Sender.init
  end.

(** The size of a file whose count of packets, [2 ^ 1024], is an
    integer that no double holds. *)
Definition oversized : Z := 2 ^ 1034.

(** The same file when the ACK of packet 3 comes back in the first
    pass, and when it comes back once more in the second. *)
Definition after_ack_three : Sender.sstate :=
  match Sender.iteration (small_chunks 40) 0 0 (ack_tick 1 3) Sender.init with
  | Running st _ => st
  | _ => Sender.init
  end.

Definition after_ack_three_again : Sender.sstate :=
  match Sender.iteration (small_chunks 40) 0 0 (ack_tick 2 3)
                         after_ack_three with
  | Running st _ => st
  | _ => Sender.init
  end.

(** What the burst of a third pass makes of it. *)
Definition third_burst : Sender.sstate :=
  match Sender.after_burst (small_chunks 40) 0 0 (ack_tick 3 3)
                           after_ack_three_again with
  | Running st _ => st
  | _ => Sender.init
  end.

(** A peer that answers the header, the probe, every packet of a
    20-chunk file and the termination marker at once. *)
Definition prompt_peer : Sender.environment :=
  Sender.Environment [Datagram HEADER_ACK] [(Datagram RTT_ACK, 1 # 100)]
                     (acked_run 20) [(2%Q, Datagram (ack_packet 20))].

(** A file name, [a], and a digest text, [d5]. *)
Definition sample_name : bytes := [x61]%byte.
Definition sample_digest : bytes := [x64; x35]%byte.

(** An [int] that raises ValueError on every text that is not a run of
    ASCII digits. *)
Definition no_int (s : bytes) : option Z := None.

(** A generator that gives zero bytes. *)
Definition zero_bytes (i : nat) (n : Z) : bytes := repeat x00%byte (Z.to_nat n).

(** A probe, a datagram that is not text, and then a header. *)
Definition header_traffic : list recv_event :=
  [Datagram RTT_PROBE; Datagram not_utf8; Datagram sample_header].

End Scenario.

(** ** What is in flight at the sender

    Predicates on the sender's window and on what it has sent, used to
    state the invariants of the streaming loop. *)

Module Flight.
Import Wire Sender.

Section Session.
Variable chunks : list bytes.
Variable initial_rtt : Q.

(** The datagram that carries chunk [k]. *)
Definition packet_of (k : Z) : option bytes :=
  match chunks !! Z.to_nat k with
  | Some chunk => encode_data k (total_packets chunks) chunk
  | None => None
  end.

(** Every datagram sent is the data packet of some chunk of the file. *)
Definition data_packets (effs : list effect) : Prop :=
  forall d, d ∈ sent effs ->
    exists k, 0 <= k < total_packets chunks /\ packet_of k = Some d.

(** The window is no larger than the effective window, and each entry
    holds the packet of its own sequence number with a retry count
    within the limit. *)
Record flight_ok (st : sstate) : Prop := FlightOk {
  fl_size : Z.of_nat (size (window st)) <= effective_window initial_rtt;
  fl_entries : forall k e,
    window st !! k = Some e ->
    packet_of k = Some (packet e) /\ 0 <= retries e <= MAX_RETRIES
}.

(** The sequence numbers from [lo] up to [hi] are among the sends. *)
Definition sent_between (lo hi : Z) (effs : list effect) : Prop :=
  forall k, lo <= k < hi -> exists d, packet_of k = Some d /\ d ∈ sent effs.

End Session.

(** The test of urft_client.py:246 on a window entry: more than its
    [dynamic_timeout] has passed since it was last sent. *)
Definition overdue (start_time initial_rtt now progress : Q) (e : entry)
  : bool :=
  Qgtb (now - sent_time e)%Q
       (dynamic_timeout initial_rtt (retries e)
          (remaining_time_percent start_time now) progress).

(** What a retransmission leaves in the window (urft_client.py:254). *)
Definition resent (now : Q) (e : entry) : entry :=
  Entry (packet e) now (retries e + 1).

End Flight.

(** ** The words of the specification

    Where a claim is compared with the code, the claim's side is written
    down here as the specification words it, under names of its own. *)

Module Spec.

(** Termination repeat count and delay per mode: (3, 10 ms) standard,
    (10, 20 ms) high_rtt, (20, 50 ms) extreme_rtt. *)
Definition term_params (high extreme : bool) : Z * Q :=
  if extreme then (20, 50 # 1000)
  else if high then (10, 20 # 1000)
  else (3, 10 # 1000).

(** The remaining-time policy, strongest match first. *)
Definition scaled_timeout (T remaining progress : Q) : Q :=
  if Qltb remaining 20 && Qgtb progress 75 then (TIMEOUT * (1 # 10))%Q
  else if Qltb remaining 25 then (TIMEOUT * (15 # 100))%Q
  else if Qltb remaining 50 then Qmax (TIMEOUT * (2 # 10))%Q (T * (4 # 10))%Q
  else T.

(** An invalid total is replaced by E exactly when E is in (0, 100 000),
    and the packet is dropped otherwise. *)
Definition sanitize_total (E packet_total : Z) : option Z :=
  if (packet_total =? 0) || (packet_total >? 100000) then
    if (0 <? E) && (E <? 100000) then Some E else None
  else Some packet_total.

(** A reset completes the transfer when expected_seq >= 0.9 total_packets. *)
Definition reset_completes (expected_seq total_packets : Z) : bool :=
  (total_packets >? 0)
  && Qle_bool (inject_Z total_packets * (9 # 10))%Q (inject_Z expected_seq).

(** The datagrams of the session of a file of [file_size] bytes, as the
    data model has them: a probe, or a packet whose total field is
    [N = ceil(file_size / 1024)], whose sequence number is below [N], or
    [N] itself for the termination marker, and whose payload has at most
    1024 bytes; a datagram too short to be a packet is left in, since
    it is dropped. *)
Definition session_datagram (file_size : Z) (d : bytes) : Prop :=
  d = RTT_PROBE
  \/ Wire.decode_data d = None
  \/ exists seq chunk,
       Wire.decode_data d
       = Some (seq, Receiver.expected_packets file_size, chunk)
       /\ seq <= Receiver.expected_packets file_size
       /\ (length chunk <= 1024)%nat.

Definition session_traffic (file_size : Z) (evs : list (recv_event * Q))
  : Prop :=
  forall d inactive,
    (Datagram d, inactive) ∈ evs -> session_datagram file_size d.

(** The digest of the header is that of a file of the announced size:
    an output with this digest has this size. *)
Definition digest_of_size (md5 : bytes -> bytes) (file_md5 : option bytes)
    (file_size : Z) : Prop :=
  forall out b digest,
    file_md5 = Some (b :: digest) -> md5 out = b :: digest ->
    Z.of_nat (length out) = file_size.

End Spec.

(** * Properties *)

(** ** Wire framing *)

Section WireFacts.
Import Wire.

Lemma Z_of_byte_range b : 0 <= Z_of_byte b < 256.
Proof.
  unfold Z_of_byte. pose proof (Byte.to_N_bounded b) as H.
  split; [apply N2Z.is_nonneg|]. apply N2Z.inj_le in H. simpl in H. lia.
Qed.

Lemma Z_of_byte_of_Z z : Z_of_byte (byte_of_Z z) = z mod 256.
Proof.
  unfold byte_of_Z, Z_of_byte.
  assert (Hr : 0 <= z mod 256 < 256) by (apply Z.mod_pos_bound; lia).
  destruct (Byte.of_N (Z.to_N (z mod 256))) as [b|] eqn:E.
  - apply Byte.to_of_N in E. rewrite E. rewrite Z2N.id; lia.
  - apply Byte.of_N_None_iff in E. lia.
Qed.

Lemma be32_range b0 b1 b2 b3 : 0 <= be32 b0 b1 b2 b3 < 2 ^ 32.
Proof.
  unfold be32.
  pose proof (Z_of_byte_range b0). pose proof (Z_of_byte_range b1).
  pose proof (Z_of_byte_range b2). pose proof (Z_of_byte_range b3).
  change (2 ^ 32) with 4294967296. change (2 ^ 24) with 16777216.
  change (2 ^ 16) with 65536. change (2 ^ 8) with 256. lia.
Qed.

Lemma be32_digits n :
  0 <= n < 2 ^ 32 ->
  be32 (byte_of_Z (n / 2 ^ 24)) (byte_of_Z (n / 2 ^ 16))
       (byte_of_Z (n / 2 ^ 8)) (byte_of_Z n) = n.
Proof.
  intros Hn. unfold be32. rewrite !Z_of_byte_of_Z.
  change (2 ^ 32) with 4294967296 in Hn. change (2 ^ 24) with 16777216.
  change (2 ^ 16) with 65536. change (2 ^ 8) with 256.
  Z.div_mod_to_equations. lia.
Qed.

Lemma pack_u32_Some n :
  0 <= n < 2 ^ 32 ->
  pack_u32 n = Some [byte_of_Z (n / 2 ^ 24); byte_of_Z (n / 2 ^ 16);
                     byte_of_Z (n / 2 ^ 8); byte_of_Z n].
Proof.
  intros Hn. unfold pack_u32.
  destruct (0 <=? n) eqn:E1; [|lia]. destruct (n <? 2 ^ 32) eqn:E2; [|lia].
  reflexivity.
Qed.

Lemma pack_u32_inv n d : pack_u32 n = Some d -> 0 <= n < 2 ^ 32.
Proof.
  unfold pack_u32. destruct (0 <=? n) eqn:E1; [|discriminate].
  destruct (n <? 2 ^ 32) eqn:E2; [|discriminate]. lia.
Qed.

Lemma unpack_pack_u32 n d : pack_u32 n = Some d -> unpack_u32 d = Some n.
Proof.
  intros H. pose proof (pack_u32_inv _ _ H) as Hn.
  rewrite (pack_u32_Some _ Hn) in H. injection H as <-.
  simpl. f_equal. apply be32_digits, Hn.
Qed.

Lemma decode_data_range d s t c :
  decode_data d = Some (s, t, c) -> 0 <= s < 2 ^ 32 /\ 0 <= t < 2 ^ 32.
Proof.
  destruct d as [|a0 [|a1 [|a2 [|a3 [|b0 [|b1 [|b2 [|b3 chunk]]]]]]]];
    try discriminate.
  simpl. intros [= <- <- <-]. split; apply be32_range.
Qed.

Lemma decode_encode_data s t p d :
  encode_data s t p = Some d -> decode_data d = Some (s, t, p).
Proof.
  unfold encode_data.
  destruct (pack_u32 s) as [a|] eqn:Es; [|discriminate].
  destruct (pack_u32 t) as [b|] eqn:Et; [|discriminate].
  intros [= <-].
  pose proof (pack_u32_inv _ _ Es) as Hs. pose proof (pack_u32_inv _ _ Et) as Ht.
  rewrite (pack_u32_Some _ Hs) in Es. rewrite (pack_u32_Some _ Ht) in Et.
  injection Es as <-. injection Et as <-. simpl.
  rewrite !be32_digits by assumption. reflexivity.
Qed.

(** C6.  For unsigned 32-bit [s] and [N] and a payload of at most 1024
    bytes, the sender's encoding [struct.pack("!II", s, N) + p] succeeds
    and the receiver's decoding of it gives back [(s, N, p)]; the
    datagram is the big-endian [s], the big-endian [N], then [p]. *)
Theorem decode_encode_roundtrip (s N : Z) (p : bytes) :
  0 <= s < 2 ^ 32 -> 0 <= N < 2 ^ 32 -> (length p <= 1024)%nat ->
  exists d,
    encode_data s N p = Some d
    /\ decode_data d = Some (s, N, p)
    /\ d = [byte_of_Z (s / 2 ^ 24); byte_of_Z (s / 2 ^ 16);
            byte_of_Z (s / 2 ^ 8); byte_of_Z s]
           ++ [byte_of_Z (N / 2 ^ 24); byte_of_Z (N / 2 ^ 16);
               byte_of_Z (N / 2 ^ 8); byte_of_Z N] ++ p.
Proof.
  intros Hs HN _. eexists. split; [|split].
  - unfold encode_data. rewrite (pack_u32_Some _ Hs), (pack_u32_Some _ HN).
    reflexivity.
  - apply decode_encode_data. unfold encode_data.
    rewrite (pack_u32_Some _ Hs), (pack_u32_Some _ HN). reflexivity.
  - reflexivity.
Qed.

Lemma decode_encode_roundtrip_witness :
  exists d,
    encode_data 258 70000 [x41; x42]%byte = Some d
    /\ decode_data d = Some (258, 70000, [x41; x42]%byte)
    /\ d = [byte_of_Z (258 / 2 ^ 24); byte_of_Z (258 / 2 ^ 16);
            byte_of_Z (258 / 2 ^ 8); byte_of_Z 258]
           ++ [byte_of_Z (70000 / 2 ^ 24); byte_of_Z (70000 / 2 ^ 16);
               byte_of_Z (70000 / 2 ^ 8); byte_of_Z 70000]
           ++ [x41; x42]%byte.
Proof.
  apply (decode_encode_roundtrip 258 70000 [x41; x42]%byte);
    [lia | lia | simpl; lia].
Defined.

Example encode_data_bytes :
  encode_data 258 70000 [x41; x42]%byte
  = Some [x00; x00; x01; x02; x00; x01; x11; x70; x41; x42]%byte.
Proof. reflexivity. Qed.

End WireFacts.

(** ** Comparisons of rationals *)

Section RationalFacts.

Lemma Qltb_lt x y : Qltb x y = true <-> (x < y)%Q.
Proof.
  unfold Qltb. rewrite negb_true_iff, <- not_true_iff_false, Qle_bool_iff.
  split; [apply Qnot_le_lt | apply Qlt_not_le].
Qed.

Lemma Qltb_ge x y : Qltb x y = false <-> (y <= x)%Q.
Proof. unfold Qltb. rewrite negb_false_iff. apply Qle_bool_iff. Qed.

End RationalFacts.

(** ** The double arithmetic of the receiver *)

Section FloatFacts.
Import Float.

Lemma round53_small k : 0 <= k < 2 ^ 53 -> round53 k = (k, 0).
Proof.
  intros Hk. unfold round53.
  assert (Z.log2 k < 53).
  { destruct (Z.eq_dec k 0) as [->|Hz]; [reflexivity|].
    apply Z.log2_lt_pow2; lia. }
  destruct (Z.leb_spec (Z.log2 k - 52) 0); [reflexivity | lia].
Qed.

Lemma of_int_small n : Z.abs n < 2 ^ 53 -> of_int n = Some n.
Proof.
  intros Hn. unfold of_int. rewrite round53_small by lia.
  rewrite Z.pow_0_r, Z.mul_1_r.
  assert (H1024 : 2 ^ 53 < 2 ^ 1024) by (apply Z.pow_lt_mono_r; lia).
  destruct (Z.leb_spec (2 ^ 1024) (Z.abs n)); [lia|].
  f_equal. rewrite Z.mul_comm. apply Z.abs_sgn.
Qed.

Lemma round53_spec k :
  0 <= k ->
  let '(q, s) := round53 k in
  0 <= s /\ 0 <= q
  /\ (s = 0 -> q = k)
  /\ (0 < s -> 2 ^ s * 2 ^ 52 <= k /\ k / 2 ^ s <= q <= k / 2 ^ s + 1).
Proof.
  intros Hk. unfold round53.
  destruct (Z.leb_spec (Z.log2 k - 52) 0) as [Hs|Hs].
  - repeat split; try lia.
  - set (s := Z.log2 k - 52) in *.
    assert (Hk0 : 0 < k).
    { destruct (Z.eq_dec k 0) as [->|]; [|lia]. cbn in s. lia. }
    assert (Hp : 2 ^ s * 2 ^ 52 <= k).
    { rewrite <- Z.pow_add_r by lia. replace (s + 52) with (Z.log2 k) by lia.
      apply Z.log2_spec, Hk0. }
    assert (Hq : 0 <= k / 2 ^ s) by (apply Z.div_pos; lia).
    destruct ((2 ^ (s - 1) <? k mod 2 ^ s)
              || ((k mod 2 ^ s =? 2 ^ (s - 1)) && Z.odd (k / 2 ^ s)));
      repeat split; lia.
Qed.

Lemma Qgtb_float_half a x : Qgtb (inject_Z a) (half x) = (x <? 2 * a).
Proof.
  unfold Qgtb, Qltb, Qle_bool, half. simpl.
  destruct (Z.leb_spec (a * 2) (x * 1)), (Z.ltb_spec x (2 * a));
    simpl; try reflexivity; lia.
Qed.

(** [e > t * 0.9] in doubles is [10 e > 9 t] for an integer [e] and a
    positive integer [t < 2^32]. *)
Lemma Qgtb_mul_nine_tenths e t :
  0 < t < 2 ^ 48 ->
  Qgtb (inject_Z e) (mul_nine_tenths t) = (9 * t <? 10 * e).
Proof.
  intros Ht. unfold mul_nine_tenths.
  assert (Hk : 0 <= t * nine_tenths) by (unfold nine_tenths; lia).
  pose proof (round53_spec _ Hk) as Hr.
  destruct (round53 (t * nine_tenths)) as [q s].
  destruct Hr as (Hs0 & Hq0 & Hexact & Hround).
  unfold Qgtb, Qltb, Qle_bool. cbn [Qnum Qden inject_Z].
  change (Z.pos (2 ^ 53)) with (2 ^ 53). rewrite Z.mul_1_r.
  assert (Hiff : q * 2 ^ s < e * 2 ^ 53 <-> 9 * t < 10 * e).
  { change (2 ^ 48) with 281474976710656 in Ht.
    destruct (Z.eq_dec s 0) as [->|Hnz].
    - rewrite (Hexact eq_refl). change (2 ^ 0) with 1.
      change (2 ^ 53) with 9007199254740992. unfold nine_tenths. lia.
    - destruct (Hround ltac:(lia)) as (Hp & Hlo & Hhi).
      assert (HP : 0 < 2 ^ s) by lia.
      set (P := 2 ^ s) in *. set (k := t * nine_tenths) in *.
      assert (Hdm := Z.div_mod k P ltac:(lia)).
      assert (Hmod := Z.mod_pos_bound k P HP).
      assert (Hs53 : s <= 53).
      { destruct (Z.le_gt_cases s 53) as [?|Hgt]; [assumption|]. exfalso.
        assert (2 ^ 54 <= P) by (apply Z.pow_le_mono_r; lia).
        change (2 ^ 54) with 18014398509481984 in *.
        change (2 ^ 52) with 4503599627370496 in Hp.
        unfold k, nine_tenths in Hp. nia. }
      assert (HP53 : 2 ^ 53 = P * 2 ^ (53 - s)).
      { unfold P. rewrite <- Z.pow_add_r by lia. f_equal. lia. }
      assert (HR : 0 < 2 ^ (53 - s)) by (apply Z.pow_pos_nonneg; lia).
      set (R := 2 ^ (53 - s)) in *.
      change (2 ^ 52) with 4503599627370496 in Hp.
      split.
      + intros Hlt. 
        (* q * P < e * P * R, so q < e * R, so k / P < e * R *)
        rewrite HP53 in Hlt.
        assert (Hq : q < e * R) by nia.
        assert (k < e * R * P) by nia.
        change (2 ^ 53) with 9007199254740992 in HP53.
        unfold k, nine_tenths in *. nia.
      + intros Hlt. rewrite HP53.
        assert (q * P <= k + P) by nia.
        change (2 ^ 53) with 9007199254740992 in HP53.
        unfold k, nine_tenths in *. nia. }
  destruct (Z.leb_spec (e * 2 ^ 53) (q * 2 ^ s)), (Z.ltb_spec (9 * t) (10 * e));
    cbn; try reflexivity; lia.
Qed.

Example float_samples :
  of_int (2 ^ 1024) = None
  /\ of_int (2 ^ 1024 - 2 ^ 970) = None
  /\ of_int (2 ^ 1024 - 2 ^ 970 - 1) = Some (2 ^ 1024 - 2 ^ 971)
  /\ of_int (2 ^ 53 + 1) = Some (2 ^ 53)
  /\ of_int (2 ^ 53 + 3) = Some (2 ^ 53 + 4)
  /\ of_int (- (2 ^ 53 + 3)) = Some (- (2 ^ 53 + 4))
  /\ Qeq_bool (mul_nine_tenths 10) 9 = true
  /\ Qeq_bool (mul_nine_tenths 3) (3039929748475085 # 1125899906842624) = true.
Proof. vm_compute. repeat split. Qed.

End FloatFacts.

(** ** The receiver: sanity of the total, termination, reset *)

Section ReceiverSteps.
Import Wire Receiver.

Lemma bind_total_bound_nz file_size total pt :
  total <> 0 -> bind_total file_size total pt = Some total.
Proof.
  intros Ht. unfold bind_total.
  destruct (Z.eqb_spec total 0); [contradiction | reflexivity].
Qed.

Lemma bind_total_unbound file_size pt :
  let E := expected_packets file_size in
  Float.of_int E <> None ->
  bind_total file_size 0 pt
  = Some (if (E <? 2 * Z.abs (pt - E)) && (0 <? E) && (E <? 100000)
          then E else pt).
Proof.
  intros E Hov. unfold bind_total, MAX_REASONABLE_PACKETS. fold E.
  simpl (0 =? 0). cbv iota.
  destruct (Float.of_int E) as [x|] eqn:Hx; [|contradiction].
  rewrite Qgtb_float_half.
  destruct (Z.gtb_spec E 0), (Z.ltb_spec 0 E); try lia; cbn [andb].
  - destruct (Z.ltb_spec E 100000); cbn [andb].
    + rewrite of_int_small in Hx
        by (apply Z.lt_trans with 100000; [lia | reflexivity]).
      injection Hx as <-. rewrite andb_true_r.
      destruct (E <? 2 * Z.abs (pt - E)); reflexivity.
    + rewrite andb_false_r. destruct (x <? 2 * Z.abs (pt - E)); reflexivity.
  - rewrite andb_false_r. cbn [andb].
    destruct (x <? 2 * Z.abs (pt - E)); reflexivity.
Qed.

Lemma bind_total_overflow file_size pt :
  Float.of_int (expected_packets file_size) = None ->
  bind_total file_size 0 pt = None.
Proof. intros Hov. unfold bind_total. simpl (0 =? 0). rewrite Hov. reflexivity. Qed.

Lemma drain_total fuel : forall st,
  total_packets (drain fuel st).1 = total_packets st.
Proof.
  induction fuel as [|fuel IH]; intros st; cbn; [reflexivity|].
  destruct (received_packets st !! expected_seq st); [|reflexivity].
  destruct (drain fuel _) as [st' e] eqn:Hd. cbn.
  change st' with (st', e).1. rewrite <- Hd, IH. reflexivity.
Qed.

Lemma on_packet_total st seq pt chunk st' :
  state_of (on_packet st seq pt chunk) = Some st' ->
  total_packets st' = total_packets st.
Proof.
  unfold on_packet.
  destruct ((seq =? total_packets st) && (pt =? total_packets st)).
  { destruct (encode_ack (total_packets st)); intros [= <-]; reflexivity. }
  destruct (seq >=? total_packets st); [intros [= <-]; reflexivity|].
  destruct (bool_decide (seq ∈ received_seq_nums st));
    [intros [= <-]; reflexivity|].
  destruct (seq =? expected_seq st).
  { destruct (drain _ _) as [st2 e] eqn:Hd. cbn. intros [= <-].
    change st2 with (st2, e).1. rewrite <- Hd, drain_total. reflexivity. }
  destruct (seq >? expected_seq st); intros [= <-]; reflexivity.
Qed.

(** C7 (as the code has it).  A datagram that decodes to a data packet
    is ignored, with no answer and the state as it was, when its total
    field is 0 or above 100 000 and [E = (size + 1023) // 1024] is not
    positive.  In every other case it is handled with the total [pt]
    that is the field itself, or [E] in place of a field that is 0 or
    above 100 000: here [E] has no upper bound.  While [total_packets]
    is 0 this first total binds it, to [E] instead of [pt] when
    [|pt - E| > 0.5 E] and [0 < E < 100 000]; a bound [total_packets] is
    never rebound.  When [E] is too large for a double, the product
    [E * 0.5] raises: the datagram is then ignored with [total_packets]
    bound to [pt]. *)
Theorem total_sanity (file_size : Z) (st : rstate) (data : bytes)
    (seq total : Z) (chunk : bytes) :
  let E := expected_packets file_size in
  let pt := if (total =? 0) || (total >? 100000) then E else total in
  let bound :=
    if total_packets st =? 0 then
      if (E <? 2 * Z.abs (pt - E)) && (0 <? E) && (E <? 100000) then E else pt
    else total_packets st in
  data <> RTT_PROBE ->
  decode_data data = Some (seq, total, chunk) ->
  ((total = 0 \/ total > 100000) /\ E <= 0 ->
     on_datagram file_size st data = Continue st [])
  /\ (~ ((total = 0 \/ total > 100000) /\ E <= 0) ->
      (total_packets st <> 0 \/ Float.of_int E <> None ->
         on_datagram file_size st data
         = on_packet (set_total st bound) seq pt chunk
         /\ forall st',
              state_of (on_datagram file_size st data) = Some st' ->
              total_packets st' = bound)
      /\ (total_packets st = 0 -> Float.of_int E = None ->
            on_datagram file_size st data = Continue (set_total st pt) [])).
Proof.
  intros E pt bound Hp Hd. unfold on_datagram.
  destruct (decide (data = RTT_PROBE)); [contradiction|]. rewrite Hd.
  unfold sanitize_total, MAX_REASONABLE_PACKETS. fold E.
  assert (Hor : (total >? 100000) || (total =? 0)
                = (total =? 0) || (total >? 100000)) by apply orb_comm.
  split.
  - intros [Hinv HE]. rewrite Hor.
    assert ((total =? 0) || (total >? 100000) = true) as -> by lia.
    destruct (Z.gtb_spec E 0); [lia | reflexivity].
  - intros Hvalid.
    assert (Hs : (if (total >? 100000) || (total =? 0)
                  then if E >? 0 then Some E else None
                  else Some total) = Some pt).
    { rewrite Hor. subst pt.
      destruct ((total =? 0) || (total >? 100000)) eqn:Hinv; [|reflexivity].
      destruct (Z.gtb_spec E 0); [reflexivity|]. exfalso. apply Hvalid. lia. }
    rewrite Hs. split.
    + intros Hno.
      assert (Hb : bind_total file_size (total_packets st) pt = Some bound).
      { subst bound. destruct (Z.eqb_spec (total_packets st) 0) as [Hz|Hnz].
        - rewrite Hz. apply bind_total_unbound.
          destruct Hno as [?|?]; [contradiction | assumption].
        - apply bind_total_bound_nz, Hnz. }
      rewrite Hb. split; [reflexivity|].
      intros st' Hst. apply on_packet_total in Hst. exact Hst.
    + intros Hz Hov. rewrite Hz, bind_total_overflow by exact Hov. reflexivity.
Qed.

Lemma total_sanity_witness :
  exists a,
    encode_ack 0 = Some a
    /\ on_datagram 204800000 (init false) (Scenario.data_packet 0 0 [x61%byte])
       = on_packet (set_total (init false) 200000) 0 200000 [x61%byte]
    /\ on_packet (set_total (init false) 200000) 0 200000 [x61%byte]
       = Continue
           {| high_rtt_mode := false; total_packets := 200000;
              expected_seq := 1; received_seq_nums := {[0]} ∪ ∅;
              received_packets := ∅ |}
           [Write 0 [x61%byte]; Sendto a].
Proof.
  exists [x00; x00; x00; x00]%byte. split; [reflexivity|]. split.
  - refine (proj1 (proj1 (proj2 (total_sanity 204800000 (init false)
                                   (Scenario.data_packet 0 0 [x61%byte])
                                   0 0 [x61%byte] _ _) _) _)).
    + discriminate.
    + reflexivity.
    + intros [_ HE]. vm_compute in HE. apply HE. reflexivity.
    + right. discriminate.
  - reflexivity.
Defined.

(** C7, the claim as worded fails: with a header size of 102 400 000
    bytes [E] is 100 000, outside (0, 100 000), and a packet whose total
    field is 0 is not dropped: its total becomes [E], which binds
    [total_packets], and the chunk is written and acknowledged. *)
Lemma total_sanity_counterexample :
  expected_packets 102400000 = 100000
  /\ Spec.sanitize_total (expected_packets 102400000) 0 = None
  /\ exists st effs,
       on_datagram 102400000 (init false) (Scenario.data_packet 0 0 [x61%byte])
       = Continue st effs
       /\ total_packets st = 100000 /\ expected_seq st = 1
       /\ writes effs = [(0, [x61%byte])]
       /\ sent effs = [Scenario.ack_packet 0].
Proof.
  split; [reflexivity|]. split; [reflexivity|].
  eexists _, _. split; [vm_compute; reflexivity|]. repeat split.
Qed.

Lemma on_error_other st w :
  w <> Some 10054 -> on_error st w = Continue st [].
Proof.
  intros Hw. unfold on_error.
  destruct w as [z|]; [|reflexivity].
  destruct (decide (z = 10054)) as [->|Hz]; [contradiction|].
  destruct z as [|p|p]; try reflexivity.
  do 14 (destruct p as [p|p|]; try reflexivity); contradiction.
Qed.

Lemma on_error_reset st :
  on_error st (Some 10054)
  = match reset_completes st with
    | Some true => Complete st []
    | Some false => Continue st []
    | None => Escape []
    end.
Proof. reflexivity. Qed.

Lemma reset_completes_spec st :
  total_packets st < 2 ^ 48 ->
  reset_completes st
  = Some ((0 <? total_packets st)
          && (9 * total_packets st <? 10 * expected_seq st)).
Proof.
  intros Ht. unfold reset_completes.
  destruct (Z.gtb_spec (total_packets st) 0), (Z.ltb_spec 0 (total_packets st));
    try lia; [|reflexivity].
  rewrite of_int_small
    by (apply Z.lt_trans with (2 ^ 48); [lia | reflexivity]).
  rewrite Qgtb_mul_nine_tenths by lia. reflexivity.
Qed.

(** C9 (as the code has it).  On a reset by the peer (winerror 10054),
    with a [total_packets] below [2^48], the receiver completes the
    transfer exactly when [total_packets > 0] and
    [expected_seq > 0.9 total_packets], strictly; otherwise, and on every
    other socket error, it goes on waiting with its state unchanged and
    nothing finalized.  With a positive [total_packets] that is too large
    for a double the product [total_packets * 0.9] raises inside the
    handler, and the exception leaves [receive_file].  For every
    positive [total_packets] that a double holds, the test is that of
    [expected_seq] against the product as the doubles give it. *)
Theorem reset_policy (file_size : Z) (st : rstate) (w : option Z) :
  (total_packets st < 2 ^ 48 ->
   (on_error st (Some 10054) = Complete st []
    <-> total_packets st > 0 /\ 10 * expected_seq st > 9 * total_packets st)
   /\ (on_error st (Some 10054) = Continue st []
       <-> ~ (total_packets st > 0
              /\ 10 * expected_seq st > 9 * total_packets st)))
  /\ (total_packets st > 0 -> Float.of_int (total_packets st) = None ->
      on_error st (Some 10054) = Escape [])
  /\ (w <> Some 10054 -> on_error st w = Continue st [])
  /\ (forall inactive,
        stream_step file_size st (SockError w) inactive = on_error st w)
  /\ (forall x,
        total_packets st > 0 -> Float.of_int (total_packets st) = Some x ->
        (on_error st (Some 10054) = Complete st []
         <-> (Float.mul_nine_tenths x < inject_Z (expected_seq st))%Q)
        /\ (on_error st (Some 10054) = Continue st []
            <-> ~ (Float.mul_nine_tenths x < inject_Z (expected_seq st))%Q)).
Proof.
  split; [|split; [|split; [|split]]].
  5: { intros x Hpos Hx. rewrite on_error_reset. unfold reset_completes.
       destruct (Z.gtb_spec (total_packets st) 0); [|lia]. rewrite Hx.
       unfold Qgtb.
       destruct (Qltb _ _) eqn:Hq.
       - apply Qltb_lt in Hq.
         split; (split; [intro Hy | intro Hy]);
           first [reflexivity | assumption | discriminate Hy | contradiction].
       - apply Qltb_ge in Hq. apply Qle_not_lt in Hq.
         split; (split; [intro Hy | intro Hy]);
           first [reflexivity | assumption | discriminate Hy | contradiction]. }
  - intros Ht. rewrite on_error_reset, (reset_completes_spec st Ht).
    destruct (Z.ltb_spec 0 (total_packets st)),
             (Z.ltb_spec (9 * total_packets st) (10 * expected_seq st));
      cbn [andb]; split; (split; [intro Hx | intro Hx]);
      first [reflexivity | discriminate Hx | lia | (exfalso; lia)].
  - intros Hpos Hov. rewrite on_error_reset. unfold reset_completes.
    destruct (Z.gtb_spec (total_packets st) 0); [|lia]. rewrite Hov. reflexivity.
  - apply on_error_other.
  - reflexivity.
Qed.

Lemma on_datagram_packet file_size st data seq total chunk pt t :
  data <> RTT_PROBE ->
  decode_data data = Some (seq, total, chunk) ->
  sanitize_total file_size total = Some pt ->
  bind_total file_size (total_packets st) pt = Some t ->
  on_datagram file_size st data = on_packet (set_total st t) seq pt chunk.
Proof.
  intros Hp Hd Hs Hb. unfold on_datagram.
  destruct (decide (data = RTT_PROBE)); [contradiction|].
  rewrite Hd, Hs, Hb. reflexivity.
Qed.

(** C3 (as the code has it).  When the receiver recognizes the
    termination marker (the sequence number and the sanitized total both
    equal [total_packets], as it is bound once this datagram is read) it
    sends the ACK of [total_packets] 5 times with a delay of 10 ms after
    each, or 15 times with 50 ms in high_rtt mode, and leaves the loop;
    the receiver has no extreme mode.  A datagram at which the binding
    of [total_packets] raises is not recognized: it gets no answer and
    the loop goes on. *)
Theorem term_ack_shots (file_size : Z) (st : rstate) (data : bytes)
    (seq total pt : Z) (chunk : bytes) :
  data <> RTT_PROBE ->
  decode_data data = Some (seq, total, chunk) ->
  sanitize_total file_size total = Some pt ->
  (bind_total file_size (total_packets st) pt = Some seq -> pt = seq ->
   exists a,
     encode_ack pt = Some a /\ decode_ack a = Some pt
     /\ on_datagram file_size st data
        = Complete (set_total st pt)
            (concat (repeat [Sendto a;
                             Sleep (if high_rtt_mode st then 5 # 100 else 1 # 100)]
                            (if high_rtt_mode st then 15 else 5)%nat)))
  /\ (bind_total file_size (total_packets st) pt = None ->
      on_datagram file_size st data = Continue (set_total st pt) []).
Proof.
  intros Hp Hd Hs. split.
  - intros Hb Hpt. subst seq.
    rewrite (on_datagram_packet _ _ _ _ _ _ _ _ Hp Hd Hs Hb).
    destruct (decode_data_range _ _ _ _ Hd) as [Hr _].
    exists [byte_of_Z (pt / 2 ^ 24); byte_of_Z (pt / 2 ^ 16);
            byte_of_Z (pt / 2 ^ 8); byte_of_Z pt].
    assert (He : encode_ack pt
                 = Some [byte_of_Z (pt / 2 ^ 24); byte_of_Z (pt / 2 ^ 16);
                         byte_of_Z (pt / 2 ^ 8); byte_of_Z pt])
      by (apply pack_u32_Some, Hr).
    split; [exact He|]. split; [apply unpack_pack_u32, He|].
    unfold on_packet. cbn [total_packets set_total high_rtt_mode].
    rewrite Z.eqb_refl. cbn [andb]. rewrite He.
    destruct (high_rtt_mode st); reflexivity.
  - intros Hb. unfold on_datagram.
    destruct (decide (data = RTT_PROBE)); [contradiction|].
    rewrite Hd, Hs, Hb. reflexivity.
Qed.

Lemma term_ack_shots_witness :
  (exists a,
     encode_ack 1 = Some a /\ decode_ack a = Some 1
     /\ on_datagram 1024 (init false) (Scenario.data_packet 1 1 [])
        = Complete (set_total (init false) 1)
            (concat (repeat [Sendto a; Sleep (1 # 100)] 5%nat)))
  /\ on_datagram Scenario.oversized (init false) (Scenario.data_packet 5 5 [])
     = Continue (set_total (init false) 5) [].
Proof.
  split.
  - refine (proj1 (term_ack_shots 1024 (init false)
                     (Scenario.data_packet 1 1 []) 1 1 1 [] _ _ _) _ _);
      first [reflexivity | discriminate].
  - refine (proj2 (term_ack_shots Scenario.oversized (init false)
                     (Scenario.data_packet 5 5 []) 5 5 5 [] _ _ _) _);
      first [discriminate | vm_compute; reflexivity].
Defined.

(** C3, the claim as worded fails: in standard mode the receiver sends
    the termination ACK 5 times, not 3; in high_rtt mode 15 times with
    50 ms, not 10 times with 20 ms. *)
Lemma term_ack_shots_counterexample :
  (exists st effs,
     on_datagram 1024 (init false) (Scenario.data_packet 1 1 [])
     = Complete st effs
     /\ length (sent effs) = 5%nat
     /\ Z.of_nat (length (sent effs)) <> fst (Spec.term_params false false))
  /\ (exists st effs,
     on_datagram 1024 (init true) (Scenario.data_packet 1 1 [])
     = Complete st effs
     /\ length (sent effs) = 15%nat
     /\ Z.of_nat (length (sent effs)) <> fst (Spec.term_params true false)).
Proof.
  split; eexists _, _; (split; [vm_compute; reflexivity|]);
    split; [reflexivity | discriminate | reflexivity | discriminate].
Qed.

Lemma stream_loop_markers high copies rest :
  stream_loop 0 (Scenario.feed (repeat Scenario.empty_marker copies) ++ rest)
              (init high)
  = stream_loop 0 rest (init high).
Proof.
  induction copies as [|n IH]; [reflexivity|].
  cbn [repeat Scenario.feed map app stream_loop stream_step].
  change (on_datagram 0 (init high) Scenario.empty_marker)
    with (Continue (init high) []).
  cbn iota. unfold Scenario.feed in IH. rewrite IH.
  destruct (stream_loop 0 rest (init high)) as [[]|]; reflexivity.
Qed.

(** C1, what the code does.  For an empty file the sender has no
    chunks, its streaming loop is left at once without a data packet,
    and its termination marker is eight zero bytes: with the header
    acknowledged and nothing else ever answered it sends the header, three
    probes and 25 rounds of three markers, and returns True.  The
    receiver, whose header said size 0, has [E = 0], takes the total 0 of
    the marker for an invalid total and ignores the datagram: however
    many copies arrive it sends no ACK, keeps its state and stays in the
    loop, until its inactivity timeout makes it return False. *)
Theorem empty_file_marker_ignored (high : bool) (copies : nat) :
  Sender.total_packets (Sender.file_chunks []) = 0
  /\ (forall start rtt ticks,
        Sender.streaming (Sender.file_chunks []) start rtt ticks Sender.init
        = Some (Running Sender.init []))
  /\ encode_data 0 0 [] = Some Scenario.empty_marker
  /\ (forall header ticks,
        exists effs,
          Sender.send_file header [] 0
            (Sender.Environment [Datagram HEADER_ACK]
               (repeat (SockTimeout, 1%Q) 3) ticks
               (repeat (1%Q, SockTimeout) 25))
          = Some (Returned true effs)
          /\ sent effs
             = header :: repeat RTT_PROBE 3 ++ repeat Scenario.empty_marker 75)
  /\ on_datagram 0 (init high) Scenario.empty_marker = Continue (init high) []
  /\ run 0 (Scenario.feed (repeat Scenario.empty_marker copies)) (init high)
     = Some (init high, [])
  /\ stream_loop 0 (Scenario.feed (repeat Scenario.empty_marker copies))
                 (init high) = None
  /\ (forall md5 file_md5,
        receive_file 0 md5 file_md5 high
          (Scenario.feed (repeat Scenario.empty_marker copies)
           ++ [(SockTimeout, 241 # 1)])
        = Some false).
Proof.
  split; [reflexivity|]. split; [intros start rtt [|tk ticks]; reflexivity|].
  split; [reflexivity|].
  split; [intros header [|tk ticks]; eexists; split; reflexivity|].
  split; [reflexivity|].
  split; [|split].
  - induction copies as [|n IH]; [reflexivity|]. simpl.
    change (on_datagram 0 (init high) Scenario.empty_marker)
      with (Continue (init high) []).
    rewrite IH. reflexivity.
  - rewrite <- (app_nil_r (Scenario.feed _)). apply stream_loop_markers.
  - intros md5 file_md5. unfold receive_file. rewrite stream_loop_markers.
    destruct high; reflexivity.
Qed.

Lemma reset_policy_witness :
  on_error (RState false 10 10 ∅ ∅) (Some 10054)
  = Complete (RState false 10 10 ∅ ∅) []
  /\ on_error (RState false 10 9 ∅ ∅) (Some 10054)
     = Continue (RState false 10 9 ∅ ∅) []
  /\ on_error (RState false 10 9 ∅ ∅) (Some 10040)
     = Continue (RState false 10 9 ∅ ∅) []
  /\ on_error (RState false (expected_packets Scenario.oversized) 0 ∅ ∅)
              (Some 10054)
     = Escape [].
Proof.
  split; [|split; [|split]].
  - apply (proj1 (reset_policy 10240 (RState false 10 10 ∅ ∅) None));
      [reflexivity | cbn; lia].
  - apply (proj2 (proj1 (reset_policy 10240 (RState false 10 9 ∅ ∅) None)
                    eq_refl)).
    cbn. lia.
  - apply (proj1 (proj2 (proj2 (reset_policy 10240 (RState false 10 9 ∅ ∅)
                                  (Some 10040))))).
    discriminate.
  - apply (proj1 (proj2 (reset_policy Scenario.oversized
                           (RState false (expected_packets Scenario.oversized)
                                   0 ∅ ∅) None)));
      vm_compute; reflexivity.
Defined.

(** C9, the claim as worded fails: with 9 of 10 chunks written,
    [expected_seq = 9 >= 0.9 * 10], yet a reset does not complete the
    transfer, because the code asks for strictly more than 0.9. *)
Lemma reset_policy_counterexample :
  exists st effs,
    run 10240 (Scenario.feed (Scenario.in_order 0 9 10)) (init false)
    = Some (st, effs)
    /\ expected_seq st = 9 /\ total_packets st = 10
    /\ Spec.reset_completes (expected_seq st) (total_packets st) = true
    /\ stream_step 10240 st (SockError (Some 10054)) 0 = Continue st [].
Proof.
  eexists _, _. split; [vm_compute; reflexivity|].
  repeat split.
Qed.

End ReceiverSteps.

(** ** The sender: retransmission timeout *)

Section SenderTimeout.
Import Sender.

Lemma dynamic_timeout_cases rtt r remaining progress :
  dynamic_timeout rtt r remaining progress
  = if Qltb remaining 20 && Qgtb progress 75 then (TIMEOUT * (1 # 10))%Q
    else if Qltb remaining 50
         then Qmax (TIMEOUT * (2 # 10))%Q (backoff_timeout rtt r * (4 # 10))%Q
         else backoff_timeout rtt r.
Proof.
  unfold dynamic_timeout.
  destruct (Qltb remaining 20 && Qgtb progress 75); [reflexivity|].
  destruct (Qltb remaining 50) eqn:H50; [reflexivity|].
  destruct (Qltb remaining 25) eqn:H25; [|reflexivity].
  apply Qltb_lt in H25. apply Qltb_ge in H50.
  exfalso. apply (Qlt_irrefl 50).
  eapply Qle_lt_trans; [exact H50|]. eapply Qlt_trans; [exact H25|]. reflexivity.
Qed.

(** C4, what the code does.  The test [remaining < 50] comes before
    [remaining < 25] in an if/elif, so the second branch is never
    taken: with less than 25 % of the time left, outside the final
    push, the timeout of an entry with any retry count [r] is
    [max(200ms * 0.2, T * 0.4)], which is at least 40 ms and so never
    the [200ms * 0.15 = 30 ms] of the claim.  The final push gives
    [200ms * 0.1] as claimed. *)
Theorem dynamic_timeout_below_25 (rtt : Q) (r : Z) (remaining progress : Q) :
  (remaining < 25)%Q ->
  Qltb remaining 20 && Qgtb progress 75 = false ->
  dynamic_timeout rtt r remaining progress
  = Qmax (TIMEOUT * (2 # 10))%Q (backoff_timeout rtt r * (4 # 10))%Q
  /\ (4 # 100 <= dynamic_timeout rtt r remaining progress)%Q
  /\ ~ (dynamic_timeout rtt r remaining progress == TIMEOUT * (15 # 100))%Q
  /\ (Spec.scaled_timeout (backoff_timeout rtt r) remaining progress
      == TIMEOUT * (15 # 100))%Q.
Proof.
  intros H25 Hfinal.
  assert (H50 : Qltb remaining 50 = true).
  { apply Qltb_lt. eapply Qlt_trans; [exact H25 | reflexivity]. }
  assert (Heq : dynamic_timeout rtt r remaining progress
                = Qmax (TIMEOUT * (2 # 10))%Q (backoff_timeout rtt r * (4 # 10))%Q).
  { rewrite dynamic_timeout_cases, Hfinal, H50. reflexivity. }
  assert (Hge : (4 # 100 <= dynamic_timeout rtt r remaining progress)%Q).
  { rewrite Heq. eapply Qle_trans; [|apply Q.le_max_l]. discriminate. }
  split; [exact Heq|]. split; [exact Hge|]. split.
  - intros Heq'. rewrite Heq' in Hge. revert Hge. apply Qlt_not_le. reflexivity.
  - unfold Spec.scaled_timeout. rewrite Hfinal.
    apply Qltb_lt in H25. rewrite H25. reflexivity.
Qed.

Lemma dynamic_timeout_below_25_witness :
  (10 < 25)%Q /\ Qltb 10 20 && Qgtb 0 75 = false
  /\ (dynamic_timeout 0 0 10 0 == 64 # 1000)%Q
  /\ (4 # 100 <= dynamic_timeout 0 0 10 0)%Q
  /\ ~ (dynamic_timeout 0 0 10 0 == TIMEOUT * (15 # 100))%Q.
Proof.
  assert (H1 : (10 < 25)%Q) by reflexivity.
  assert (H2 : Qltb 10 20 && Qgtb 0 75 = false) by reflexivity.
  destruct (dynamic_timeout_below_25 0 0 10 0 H1 H2) as (Ha & Hb & Hc & _).
  split; [exact H1|]. split; [exact H2|].
  split; [rewrite Ha; reflexivity|]. split; [exact Hb | exact Hc].
Defined.

End SenderTimeout.

(** ** The sender: header handshake *)

Section SenderHeader.
Import Sender.

Example utf8_valid_samples :
  Utf8.valid HEADER_ACK = true
  /\ Utf8.valid [xc3; xa9]%byte = true           (* U+00E9 *)
  /\ Utf8.valid [xe2; x82; xac]%byte = true      (* U+20AC *)
  /\ Utf8.valid [xf0; x9f; x98; x80]%byte = true (* U+1F600 *)
  /\ Utf8.valid [xff]%byte = false
  /\ Utf8.valid [xc0; x80]%byte = false          (* overlong *)
  /\ Utf8.valid [xed; xa0; x80]%byte = false     (* surrogate *)
  /\ Utf8.valid [xf4; x90; x80; x80]%byte = false (* above U+10FFFF *)
  /\ Utf8.valid [xe2; x82]%byte = false.         (* truncated *)
Proof. repeat split. Qed.

Lemma header_sync_timeout header evs r :
  r < MAX_RETRIES ->
  header_sync header (SockTimeout :: evs) r
  = let '(res, rest) := header_sync header evs (r + 1) in
    (emit [Sendto header] <$> res, rest).
Proof.
  intros Hr. cbn [header_sync].
  destruct (Z.ltb_spec r MAX_RETRIES); [reflexivity | lia].
Qed.

Lemma header_sync_rejected header d evs r :
  r < MAX_RETRIES ->
  rejected d = true ->
  header_sync header (Datagram d :: evs) r
  = let '(res, rest) := header_sync header evs (r + 1) in
    (emit [Sendto header] <$> res, rest).
Proof.
  unfold rejected. intros Hr [Hv Hn]%andb_true_iff.
  apply negb_true_iff, bool_decide_eq_false in Hn.
  cbn [header_sync]. destruct (Z.ltb_spec r MAX_RETRIES); [|lia].
  rewrite Hv. destruct (decide (d = HEADER_ACK)); [contradiction|].
  reflexivity.
Qed.

Lemma header_sync_exhaust header ds r :
  0 <= r -> r + Z.of_nat (length ds) = MAX_RETRIES ->
  forallb rejected ds = true ->
  header_sync header (map Datagram ds) r
  = (Some (Returned false (repeat (Sendto header) (length ds))), []).
Proof.
  revert r. induction ds as [|d ds IH]; intros r Hr Hlen Hall.
  - simpl in *. destruct (Z.ltb_spec r MAX_RETRIES); [lia | reflexivity].
  - simpl in Hall. apply andb_true_iff in Hall as [Hd Hall].
    cbn [map]. cbn [length] in Hlen.
    rewrite header_sync_rejected by (try assumption; lia).
    rewrite IH by (try assumption; lia). reflexivity.
Qed.

(** C10 (as the code has it).  In the header handshake a datagram that
    is well-formed UTF-8 and is not HEADER_ACK does to the retry counter
    what a socket timeout does; so after 25 such datagrams, with no
    timeout at all, the sender has sent the header 25 times and
    [send_file] returns False. *)
Theorem header_retries_shared (header content : bytes) (start : Q)
    (env : environment) (ds : list bytes) :
  length ds = 25%nat ->
  forallb rejected ds = true ->
  header_events env = map Datagram ds ->
  (forall d evs r, r < MAX_RETRIES -> rejected d = true ->
     header_sync header (Datagram d :: evs) r
     = header_sync header (SockTimeout :: evs) r
     /\ header_sync header (Datagram d :: evs) r
        = let '(res, rest) := header_sync header evs (r + 1) in
          (emit [Sendto header] <$> res, rest))
  /\ header_sync header (map Datagram ds) 0
     = (Some (Returned false (repeat (Sendto header) 25)), [])
  /\ send_file header content start env
     = Some (Returned false (repeat (Sendto header) 25)).
Proof.
  intros Hlen Hall Hev.
  assert (Hs : header_sync header (map Datagram ds) 0
               = (Some (Returned false (repeat (Sendto header) 25)), [])).
  { rewrite <- Hlen. apply header_sync_exhaust; [lia | | assumption].
    rewrite Hlen. reflexivity. }
  split.
  { intros d evs r Hr Hd.
    rewrite header_sync_timeout by assumption.
    split; apply header_sync_rejected; assumption. }
  split; [exact Hs|].
  unfold send_file. rewrite Hev, Hs. reflexivity.
Qed.

Lemma header_retries_shared_witness :
  let env := Environment (map Datagram (repeat Scenario.stray_text 25)) [] [] [] in
  (forall d evs r, r < MAX_RETRIES -> rejected d = true ->
     header_sync Scenario.sample_header (Datagram d :: evs) r
     = header_sync Scenario.sample_header (SockTimeout :: evs) r
     /\ header_sync Scenario.sample_header (Datagram d :: evs) r
        = let '(res, rest) := header_sync Scenario.sample_header evs (r + 1) in
          (emit [Sendto Scenario.sample_header] <$> res, rest))
  /\ header_sync Scenario.sample_header
              (map Datagram (repeat Scenario.stray_text 25)) 0
  = (Some (Returned false (repeat (Sendto Scenario.sample_header) 25)), [])
  /\ send_file Scenario.sample_header [] 0 env
     = Some (Returned false (repeat (Sendto Scenario.sample_header) 25)).
Proof.
  intros env.
  apply (header_retries_shared Scenario.sample_header [] 0 env
           (repeat Scenario.stray_text 25));
    reflexivity.
Defined.

(** C10, the claim as worded fails: a datagram that is not UTF-8 is
    not HEADER_ACK either, but [ack.decode()] raises on it, no handler of
    [send_file] catches that, and the retry counter is not what ends
    the handshake: 25 such datagrams end it at the first one. *)
Lemma header_retries_shared_counterexample :
  Scenario.not_utf8 <> HEADER_ACK
  /\ header_sync Scenario.sample_header
       (map Datagram (repeat Scenario.not_utf8 25)) 0
     = (Some (Raised [Sendto Scenario.sample_header]),
        map Datagram (repeat Scenario.not_utf8 24))
  /\ header_sync Scenario.sample_header
       (map Datagram (repeat Scenario.not_utf8 25)) 0
     <> header_sync Scenario.sample_header (repeat SockTimeout 25) 0.
Proof. split; [discriminate|]. split; [reflexivity | discriminate]. Qed.

End SenderHeader.

(** ** The receiver: reassembly *)

Section ReceiverInvariant.
Import Wire Receiver.

Lemma writes_app e1 e2 : writes (e1 ++ e2) = writes e1 ++ writes e2.
Proof. apply omap_app. Qed.

Lemma writes_send_ack n : writes (send_ack n) = [].
Proof. unfold send_ack. destruct (encode_ack n); reflexivity. Qed.

Lemma file_written_writes effs :
  file_written effs = concat (writes effs).*2.
Proof.
  unfold file_written, writes.
  induction effs as [|e effs IH]; [reflexivity|].
  destruct e as [d|s c|q]; cbn; rewrite ?IH; reflexivity.
Qed.

Lemma arrived_mono evs evs' s c :
  arrived evs s c -> arrived (evs ++ evs') s c.
Proof.
  intros (d & t & i & Hin & Hd). exists d, t, i. split; [|assumption].
  apply elem_of_app. left. assumption.
Qed.

Lemma coherent_mono evs evs' st effs :
  coherent evs st effs -> coherent (evs ++ evs') st effs.
Proof.
  intros [H1 H2 H3 H4 H5 H6]. split; try assumption.
  - intros s c Hs. apply arrived_mono, H5, Hs.
  - intros k c Hk. apply arrived_mono, (H6 _ _ Hk).
Qed.

Lemma seqZ_snoc n : 0 <= n -> seqZ 0 (n + 1) = seqZ 0 n ++ [n].
Proof. intros Hn. rewrite seqZ_app by lia. reflexivity. Qed.

(** Writing chunk [expected_seq] and stepping over it keeps the
    variables coherent. *)
Lemma coherent_advance evs st effs chunk buf :
  coherent evs st effs ->
  expected_seq st < total_packets st ->
  arrived evs (expected_seq st) chunk ->
  buf = delete (expected_seq st) (received_packets st) ->
  coherent evs
    {| high_rtt_mode := high_rtt_mode st;
       total_packets := total_packets st;
       expected_seq := expected_seq st + 1;
       received_seq_nums := {[expected_seq st]} ∪ received_seq_nums st;
       received_packets := buf |}
    (effs ++ [Write (expected_seq st) chunk]).
Proof.
  intros [H1 H2 H3 H4 H5 H6] Hlt Harr ->. split; cbn.
  - lia.
  - rewrite writes_app, fmap_app, H2. cbn. rewrite seqZ_snoc by lia.
    reflexivity.
  - intros k. rewrite elem_of_union, elem_of_singleton, H3,
      lookup_delete_is_Some.
    destruct (decide (k = expected_seq st)) as [->|Hne].
    + split; [intros _; left; lia | intros _; left; reflexivity].
    + split.
      * intros [?|[?|?]]; [contradiction | left; lia | right; split; [congruence | assumption]].
      * intros [?|[_ ?]]; right; [left; lia | right; assumption].
  - intros k [Hne Hk]%lookup_delete_is_Some. specialize (H4 _ Hk). lia.
  - intros s c. rewrite writes_app, elem_of_app. cbn.
    intros [Hs|Hs%list_elem_of_singleton]; [apply H5, Hs|].
    injection Hs as -> ->. assumption.
  - intros k c [_ Hk]%lookup_delete_Some. apply (H6 _ _ Hk).
Qed.

Lemma drain_consistent evs fuel : forall st effs0 st' e,
  coherent evs st effs0 ->
  (size (received_packets st) <= fuel)%nat ->
  drain fuel st = (st', e) ->
  consistent evs st' (effs0 ++ e)
  /\ expected_seq st <= expected_seq st'
  /\ total_packets st' = total_packets st
  /\ high_rtt_mode st' = high_rtt_mode st
  /\ sent e = [].
Proof.
  induction fuel as [|fuel IH]; intros st effs0 st' e Hc Hsz Hd.
  - cbn in Hd. injection Hd as <- <-. rewrite app_nil_r.
    assert (received_packets st = ∅) as Hem by (apply map_size_empty_inv; lia).
    split; [split; [assumption | rewrite Hem; apply lookup_empty]|].
    repeat split; lia.
  - cbn in Hd.
    destruct (received_packets st !! expected_seq st) as [chunk|] eqn:Hl.
    + destruct (drain fuel _) as [st'' effs] eqn:Hd'.
      injection Hd as <- <-.
      assert (Hlt : expected_seq st < total_packets st).
      { destruct Hc as [_ _ _ H4 _ _]. specialize (H4 (expected_seq st)).
        rewrite Hl in H4. specialize (H4 (mk_is_Some _ _ eq_refl)). lia. }
      pose proof (coherent_advance evs st effs0 chunk _ Hc Hlt
                    (coh_buffer_arrived _ _ _ Hc _ _ Hl) eq_refl) as Hc'.
      eapply IH in Hd'; [|exact Hc'|].
      * cbn in Hd'. destruct Hd' as (Hcons & Hle & Ht & Hh & Hs).
        rewrite <- app_assoc in Hcons. cbn in Hcons.
        split; [exact Hcons|].
        change (sent (Write (expected_seq st) chunk :: effs)) with (sent effs).
        repeat split; try assumption; lia.
      * cbn. rewrite map_size_delete_Some by (rewrite Hl; eauto). lia.
    + injection Hd as <- <-. rewrite app_nil_r.
      split; [split; assumption|]. repeat split; lia.
Qed.

Lemma consistent_same evs st st' effs effs' :
  total_packets st' = total_packets st ->
  expected_seq st' = expected_seq st ->
  received_seq_nums st' = received_seq_nums st ->
  received_packets st' = received_packets st ->
  writes effs' = writes effs ->
  consistent evs st effs -> consistent evs st' effs'.
Proof.
  intros Ht He Hr Hb Hw [[H1 H2 H3 H4 H5 H6] H7].
  split; [split|]; rewrite ?Ht, ?He, ?Hr, ?Hb, ?Hw; assumption.
Qed.

Lemma writes_shots a d n : writes (concat (repeat [Sendto a; Sleep d] n)) = [].
Proof. induction n as [|n IH]; [reflexivity | exact IH]. Qed.

Lemma consistent_quiet evs st effs e :
  writes e = [] -> consistent evs st effs -> consistent evs st (effs ++ e).
Proof.
  intros He. apply consistent_same; try reflexivity.
  rewrite writes_app, He, app_nil_r. reflexivity.
Qed.

Lemma on_packet_consistent evs st effs0 seq pt chunk st' :
  consistent evs st effs0 ->
  arrived evs seq chunk ->
  state_of (on_packet st seq pt chunk) = Some st' ->
  consistent evs st' (effs0 ++ effs_of (on_packet st seq pt chunk))
  /\ expected_seq st <= expected_seq st'
  /\ total_packets st' = total_packets st.
Proof.
  intros Hc Harr. unfold on_packet.
  destruct ((seq =? total_packets st) && (pt =? total_packets st)).
  { destruct (encode_ack (total_packets st)); cbn; intros [= <-];
      (split; [|split; [lia | reflexivity]]).
    - apply consistent_quiet; [apply writes_shots | assumption].
    - rewrite app_nil_r. assumption. }
  destruct (Z.geb_spec seq (total_packets st)) as [|Hlt].
  { cbn. intros [= <-]. rewrite app_nil_r.
    split; [assumption | split; [lia | reflexivity]]. }
  destruct (bool_decide (seq ∈ received_seq_nums st)) eqn:Hdup.
  { cbn. intros [= <-]. split; [|split; [lia | reflexivity]].
    apply consistent_quiet; [apply writes_send_ack | assumption]. }
  apply bool_decide_eq_false in Hdup.
  destruct (Z.eqb_spec seq (expected_seq st)) as [->|Hne].
  { destruct (drain _ _) as [st2 effs] eqn:Hd. cbn. intros [= <-].
    destruct Hc as [Hc Hnone].
    pose proof (coherent_advance evs st effs0 chunk (received_packets st)
                  Hc Hlt Harr (eq_sym (delete_id _ _ Hnone))) as Hc1.
    eapply drain_consistent in Hd; [|exact Hc1|cbn; lia].
    cbn in Hd. destruct Hd as (Hcons & Hle & Ht & _ & _).
    split; [|split; [lia | assumption]].
    eapply consistent_same; [reflexivity..| |exact Hcons].
    rewrite !writes_app. cbn. rewrite !writes_app, writes_send_ack, app_nil_r.
    rewrite <- app_assoc. reflexivity. }
  destruct (Z.gtb_spec seq (expected_seq st)) as [Hgt|Hle].
  { cbn. intros [= <-]. cbn. split; [|split; [lia | reflexivity]].
    destruct Hc as [[H1 H2 H3 H4 H5 H6] H7]. split; [split|]; cbn.
    - assumption.
    - rewrite writes_app, writes_send_ack, app_nil_r. assumption.
    - intros k. rewrite elem_of_union, elem_of_singleton, H3,
        lookup_insert_is_Some'. intuition congruence.
    - intros k [<-|Hk]%lookup_insert_is_Some'; [lia | apply H4, Hk].
    - intros s c. rewrite writes_app, writes_send_ack, app_nil_r. apply H5.
    - intros k c [[<- <-]|[_ Hk]]%lookup_insert_Some;
        [assumption | apply (H6 _ _ Hk)].
    - rewrite lookup_insert_ne by lia. assumption. }
  cbn. intros [= <-]. split; [|split; [lia | reflexivity]].
  apply consistent_quiet; [apply writes_send_ack | assumption].
Qed.

Lemma sanitize_total_pos file_size t pt :
  sanitize_total file_size t = Some pt -> 0 <= t -> 1 <= pt.
Proof.
  unfold sanitize_total, MAX_REASONABLE_PACKETS.
  destruct (Z.gtb_spec t 100000); cbn.
  - destruct (Z.gtb_spec (expected_packets file_size) 0); intros [= <-]; lia.
  - destruct (Z.eqb_spec t 0); cbn.
    + destruct (Z.gtb_spec (expected_packets file_size) 0); intros [= <-]; lia.
    + intros [= <-]. lia.
Qed.

Lemma bind_total_bound file_size total pt :
  1 <= pt ->
  (total <> 0 -> bind_total file_size total pt = Some total)
  /\ (forall t, total = 0 -> bind_total file_size total pt = Some t -> 1 <= t).
Proof.
  intros Hpt. split; [apply bind_total_bound_nz|].
  intros t -> . unfold bind_total. cbn.
  destruct (Float.of_int (expected_packets file_size)); [|discriminate].
  destruct (Qgtb _ _); [|intros [= <-]; assumption].
  destruct (Z.gtb_spec (expected_packets file_size) 0); cbn;
    [|intros [= <-]; assumption].
  destruct (_ <? _); intros [= <-]; [lia | assumption].
Qed.

Lemma consistent_set_total evs st effs t :
  consistent evs st effs ->
  (total_packets st <> 0 -> t = total_packets st) ->
  (total_packets st = 0 -> 1 <= t) ->
  consistent evs (set_total st t) effs.
Proof.
  intros Hc Hne H0.
  destruct (decide (total_packets st = 0)) as [Hz|Hnz].
  - specialize (H0 Hz). destruct Hc as [[H1 H2 H3 H4 H5 H6] H7].
    split; [split|]; cbn; try assumption.
    + lia.
    + intros k Hk. specialize (H4 _ Hk). lia.
  - specialize (Hne Hnz).
    eapply consistent_same; [..|exact Hc]; cbn; congruence.
Qed.

Lemma consistent_bind file_size evs st effs pt t :
  consistent evs st effs -> 1 <= pt ->
  bind_total file_size (total_packets st) pt = Some t ->
  consistent evs (set_total st t) effs.
Proof.
  intros Hc Hpt Hb.
  destruct (bind_total_bound file_size (total_packets st) pt Hpt) as [Hne H0].
  apply consistent_set_total; [exact Hc | |].
  - intros Hnz. rewrite (Hne Hnz) in Hb. congruence.
  - intros Hz. apply (H0 t Hz Hb).
Qed.

(** The datagram at which the binding raises: it is ignored with
    [total_packets] bound to its total. *)
Lemma bind_total_None file_size total pt :
  bind_total file_size total pt = None -> total = 0.
Proof.
  unfold bind_total. destruct (Z.eqb_spec total 0); [auto|discriminate].
Qed.

Lemma stream_step_consistent file_size evs st effs0 ev inactive st' :
  consistent evs st effs0 ->
  state_of (stream_step file_size st ev inactive) = Some st' ->
  consistent (evs ++ [(ev, inactive)]) st'
             (effs0 ++ effs_of (stream_step file_size st ev inactive))
  /\ expected_seq st <= expected_seq st'
  /\ (total_packets st <> 0 -> total_packets st' = total_packets st).
Proof.
  intros Hc.
  assert (Hc' : consistent (evs ++ [(ev, inactive)]) st effs0).
  { destruct Hc as [Hc Hn]. split; [apply coherent_mono|]; assumption. }
  assert (Hstay : forall e, writes e = [] ->
            consistent (evs ++ [(ev, inactive)]) st (effs0 ++ e)
            /\ expected_seq st <= expected_seq st
            /\ (total_packets st <> 0 -> total_packets st = total_packets st)).
  { intros e He. split; [apply consistent_quiet; assumption|].
    split; [lia | reflexivity]. }
  destruct ev as [data| |w]; cbn [stream_step].
  - unfold on_datagram.
    destruct (decide (data = RTT_PROBE)) as [_|Hp].
    { cbn. intros [= <-]. split; [|split; [cbn; lia | reflexivity]].
      eapply consistent_same; [..|exact Hc']; try reflexivity.
      rewrite writes_app, app_nil_r. reflexivity. }
    destruct (decode_data data) as [[[seq t] chunk]|] eqn:Hd;
      [|cbn; intros [= <-]; apply Hstay; reflexivity].
    destruct (sanitize_total file_size t) as [pt|] eqn:Hs;
      [|cbn; intros [= <-]; apply Hstay; reflexivity].
    destruct (decode_data_range _ _ _ _ Hd) as [_ Ht].
    pose proof (sanitize_total_pos _ _ _ Hs (proj1 Ht)) as Hpt.
    destruct (bind_total file_size (total_packets st) pt) as [T|] eqn:Hb.
    2:{ cbn. intros [= <-]. pose proof (bind_total_None _ _ _ Hb) as Hz.
        split; [|split; [cbn; lia | contradiction]].
        apply consistent_quiet; [reflexivity|].
        apply consistent_set_total; [exact Hc' | contradiction | auto]. }
    intros Hst.
    pose proof (consistent_bind file_size _ _ _ _ _ Hc' Hpt Hb) as Hcb.
    eapply on_packet_consistent in Hst; [|exact Hcb|].
    + destruct Hst as (H1 & H2 & H3). cbn in H2, H3.
      split; [exact H1|]. split; [exact H2|]. intros Hnz. rewrite H3.
      rewrite (bind_total_bound_nz file_size _ pt Hnz) in Hb. congruence.
    + exists data, t, inactive. split; [|assumption].
      apply elem_of_app. right. apply list_elem_of_singleton. reflexivity.
  - unfold on_timeout.
    destruct (high_rtt_mode st); destruct (Qgtb _ _); cbn;
      intros [= <-]; apply Hstay; reflexivity.
  - destruct (decide (w = Some 10054)) as [->|Hw].
    + rewrite on_error_reset. destruct (reset_completes st) as [[|]|]; cbn;
        try discriminate; intros [= <-]; apply Hstay; reflexivity.
    + rewrite (on_error_other _ _ Hw). cbn. intros [= <-].
      apply Hstay; reflexivity.
Qed.

Lemma init_consistent high : consistent [] (init high) [].
Proof.
  split; [split|]; cbn; try reflexivity; try lia.
  - intros k. rewrite lookup_empty. split.
    + intros Hk. apply not_elem_of_empty in Hk. contradiction.
    + intros [?|[? ?]]; [lia | discriminate].
  - intros k. rewrite lookup_empty. intros [? ?]. discriminate.
  - intros s c Hs. apply elem_of_nil in Hs. contradiction.
  - intros k c. rewrite lookup_empty. discriminate.
Qed.

Lemma run_consistent file_size evs : forall prefix st effs0 st' effs,
  consistent prefix st effs0 ->
  run file_size evs st = Some (st', effs) ->
  consistent (prefix ++ evs) st' (effs0 ++ effs)
  /\ expected_seq st <= expected_seq st'.
Proof.
  induction evs as [|[ev inactive] evs IH]; intros prefix st effs0 st' effs Hc Hr.
  - cbn in Hr. injection Hr as <- <-. rewrite !app_nil_r. split; [assumption | lia].
  - cbn [run] in Hr.
    destruct (stream_step file_size st ev inactive) as [st1 e1| | |] eqn:Hs;
      try discriminate.
    destruct (run file_size evs st1) as [[st2 e2]|] eqn:Hr2; try discriminate.
    cbn in Hr. injection Hr as <- <-.
    pose proof (stream_step_consistent file_size prefix st effs0 ev inactive st1 Hc)
      as Hstep.
    rewrite Hs in Hstep. cbn in Hstep. destruct (Hstep eq_refl) as (H1 & H2 & _).
    destruct (IH _ _ _ _ _ H1 Hr2) as [H3 H4].
    rewrite <- !app_assoc in H3. cbn in H3.
    split; [exact H3 | lia].
Qed.

(** *** Traffic of the session *)

Lemma bind_total_session_total file_size total :
  let E := expected_packets file_size in
  total = 0 \/ total = E -> 1 <= E < 2 ^ 32 ->
  bind_total file_size total E = Some E.
Proof.
  intros E Ht HE. unfold bind_total. fold E.
  destruct (Z.eqb_spec total 0) as [_|Hnz];
    [|destruct Ht; [contradiction | congruence]].
  rewrite of_int_small
    by (apply Z.lt_trans with (2 ^ 32); [lia | reflexivity]).
  rewrite Qgtb_float_half, Z.sub_diag.
  destruct (E <? 2 * Z.abs 0); [|reflexivity].
  destruct (_ && _); reflexivity.
Qed.

Lemma sanitize_total_session_total file_size :
  let E := expected_packets file_size in
  0 <= E -> sanitize_total file_size E = (if E >? 0 then Some E else None).
Proof.
  intros E HE. unfold sanitize_total, MAX_REASONABLE_PACKETS. fold E.
  destruct (Z.gtb_spec E 100000), (Z.eqb_spec E 0), (Z.gtb_spec E 0);
    cbn [orb]; try reflexivity; lia.
Qed.

(** Under the traffic of a session [total_packets] is 0 or [N]. *)
Lemma session_step_total file_size st ev inactive st' :
  let E := expected_packets file_size in
  (forall d, ev = Datagram d -> Spec.session_datagram file_size d) ->
  total_packets st = 0 \/ total_packets st = E ->
  state_of (stream_step file_size st ev inactive) = Some st' ->
  (total_packets st' = 0 \/ total_packets st' = E)
  /\ (forall e, stream_step file_size st ev inactive = Complete st' e ->
        total_packets st' = E /\ 1 <= E).
Proof.
  intros E Hev Ht.
  assert (Hsame : forall e, state_of (Continue st e) = Some st' ->
            (total_packets st' = 0 \/ total_packets st' = E)
            /\ (forall e', Continue st e = Complete st' e' ->
                  total_packets st' = E /\ 1 <= E)).
  { cbn. intros e [= <-]. split; [exact Ht | discriminate]. }
  destruct ev as [d| |w]; cbn [stream_step].
  - unfold on_datagram. destruct (decide (d = RTT_PROBE)) as [_|Hp].
    { cbn. intros [= <-]. split; [exact Ht | discriminate]. }
    destruct (decode_data d) as [[[seq t] chunk]|] eqn:Hd; [|apply Hsame].
    destruct (Hev d eq_refl) as [?|[Hnone|(seq' & chunk' & Hd' & _)]];
      [contradiction | congruence |].
    rewrite Hd in Hd'. injection Hd' as <- -> <-.
    destruct (decode_data_range _ _ _ _ Hd) as [_ HE]. fold E in HE.
    rewrite sanitize_total_session_total by (fold E; lia). fold E.
    destruct (Z.gtb_spec E 0); [|apply Hsame].
    rewrite bind_total_session_total by (fold E; lia).
    intros Hst. pose proof (on_packet_total _ _ _ _ _ Hst) as Htot.
    cbn in Htot. fold E in Htot. split; [auto|]. intros e _. lia.
  - unfold on_timeout.
    destruct (high_rtt_mode st); destruct (Qgtb _ _); cbn; try discriminate;
      intros [= <-]; (split; [exact Ht | discriminate]).
  - destruct (decide (w = Some 10054)) as [->|Hw];
      [|rewrite (on_error_other _ _ Hw); apply Hsame].
    rewrite on_error_reset. unfold reset_completes.
    destruct (Z.gtb_spec (total_packets st) 0) as [Hpos|?]; [|apply Hsame].
    destruct (Float.of_int (total_packets st)); [|discriminate].
    destruct (Qgtb _ _); [|apply Hsame].
    cbn. intros [= <-]. split; [exact Ht|]. intros e _. lia.
Qed.

Lemma run_session_total file_size evs : forall st st' effs,
  Spec.session_traffic file_size evs ->
  total_packets st = 0 \/ total_packets st = expected_packets file_size ->
  run file_size evs st = Some (st', effs) ->
  total_packets st' = 0 \/ total_packets st' = expected_packets file_size.
Proof.
  induction evs as [|[ev i] evs IH]; intros st st' effs Htr Ht; cbn [run].
  - intros [= <- <-]. exact Ht.
  - destruct (stream_step file_size st ev i) as [st1 e1| | |] eqn:Hs;
      try discriminate.
    destruct (run file_size evs st1) as [[st2 e2]|] eqn:Hr; try discriminate.
    cbn. intros [= <- <-].
    apply (IH st1 st2 e2); [| |exact Hr].
    + intros d j Hd. apply (Htr d j). apply elem_of_cons. auto.
    + apply (session_step_total file_size st ev i st1); [|exact Ht|].
      * intros d ->. apply (Htr d i). apply elem_of_cons. auto.
      * rewrite Hs. reflexivity.
Qed.

Lemma session_chunk_length file_size evs s c :
  Spec.session_traffic file_size evs ->
  arrived evs s c -> (length c <= 1024)%nat.
Proof.
  intros Htr (d & t & i & Hin & Hd).
  destruct (Htr d i Hin) as [->|[Hnone|(seq & chunk & Hd' & _ & Hlen)]].
  - injection Hd as _ _ <-. cbn. lia.
  - congruence.
  - rewrite Hd in Hd'. injection Hd' as _ _ <-. exact Hlen.
Qed.

Lemma concat_length_bound (l : list bytes) :
  Forall (fun c => (length c <= 1024)%nat) l ->
  (length (concat l) <= 1024 * length l)%nat.
Proof.
  induction 1 as [|c l Hc Hl IH]; cbn; [lia|]. rewrite length_app. lia.
Qed.

Lemma complete_writes_nothing file_size st ev inactive st' e :
  stream_step file_size st ev inactive = Complete st' e -> writes e = [].
Proof.
  destruct ev as [d| |w]; cbn [stream_step].
  - unfold on_datagram. destruct (decide (d = RTT_PROBE)); [discriminate|].
    destruct (decode_data d) as [[[seq t] chunk]|]; [|discriminate].
    destruct (sanitize_total file_size t) as [pt|]; [|discriminate].
    destruct (bind_total file_size (total_packets st) pt) as [T|];
      [|discriminate].
    unfold on_packet.
    destruct (_ && _).
    { destruct (encode_ack _); [|discriminate]. intros [= _ <-].
      apply writes_shots. }
    intros Hs. exfalso. revert Hs.
    repeat match goal with
           | |- (if ?b then _ else _) = _ -> _ => destruct b
           | |- (let '(_, _) := ?x in _) = _ -> _ => destruct x
           end; discriminate.
  - unfold on_timeout. destruct (high_rtt_mode st), (Qgtb _ _); discriminate.
  - destruct (decide (w = Some 10054)) as [->|Hw];
      [|rewrite (on_error_other _ _ Hw); discriminate].
    rewrite on_error_reset.
    destruct (reset_completes st) as [[|]|]; try discriminate.
    intros [= _ <-]. reflexivity.
Qed.

(** C5.  At every point of the data loop the chunks written so far are
    those of the sequence numbers [0 .. expected_seq - 1], each written
    once, in this order, each the chunk of a datagram that arrived with
    that sequence number, and the file is their concatenation;
    [expected_seq] never decreases and never exceeds [total_packets]; and
    it equals [total_packets] as soon as every sequence number below
    [total_packets] has been delivered.  On success [expected_seq] ends
    at [total_packets]: when the traffic is that of the session (every
    packet carries the total [N] of the file, a sequence number up to
    [N] and at most 1024 bytes), the digest of the header, if any, is
    that of a file of the announced size, the loop is left as complete
    and the verification of the file passes, then [expected_seq] is
    [total_packets], which is [N]. *)
Theorem receiver_writes_in_order (file_size : Z) (high : bool)
    (evs : list (recv_event * Q)) (st : rstate) (effs : list effect) :
  run file_size evs (init high) = Some (st, effs) ->
  (writes effs).*1 = seqZ 0 (expected_seq st)
  /\ NoDup (writes effs).*1
  /\ file_written effs = concat (writes effs).*2
  /\ (forall s c, (s, c) ∈ writes effs -> arrived evs s c)
  /\ 0 <= expected_seq st <= total_packets st
  /\ (forall ev inactive st',
        state_of (stream_step file_size st ev inactive) = Some st' ->
        expected_seq st <= expected_seq st')
  /\ ((forall s, 0 <= s < total_packets st -> s ∈ received_seq_nums st) ->
      expected_seq st = total_packets st)
  /\ (Spec.session_traffic file_size evs ->
      forall md5 file_md5 ev inactive st' e',
        Spec.digest_of_size md5 file_md5 file_size ->
        (forall d, ev = Datagram d -> Spec.session_datagram file_size d) ->
        stream_step file_size st ev inactive = Complete st' e' ->
        verify file_size md5 file_md5 (file_written (effs ++ e')) = true ->
        expected_seq st' = total_packets st'
        /\ total_packets st' = expected_packets file_size).
Proof.
  intros Hr.
  destruct (run_consistent file_size evs [] _ [] _ _ (init_consistent high) Hr)
    as [Hc _].
  cbn in Hc. destruct Hc as [Hc Hnone]. pose proof Hc as [H1 H2 H3 H4 H5 H6].
  split; [assumption|]. split; [rewrite H2; apply NoDup_seqZ|].
  split; [apply file_written_writes|].
  split; [assumption|]. split; [assumption|]. split; [|split].
  - intros ev inactive st' Hst.
    apply (stream_step_consistent file_size evs st effs ev inactive st'
             (conj Hc Hnone) Hst).
  - intros Hall.
    destruct (decide (expected_seq st = total_packets st)) as [|Hne];
      [assumption|].
    assert (Hin : expected_seq st ∈ received_seq_nums st) by (apply Hall; lia).
    apply H3 in Hin as [Hin|Hin]; [lia|].
    rewrite Hnone in Hin. destruct Hin; discriminate.
  - intros Htr md5 file_md5 ev inactive st' e' Hdg Hev Hstep Hv.
    assert (Hlen : Z.of_nat (length (file_written (effs ++ e'))) = file_size).
    { unfold verify in Hv. destruct file_md5 as [[|b dg]|].
      - apply Z.eqb_eq, Hv.
      - apply bool_decide_eq_true in Hv. apply (Hdg _ b dg eq_refl Hv).
      - apply Z.eqb_eq, Hv. }
    clear Hv Hdg.
    assert (Ht : total_packets st = 0
                 \/ total_packets st = expected_packets file_size).
    { apply (run_session_total file_size evs (init high) st effs Htr);
        [left; reflexivity | exact Hr]. }
    assert (Hst : state_of (stream_step file_size st ev inactive) = Some st')
      by (rewrite Hstep; reflexivity).
    destruct (session_step_total file_size st ev inactive st' Hev Ht Hst)
      as [_ Hcomp].
    destruct (Hcomp e' Hstep) as [Htot HE].
    destruct (stream_step_consistent file_size evs st effs ev inactive st'
                (conj Hc Hnone) Hst) as ([[Hb' Hw' _ _ _ _] _] & _ & _).
    split; [|exact Htot].
    rewrite Hstep in Hw'. cbn [effs_of] in Hw'.
    rewrite writes_app, (complete_writes_nothing _ _ _ _ _ _ Hstep),
      app_nil_r in Hw'.
    rewrite file_written_writes, writes_app,
      (complete_writes_nothing _ _ _ _ _ _ Hstep), app_nil_r in Hlen.
    assert (Hbound : (length (concat (writes effs).*2)
                      <= 1024 * length (writes effs).*2)%nat).
    { apply concat_length_bound. apply Forall_forall. intros c Hc2.
      apply list_elem_of_fmap in Hc2 as ([s c'] & -> & Hsc). cbn.
      apply (session_chunk_length file_size evs s c' Htr), H5, Hsc. }
    assert (Hcount : Z.of_nat (length (writes effs).*2) = expected_seq st').
    { rewrite length_fmap, <- (length_fmap fst), Hw', length_seqZ. lia. }
    apply Nat2Z.inj_le in Hbound.
    rewrite Nat2Z.inj_mul, Hcount, Hlen in Hbound.
    rewrite Htot in Hb' |- *. unfold expected_packets in Hb' |- *.
    clear - Hbound Hb'. revert Hbound Hb'.
    generalize (expected_seq st') as e. intros e Hbound Hb'.
    change (Z.of_nat 1024) with 1024 in Hbound.
    Z.div_mod_to_equations. lia.
Qed.

Lemma receiver_writes_in_order_witness :
  run 1026 (Scenario.feed Scenario.shuffled) (init false)
  = Some (Scenario.shuffled_run.1, Scenario.shuffled_run.2)
  /\ (writes Scenario.shuffled_run.2).*1 = [0; 1]
  /\ file_written Scenario.shuffled_run.2 = Scenario.two_chunk_file
  /\ (forall s c, (s, c) ∈ writes Scenario.shuffled_run.2 ->
        arrived (Scenario.feed Scenario.shuffled) s c)
  /\ stream_step 1026 Scenario.shuffled_run.1
       (Datagram (Scenario.data_packet 2 2 [])) 0
     = Complete Scenario.shuffled_end.1 Scenario.shuffled_end.2
  /\ expected_seq Scenario.shuffled_end.1 = 2
  /\ (expected_seq Scenario.shuffled_end.1
      = total_packets Scenario.shuffled_end.1
      /\ total_packets Scenario.shuffled_end.1 = expected_packets 1026).
Proof.
  assert (Hrun : run 1026 (Scenario.feed Scenario.shuffled) (init false)
                 = Some (Scenario.shuffled_run.1, Scenario.shuffled_run.2))
    by (vm_compute; reflexivity).
  assert (Hstep : stream_step 1026 Scenario.shuffled_run.1
                    (Datagram (Scenario.data_packet 2 2 [])) 0
                  = Complete Scenario.shuffled_end.1 Scenario.shuffled_end.2)
    by (vm_compute; reflexivity).
  assert (Hsession : forall d, d ∈ Scenario.shuffled ->
            Spec.session_datagram 1026 d).
  { intros d Hd. right. right. unfold Scenario.shuffled in Hd.
    apply elem_of_cons in Hd as [->|Hd];
      [|apply elem_of_cons in Hd as [->|Hd];
        [|apply elem_of_cons in Hd as [->|Hd];
          [|apply elem_of_nil in Hd; contradiction]]].
    - exists 1, [x62; x63]%byte.
      split; [reflexivity|]. split; [discriminate | cbn; lia].
    - exists 0, (repeat x61%byte 1024).
      split; [reflexivity|]. split; [discriminate | rewrite repeat_length; lia].
    - exists 1, [x62; x63]%byte.
      split; [reflexivity|]. split; [discriminate | cbn; lia]. }
  assert (Htr : Spec.session_traffic 1026 (Scenario.feed Scenario.shuffled)).
  { intros d i Hin. unfold Scenario.feed in Hin.
    apply list_elem_of_fmap in Hin as (d' & [= -> _] & Hd').
    apply Hsession, Hd'. }
  assert (Hev : forall d, Datagram (Scenario.data_packet 2 2 []) = Datagram d ->
                  Spec.session_datagram 1026 d).
  { intros d [= <-]. right. right. exists 2, [].
    split; [reflexivity|]. split; [discriminate | cbn; lia]. }
  assert (Hdg : Spec.digest_of_size (fun _ => []) None 1026)
    by (intros out b dg Hnone; discriminate Hnone).
  assert (Hlen : verify 1026 (fun _ => []) None
                   (file_written
                      (Scenario.shuffled_run.2 ++ Scenario.shuffled_end.2))
                 = true) by (vm_compute; reflexivity).
  pose proof (receiver_writes_in_order 1026 false
                (Scenario.feed Scenario.shuffled) _ _ Hrun) as H.
  split; [exact Hrun|].
  split; [vm_compute; reflexivity|].
  split; [vm_compute; reflexivity|].
  split; [exact (proj1 (proj2 (proj2 (proj2 H))))|].
  split; [exact Hstep|].
  split; [vm_compute; reflexivity|].
  exact (proj2 (proj2 (proj2 (proj2 (proj2 (proj2 (proj2 H))))))
           Htr (fun _ => []) None _ 0%Q _ _ Hdg Hev Hstep Hlen).
Defined.

(** The traffic of the session is needed for the last part: a peer
    that announces 3 packets for a file of 1025 bytes makes the loop end,
    with the size check passed, at [expected_seq = 2 < 3]. *)
Example early_marker_outside_session :
  receive_file 1025 (fun _ => []) None false
               (Scenario.feed Scenario.early_marker) = Some true
  /\ exists st effs,
       stream_loop 1025 (Scenario.feed Scenario.early_marker) (init false)
       = Some (Complete st effs)
       /\ expected_seq st = 2 /\ total_packets st = 3.
Proof.
  split; [vm_compute; reflexivity|].
  eexists _, _. split; [vm_compute; reflexivity|]. split; reflexivity.
Qed.

Lemma set_total_same st : set_total st (total_packets st) = st.
Proof. destruct st. reflexivity. Qed.

(** The receiver's handling of a duplicate. *)
Lemma duplicate_reack file_size evs st effs0 data seq t chunk pt :
  consistent evs st effs0 ->
  data <> RTT_PROBE ->
  decode_data data = Some (seq, t, chunk) ->
  sanitize_total file_size t = Some pt ->
  seq ∈ received_seq_nums st ->
  exists a,
    encode_ack seq = Some a /\ decode_ack a = Some seq
    /\ on_datagram file_size st data = Continue st [Sendto a].
Proof.
  intros [[H1 H2 H3 H4 H5 H6] H7] Hp Hd Hs Hin.
  destruct (decode_data_range _ _ _ _ Hd) as [Hseq Ht].
  pose proof (sanitize_total_pos _ _ _ Hs (proj1 Ht)) as Hpt.
  assert (Hlt : seq < total_packets st).
  { apply H3 in Hin as [?|Hin]; [lia | apply H4 in Hin; lia]. }
  exists [byte_of_Z (seq / 2 ^ 24); byte_of_Z (seq / 2 ^ 16);
          byte_of_Z (seq / 2 ^ 8); byte_of_Z seq].
  assert (He : encode_ack seq
               = Some [byte_of_Z (seq / 2 ^ 24); byte_of_Z (seq / 2 ^ 16);
                       byte_of_Z (seq / 2 ^ 8); byte_of_Z seq])
    by (apply pack_u32_Some, Hseq).
  split; [exact He|]. split; [apply unpack_pack_u32, He|].
  assert (Hb : bind_total file_size (total_packets st) pt
               = Some (total_packets st))
    by (apply bind_total_bound_nz; lia).
  rewrite (on_datagram_packet _ _ _ _ _ _ _ _ Hp Hd Hs Hb).
  rewrite set_total_same. unfold on_packet.
  destruct (Z.eqb_spec seq (total_packets st)); [lia|]. cbn [andb].
  destruct (Z.geb_spec seq (total_packets st)); [lia|].
  rewrite bool_decide_eq_true_2 by assumption.
  unfold send_ack. rewrite He. reflexivity.
Qed.

End ReceiverInvariant.

(** ** The sender: sliding window *)

Section SenderWindow.
Import Wire Sender.
Variable chunks : list bytes.
Variable start_time : Q.
Variable initial_rtt : Q.

Abbreviation N := (total_packets chunks).
Abbreviation win := (effective_window initial_rtt).

Lemma effective_window_ge : 32 <= win.
Proof.
  unfold effective_window.
  destruct (extreme_rtt_mode initial_rtt), (high_rtt_mode initial_rtt);
    vm_compute; discriminate.
Qed.

Lemma max_burst_ge remaining progress :
  8 <= max_burst initial_rtt remaining progress.
Proof.
  unfold max_burst.
  repeat match goal with
         | |- context [if ?b then _ else _] => destruct b
         end; lia.
Qed.

Lemma window_empty (st : sstate) :
  window_ok chunks st -> base_seq_num st = next_seq_num st -> window st = ∅.
Proof.
  intros [_ _ Hk _] Heq. apply map_empty. intros k.
  destruct (window st !! k) eqn:E; [|reflexivity].
  specialize (Hk k (mk_is_Some _ _ E)). lia.
Qed.

Lemma send_next_ok clock st st' e :
  window_ok chunks st ->
  next_seq_num st < N ->
  send_next chunks clock st = SentOk st' e ->
  window_ok chunks st'
  /\ base_seq_num st' = base_seq_num st
  /\ next_seq_num st' = next_seq_num st + 1
  /\ size (window st') = S (size (window st))
  /\ (forall k, is_Some (window st' !! k)
                <-> k = next_seq_num st \/ is_Some (window st !! k)).
Proof.
  intros [Hb Hn Hk Hf] Hlt. unfold send_next.
  destruct (chunks !! _) as [chunk|]; [|discriminate].
  destruct (encode_data _ _ _) as [pkt|]; [|discriminate].
  intros [= <- <-]. cbn.
  assert (Hfresh : window st !! next_seq_num st = None).
  { destruct (window st !! next_seq_num st) eqn:E; [|reflexivity].
    specialize (Hk _ (mk_is_Some _ _ E)). lia. }
  assert (Hkeys : forall k, is_Some (<[next_seq_num st := Entry pkt (clock (next_seq_num st)) 0]> (window st) !! k)
                           <-> k = next_seq_num st \/ is_Some (window st !! k)).
  { intros k. rewrite lookup_insert_is_Some'. intuition congruence. }
  split; [split; cbn|].
  - lia.
  - lia.
  - intros k [->|Hin]%Hkeys; [lia | specialize (Hk _ Hin); lia].
  - intros _. apply Hkeys.
    destruct (decide (base_seq_num st = next_seq_num st)) as [->|Hne];
      [left; reflexivity | right; apply Hf; lia].
  - split; [reflexivity|]. split; [reflexivity|].
    split; [apply map_size_insert_None, Hfresh | exact Hkeys].
Qed.

Lemma send_burst_ok clock b : forall st st' effs,
  window_ok chunks st ->
  send_burst chunks initial_rtt b clock st = Running st' effs ->
  window_ok chunks st'
  /\ base_seq_num st' = base_seq_num st
  /\ next_seq_num st <= next_seq_num st'
  /\ (next_seq_num st' < N ->
      win <= Z.of_nat (size (window st'))
      \/ (size (window st) + b <= size (window st'))%nat).
Proof.
  induction b as [|b IH]; intros st st' effs Hok.
  - cbn. intros [= <- <-].
    split; [assumption|]. split; [reflexivity|]. split; [lia|].
    intros _. right. lia.
  - cbn [send_burst].
    destruct (Z.ltb_spec (Z.of_nat (size (window st))) win) as [Hsz|Hsz];
      cbn [andb].
    + destruct (Z.ltb_spec (next_seq_num st) N) as [Hlt|Hge].
      * destruct (send_next chunks clock st) as [st1 e| |] eqn:Hs;
          [|discriminate..].
        destruct (send_next_ok _ _ _ _ Hok Hlt Hs) as (Hok1 & Hb1 & Hn1 & Hs1 & _).
        destruct (send_burst chunks initial_rtt b clock st1) as [st2 e2| |] eqn:Hb;
          cbn; try discriminate.
        intros [= <- <-].
        destruct (IH _ _ _ Hok1 Hb) as (Hok2 & Hb2 & Hn2 & Hfull).
        split; [assumption|]. split; [lia|]. split; [lia|].
        intros Hlt2. destruct (Hfull Hlt2); [left | right]; lia.
      * intros [= <- <-].
        split; [assumption|]. split; [reflexivity|]. split; lia.
    + intros [= <- <-].
      split; [assumption|]. split; [reflexivity|]. split; [lia|].
      intros _. left. lia.
Qed.

Lemma emit_running {S : Type} pre (r : step_result S) st effs :
  emit pre r = Running st effs ->
  exists e, r = Running st e /\ effs = pre ++ e.
Proof.
  destruct r as [st0 e| |]; cbn; try discriminate.
  intros [= <- <-]. eauto.
Qed.

Lemma advance_base_spec w fuel : forall base,
  base <= N -> N - base <= Z.of_nat fuel ->
  let b := advance_base chunks fuel w base in
  base <= b <= N
  /\ (b = N \/ is_Some (w !! b))
  /\ forall k, base <= k < b -> w !! k = None.
Proof.
  induction fuel as [|fuel IH]; intros base Hle Hfuel; cbn.
  - split; [lia|]. split; [left; lia | intros k Hk; lia].
  - destruct (Z.ltb_spec base N) as [Hlt|Hge]; cbn [andb].
    + destruct (bool_decide (is_Some (w !! base))) eqn:Hd; cbn [negb].
      * apply bool_decide_eq_true in Hd.
        split; [lia|]. split; [right; assumption | intros k Hk; lia].
      * apply bool_decide_eq_false in Hd.
        destruct (IH (base + 1)) as (H1 & H2 & H3); [lia | lia |].
        split; [lia|]. split; [assumption|].
        intros k Hk. destruct (decide (k = base)) as [->|Hne].
        -- destruct (w !! base) eqn:E; [|reflexivity].
           exfalso. apply Hd. eauto.
        -- apply H3. lia.
    + split; [lia|]. split; [left; lia | intros k Hk; lia].
Qed.

Lemma send_extra_ok clock n : forall st st' effs exn,
  window_ok chunks st ->
  send_extra chunks n clock st = (st', effs, exn) ->
  window_ok chunks st'
  /\ base_seq_num st' = base_seq_num st
  /\ next_seq_num st <= next_seq_num st'
  /\ (forall k, is_Some (window st !! k) -> is_Some (window st' !! k))
  /\ (forall k, is_Some (window st' !! k) ->
                is_Some (window st !! k) \/ next_seq_num st <= k).
Proof.
  induction n as [|n IH]; intros st st' effs exn Hok.
  - cbn. intros [= <- <- <-].
    split; [assumption|]. split; [reflexivity|]. split; [lia|]. split; auto.
  - cbn [send_extra].
    destruct (Z.ltb_spec (next_seq_num st) N) as [Hlt|Hge]; [|apply IH, Hok].
    destruct (send_next chunks clock st) as [st1 e| |] eqn:Hs.
    + destruct (send_next_ok _ _ _ _ Hok Hlt Hs) as (Hok1 & Hb1 & Hn1 & _ & Hk1).
      destruct (send_extra chunks n clock st1) as [[st2 e2] exn2] eqn:Hx.
      intros [= <- <- <-].
      destruct (IH _ _ _ _ Hok1 Hx) as (Hok2 & Hb2 & Hn2 & Hsub & Hsup).
      split; [assumption|]. split; [congruence|]. split; [lia|]. split.
      * intros k Hk. apply Hsub, Hk1. right. assumption.
      * intros k Hk. apply Hsup in Hk as [Hk|Hk]; [|right; lia].
        apply Hk1 in Hk as [->|Hk]; [right; lia | left; assumption].
    + intros [= <- <- <-].
      split; [assumption|]. split; [reflexivity|]. split; [lia|]. split; auto.
    + intros [= <- <- <-].
      split; [assumption|]. split; [reflexivity|]. split; [lia|]. split; auto.
Qed.

Lemma retransmit_ok now progress keys : forall st st' effs,
  retransmit start_time initial_rtt keys now progress st = Running st' effs ->
  base_seq_num st' = base_seq_num st
  /\ next_seq_num st' = next_seq_num st
  /\ forall k, is_Some (window st' !! k) <-> is_Some (window st !! k).
Proof.
  induction keys as [|k ks IH]; intros st st' effs.
  - cbn. intros [= <- <-]. repeat split; auto.
  - cbn [retransmit]. destruct (window st !! k) as [e|] eqn:Hk; [|discriminate].
    destruct (Qgtb _ _); [|apply IH].
    destruct (retries e >=? MAX_RETRIES); [discriminate|].
    intros (e' & Hr & _)%emit_running.
    apply IH in Hr as (Hb & Hn & Hkeys). cbn in Hb, Hn, Hkeys.
    split; [assumption|]. split; [assumption|].
    intros j. rewrite Hkeys, lookup_insert_is_Some'.
    split; [intros [<-|?]; [rewrite Hk; eauto | assumption] | auto].
Qed.

Lemma window_ok_same st st' :
  base_seq_num st' = base_seq_num st ->
  next_seq_num st' = next_seq_num st ->
  (forall k, is_Some (window st' !! k) <-> is_Some (window st !! k)) ->
  window_ok chunks st -> window_ok chunks st'.
Proof.
  intros Hb Hn Hk [H1 H2 H3 H4]. split; rewrite ?Hb, ?Hn.
  - assumption.
  - assumption.
  - intros k Hin. apply H3, Hk, Hin.
  - intros Hlt. apply Hk, H4, Hlt.
Qed.

Lemma handle_ack_ok clock remaining ack st st' effs :
  window_ok chunks st ->
  is_Some (window st !! base_seq_num st) ->
  (next_seq_num st < N -> (2 <= size (window st))%nat) ->
  handle_ack chunks initial_rtt clock remaining ack st = Running st' effs ->
  window_ok chunks st'
  /\ base_seq_num st <= base_seq_num st'
  /\ (base_seq_num st' = N \/ is_Some (window st' !! base_seq_num st'))
  /\ (forall s, decode_ack ack = Some s -> window st' !! s = None).
Proof.
  intros Hok Hfirst Hsize. unfold handle_ack.
  destruct (decode_ack ack) as [a|] eqn:Hdec.
  2: { intros [= <- <-]. split; [assumption|]. split; [lia|].
       split; [right; assumption | discriminate]. }
  destruct (bool_decide (is_Some (window st !! a))) eqn:Hin.
  2: { apply bool_decide_eq_false in Hin. intros [= <- <-].
       split; [assumption|]. split; [lia|]. split; [right; assumption|].
       intros s [= <-]. destruct (window st !! a) eqn:E; [|reflexivity].
       exfalso. apply Hin. eauto. }
  apply bool_decide_eq_true in Hin.
  pose proof Hok as [Hb Hn Hk Hf].
  destruct (advance_base_spec (delete a (window st))
              (Z.to_nat (N - base_seq_num st)) (base_seq_num st))
    as (Hb1 & Hb2 & Hb3); [lia | lia |].
  set (b := advance_base chunks (Z.to_nat (N - base_seq_num st))
                         (delete a (window st)) (base_seq_num st)) in *.
  set (st1 := {| window := delete a (window st);
                 next_seq_num := next_seq_num st; base_seq_num := b |}).
  assert (Hnext : b = N -> next_seq_num st = N).
  { intros HbN. destruct (decide (next_seq_num st = N)) as [|Hne]; [assumption|].
    exfalso. assert (Hlt : next_seq_num st < N) by lia.
    specialize (Hsize Hlt).
    assert (Hne0 : size (delete a (window st)) <> 0%nat).
    { rewrite map_size_delete_Some by assumption. lia. }
    apply map_size_ne_0_lookup in Hne0 as [k Hk1].
    pose proof Hk1 as [_ Hk2]%lookup_delete_is_Some.
    specialize (Hk _ Hk2). rewrite Hb3 in Hk1 by lia.
    destruct Hk1; discriminate. }
  assert (Hok1 : window_ok chunks st1).
  { split; cbn.
    - destruct Hb2 as [HbN|Hs]; [rewrite (Hnext HbN); lia|].
      apply lookup_delete_is_Some in Hs as [_ Hs]. specialize (Hk _ Hs). lia.
    - assumption.
    - intros k Hk1. pose proof Hk1 as [_ Hk2]%lookup_delete_is_Some.
      specialize (Hk _ Hk2). split; [|lia].
      destruct (Z.lt_ge_cases k b) as [Hlt|]; [|assumption].
      rewrite Hb3 in Hk1 by lia. destruct Hk1; discriminate.
    - intros Hlt. destruct Hb2 as [HbN|Hs]; [lia | assumption]. }
  assert (Hx : forall (c : bool) n st2 e2 exn,
             (if c then send_extra chunks n clock st1 else (st1, [], None))
             = (st2, e2, exn) ->
             window_ok chunks st2
             /\ base_seq_num st2 = b
             /\ (forall k, is_Some (window st1 !! k) -> is_Some (window st2 !! k))
             /\ (forall k, is_Some (window st2 !! k) ->
                           is_Some (window st1 !! k) \/ next_seq_num st <= k)).
  { intros [|] n st2 e2 exn.
    - intros Hx. destruct (send_extra_ok clock n _ _ _ _ Hok1 Hx)
        as (H1 & H2 & _ & H3 & H4). auto.
    - intros [= <- <- <-]. auto. }
  fold st1.
  destruct (if Qltb remaining 40 && _ then send_extra _ _ _ _ else _)
    as [[st2 e2] exn] eqn:Hextra.
  apply Hx in Hextra as (Hok2 & Hbase2 & Hsub & Hsup).
  assert (Hgoal : window_ok chunks st2
                  /\ base_seq_num st <= base_seq_num st2
                  /\ (base_seq_num st2 = N
                      \/ is_Some (window st2 !! base_seq_num st2))
                  /\ (forall s, Some a = Some s -> window st2 !! s = None)).
  { split; [assumption|]. split; [lia|]. split.
    - rewrite Hbase2. destruct Hb2 as [|Hs]; [left; assumption|].
      right. apply Hsub. assumption.
    - intros s [= <-].
      destruct (window st2 !! a) eqn:E; [|reflexivity]. exfalso.
      destruct (Hsup a (mk_is_Some _ _ E)) as [Hs|Hs].
      + cbn in Hs. rewrite lookup_delete_eq in Hs. destruct Hs; discriminate.
      + specialize (Hk _ Hin). lia. }
  destruct exn as [[| |]|].
  - discriminate.
  - discriminate.
  - intros [= <- <-]. exact Hgoal.
  - destruct (_ =? 0); [discriminate|]. intros [= <- <-]. exact Hgoal.
Qed.

Lemma init_ok : window_ok chunks init.
Proof.
  split; cbn; try lia.
  - unfold total_packets. lia.
  - intros k. rewrite lookup_empty. intros [? ?]. discriminate.
Qed.

(** After the burst something is in flight, [base_seq_num] included,
    and at least two packets while chunks remain unsent. *)
Lemma burst_ready tk st st1 e1 :
  window_ok chunks st ->
  base_seq_num st < N ->
  after_burst chunks start_time initial_rtt tk st = Running st1 e1 ->
  window_ok chunks st1
  /\ base_seq_num st1 = base_seq_num st
  /\ is_Some (window st1 !! base_seq_num st1)
  /\ (next_seq_num st1 < N -> (2 <= size (window st1))%nat).
Proof.
  intros Hok Hlt. unfold after_burst. intros Hb.
  apply send_burst_ok in Hb as (Hok1 & Hb1 & Hn1 & Hfull); [|assumption].
  pose proof (max_burst_ge
                (remaining_time_percent start_time (now_top tk))
                (actual_progress_percent chunks (base_seq_num st))) as Hmb.
  pose proof effective_window_ge as Hwin.
  assert (Hfull' : next_seq_num st1 < N -> (2 <= size (window st1))%nat).
  { intros Hlt1. destruct (Hfull Hlt1); lia. }
  split; [assumption|]. split; [assumption|]. split; [|assumption].
  apply (wok_first _ _ Hok1).
  destruct (decide (base_seq_num st1 = next_seq_num st1)) as [Heq|Hne].
  - exfalso. pose proof (window_empty _ Hok1 Heq) as Hem.
    assert (Hlt1 : next_seq_num st1 < N) by lia.
    specialize (Hfull' Hlt1). rewrite Hem, map_size_empty in Hfull'. lia.
  - destruct Hok1 as [? _ _ _]. lia.
Qed.

Lemma iteration_ok tk st st' effs :
  window_ok chunks st ->
  base_seq_num st < N ->
  iteration chunks start_time initial_rtt tk st = Running st' effs ->
  window_ok chunks st'
  /\ base_seq_num st <= base_seq_num st'
  /\ (base_seq_num st' = N \/ is_Some (window st' !! base_seq_num st')).
Proof.
  intros Hok Hlt. unfold iteration.
  destruct (Qgtb _ _); [discriminate|].
  destruct (after_burst chunks start_time initial_rtt tk st)
    as [st1 e1| |] eqn:Hb; try discriminate.
  destruct (burst_ready _ _ _ _ Hok Hlt Hb) as (Hok1 & Hb1 & Hf1 & Hs1).
  intros (e & Hev & _)%emit_running. unfold on_event in Hev.
  destruct (recv tk) as [ack| |w]; [| |discriminate].
  - apply handle_ack_ok in Hev as (H1 & H2 & H3 & _); try assumption.
    split; [assumption|]. split; [lia | assumption].
  - apply retransmit_ok in Hev as (H1 & H2 & H3).
    split; [apply (window_ok_same st1); assumption|].
    split; [lia|]. right. rewrite H1. apply H3. assumption.
Qed.

Lemma reachable_ok st :
  reachable chunks start_time initial_rtt st -> window_ok chunks st.
Proof.
  induction 1 as [|st tk st' effs _ IH Hlt Hit]; [apply init_ok|].
  apply (iteration_ok _ _ _ _ IH Hlt Hit).
Qed.

End SenderWindow.

(** C2.  In every state that the streaming loop reaches,
    [base <= next <= N] and the window holds only sequence numbers in
    [base, next); and every pass of the loop, whatever arrives (an ACK in
    or out of the window, a malformed datagram, a timeout), leaves a state
    where again [base <= next <= N], where [base] has not decreased, and
    where [base] is the smallest sequence number still in the window, or
    [N] when the window is empty: so [base] never overtakes [next].  The
    same bounds hold in between, when the pass has sent its burst and
    waits for the socket. *)
Theorem sender_window_invariant (chunks : list bytes) (start_time initial_rtt : Q)
    (st : Sender.sstate) :
  Sender.reachable chunks start_time initial_rtt st ->
  let N := Sender.total_packets chunks in
  (0 <= Sender.base_seq_num st <= Sender.next_seq_num st
   /\ Sender.next_seq_num st <= N)
  /\ (forall k, is_Some (Sender.window st !! k) ->
                Sender.base_seq_num st <= k < Sender.next_seq_num st)
  /\ (forall tk st' effs,
       Sender.base_seq_num st < N ->
       Sender.iteration chunks start_time initial_rtt tk st = Running st' effs ->
       Sender.base_seq_num st <= Sender.base_seq_num st'
       /\ Sender.base_seq_num st' <= Sender.next_seq_num st'
       /\ Sender.next_seq_num st' <= N
       /\ (Sender.base_seq_num st' = N
           \/ (is_Some (Sender.window st' !! Sender.base_seq_num st')
               /\ forall k, is_Some (Sender.window st' !! k) ->
                            Sender.base_seq_num st' <= k)))
  /\ forall tk st1 e1,
       Sender.base_seq_num st < N ->
       Sender.after_burst chunks start_time initial_rtt tk st = Running st1 e1 ->
       Sender.base_seq_num st1 = Sender.base_seq_num st
       /\ Sender.base_seq_num st1 < Sender.next_seq_num st1
       /\ Sender.next_seq_num st1 <= N.
Proof.
  intros Hr N.
  pose proof (reachable_ok _ _ _ _ Hr) as Hok. pose proof Hok as [H1 H2 H3 H4].
  split; [split; assumption|]. split; [assumption|].
  split.
  2: { intros tk st1 e1 Hlt Hb.
       destruct (burst_ready _ _ _ _ _ _ _ Hok Hlt Hb) as ([_ Hn1 Hk1 _] & Hb1 & Hf1 & _).
       split; [assumption|]. split; [|assumption].
       apply Hk1 in Hf1. lia. }
  intros tk st' effs Hlt Hit.
  destruct (iteration_ok _ _ _ _ _ _ _ Hok Hlt Hit) as (Hok' & Hle & Hset).
  destruct Hok' as [H1' H2' H3' H4'].
  split; [assumption|]. split; [lia|]. split; [assumption|].
  destruct Hset as [|Hs]; [left; assumption|].
  right. split; [assumption|]. intros k Hk. apply H3' in Hk. lia.
Qed.

(** A file of fewer than 20 chunks: the first ACK that removes a window
    entry reaches [base_seq_num % (total_packets // 20)] with a zero
    divisor, and the exception leaves [send_file]. *)
Example small_file_first_ack_raises :
  Sender.iteration (Scenario.small_chunks 5) 0 0 (Scenario.ack_tick 1 0)
                   Sender.init
  = Raised (map (fun i => Sendto (Scenario.data_packet i 5 [x61%byte]))
                (seqZ 0 5)).
Proof. vm_compute. reflexivity. Qed.

(** A file of 40 chunks whose ACKs come back in order, one per pass: the
    loop is left with everything acknowledged and 40 packets sent. *)
Example forty_chunks_acked :
  exists st effs,
    Sender.streaming (Scenario.small_chunks 40) 0 0
                     (map (Scenario.ack_tick 1) (seqZ 0 40)) Sender.init
    = Some (Running st effs)
    /\ Sender.base_seq_num st = 40 /\ Sender.next_seq_num st = 40
    /\ Sender.window st = ∅ /\ length (sent effs) = 40%nat.
Proof.
  eexists _, _. split; [vm_compute; reflexivity|].
  repeat split.
Qed.

Lemma sender_window_invariant_witness :
  exists st effs,
    Sender.iteration (Scenario.small_chunks 40) 0 0 (Scenario.ack_tick 1 0)
                     Sender.init = Running st effs
    /\ Sender.base_seq_num st = 1 /\ Sender.next_seq_num st = 8
    /\ (0 <= Sender.base_seq_num st <= Sender.next_seq_num st
        /\ Sender.next_seq_num st <= 40)
    /\ (forall k, is_Some (Sender.window st !! k) ->
                  Sender.base_seq_num st <= k < Sender.next_seq_num st).
Proof.
  eexists _, _. split; [vm_compute; reflexivity|].
  split; [reflexivity|]. split; [reflexivity|].
  assert (Hr : Sender.reachable (Scenario.small_chunks 40) 0 0
                 (Sender.SState
                    (delete 0 (list_to_map
                       (map (fun i => (i, Sender.Entry
                                            (Scenario.data_packet i 40 [x61%byte]) 1 0))
                            (seqZ 0 8))))
                    8 1)).
  { eapply (Sender.reach_pass _ _ _ Sender.init (Scenario.ack_tick 1 0));
      [apply Sender.reach_init | reflexivity | vm_compute; reflexivity]. }
  destruct (sender_window_invariant _ _ _ _ Hr) as (H1 & H2 & _ & _).
  split; [exact H1 | exact H2].
Defined.

(** ** Duplicates *)

Section Duplicates.
Import Wire.

(** *** Sequence numbers enter the window once *)

Lemma send_next_keys chunks clock st st' e :
  Sender.send_next chunks clock st = Sender.SentOk st' e ->
  Sender.next_seq_num st <= Sender.next_seq_num st'
  /\ forall k, is_Some (Sender.window st' !! k) ->
       is_Some (Sender.window st !! k) \/ Sender.next_seq_num st <= k.
Proof.
  unfold Sender.send_next.
  destruct (chunks !! _) as [chunk|]; [|discriminate].
  destruct (encode_data _ _ _) as [pkt|]; [|discriminate].
  intros [= <- <-]. cbn. split; [lia|].
  intros k [<- | Hk]%lookup_insert_is_Some'; [right; lia | left; exact Hk].
Qed.

Lemma keys_trans (a b c : Sender.sstate) :
  (Sender.next_seq_num a <= Sender.next_seq_num b
   /\ forall k, is_Some (Sender.window b !! k) ->
        is_Some (Sender.window a !! k) \/ Sender.next_seq_num a <= k) ->
  (Sender.next_seq_num b <= Sender.next_seq_num c
   /\ forall k, is_Some (Sender.window c !! k) ->
        is_Some (Sender.window b !! k) \/ Sender.next_seq_num b <= k) ->
  Sender.next_seq_num a <= Sender.next_seq_num c
  /\ forall k, is_Some (Sender.window c !! k) ->
       is_Some (Sender.window a !! k) \/ Sender.next_seq_num a <= k.
Proof.
  intros [Hab Kab] [Hbc Kbc]. split; [lia|].
  intros k Hk. destruct (Kbc k Hk) as [Hb|Hb]; [|right; lia].
  destruct (Kab k Hb); [left; assumption | right; assumption].
Qed.

Lemma keys_refl (a : Sender.sstate) :
  Sender.next_seq_num a <= Sender.next_seq_num a
  /\ forall k, is_Some (Sender.window a !! k) ->
       is_Some (Sender.window a !! k) \/ Sender.next_seq_num a <= k.
Proof. split; [lia | auto]. Qed.

Lemma send_extra_keys chunks clock n : forall st st' effs exn,
  Sender.send_extra chunks n clock st = (st', effs, exn) ->
  Sender.next_seq_num st <= Sender.next_seq_num st'
  /\ forall k, is_Some (Sender.window st' !! k) ->
       is_Some (Sender.window st !! k) \/ Sender.next_seq_num st <= k.
Proof.
  induction n as [|n IH]; intros st st' effs exn.
  - cbn. intros [= <- <- <-]. apply keys_refl.
  - cbn [Sender.send_extra].
    destruct (Sender.next_seq_num st <? Sender.total_packets chunks);
      [|apply IH].
    destruct (Sender.send_next chunks clock st) as [st1 e| |] eqn:Hs.
    + destruct (Sender.send_extra chunks n clock st1) as [[st2 e2] exn2] eqn:Hx.
      intros [= <- <- <-].
      apply (keys_trans st st1 st2);
        [apply (send_next_keys _ _ _ _ _ Hs) | apply (IH _ _ _ _ Hx)].
    + intros [= <- <- <-]. apply keys_refl.
    + intros [= <- <- <-]. apply keys_refl.
Qed.

Lemma send_burst_keys chunks initial_rtt clock b : forall st st' effs,
  Sender.send_burst chunks initial_rtt b clock st = Running st' effs ->
  Sender.next_seq_num st <= Sender.next_seq_num st'
  /\ forall k, is_Some (Sender.window st' !! k) ->
       is_Some (Sender.window st !! k) \/ Sender.next_seq_num st <= k.
Proof.
  induction b as [|b IH]; intros st st' effs.
  - cbn. intros [= <- <-]. apply keys_refl.
  - cbn [Sender.send_burst].
    destruct (_ && _); [|intros [= <- <-]; apply keys_refl].
    destruct (Sender.send_next chunks clock st) as [st1 e| |] eqn:Hs;
      [|discriminate..].
    intros (e' & Hb & _)%emit_running.
    apply (keys_trans st st1 st');
      [apply (send_next_keys _ _ _ _ _ Hs) | apply (IH _ _ _ Hb)].
Qed.

Lemma handle_ack_keys chunks initial_rtt clock remaining ack st st' effs :
  Sender.handle_ack chunks initial_rtt clock remaining ack st
  = Running st' effs ->
  Sender.next_seq_num st <= Sender.next_seq_num st'
  /\ forall k, is_Some (Sender.window st' !! k) ->
       is_Some (Sender.window st !! k) \/ Sender.next_seq_num st <= k.
Proof.
  unfold Sender.handle_ack.
  destruct (decode_ack ack) as [a|]; [|intros [= <- <-]; apply keys_refl].
  destruct (bool_decide _); [|intros [= <- <-]; apply keys_refl].
  set (st1 := {| Sender.window := delete a (Sender.window st);
                 Sender.next_seq_num := Sender.next_seq_num st;
                 Sender.base_seq_num := _ |}).
  assert (H1 : Sender.next_seq_num st <= Sender.next_seq_num st1
               /\ forall k, is_Some (Sender.window st1 !! k) ->
                    is_Some (Sender.window st !! k)
                    \/ Sender.next_seq_num st <= k).
  { split; [cbn; lia|]. cbn. intros k [_ Hk]%lookup_delete_is_Some. auto. }
  destruct (if Qltb remaining 40 && _ then Sender.send_extra _ _ _ _ else _)
    as [[st2 e2] exn] eqn:Hextra.
  assert (H2 : Sender.next_seq_num st1 <= Sender.next_seq_num st2
               /\ forall k, is_Some (Sender.window st2 !! k) ->
                    is_Some (Sender.window st1 !! k)
                    \/ Sender.next_seq_num st1 <= k).
  { destruct (Qltb remaining 40 && _).
    - apply (send_extra_keys _ _ _ _ _ _ _ Hextra).
    - injection Hextra as <- _ _. apply keys_refl. }
  pose proof (keys_trans _ _ _ H1 H2) as H3.
  destruct exn as [[| |]|]; try discriminate.
  - intros [= <- <-]. exact H3.
  - destruct (_ =? 0); [discriminate|]. intros [= <- <-]. exact H3.
Qed.

Lemma iteration_keys chunks start_time initial_rtt tk st st' effs :
  Sender.iteration chunks start_time initial_rtt tk st = Running st' effs ->
  Sender.next_seq_num st <= Sender.next_seq_num st'
  /\ forall k, is_Some (Sender.window st' !! k) ->
       is_Some (Sender.window st !! k) \/ Sender.next_seq_num st <= k.
Proof.
  unfold Sender.iteration. destruct (Qgtb _ _); [discriminate|].
  destruct (Sender.after_burst chunks start_time initial_rtt tk st)
    as [st1 e1| |] eqn:Hb; try discriminate.
  intros (e & Hev & _)%emit_running.
  apply (keys_trans st st1 st'); [apply (send_burst_keys _ _ _ _ _ _ _ Hb)|].
  unfold Sender.on_event in Hev.
  destruct (Sender.recv tk) as [ack| |w]; [| |discriminate].
  - apply (handle_ack_keys _ _ _ _ _ _ _ _ Hev).
  - apply retransmit_ok in Hev as (_ & Hn & Hk).
    split; [lia|]. intros k Hin. left. apply Hk, Hin.
Qed.

Lemma later_reachable chunks start_time initial_rtt st st' :
  Sender.later chunks start_time initial_rtt st st' ->
  Sender.reachable chunks start_time initial_rtt st ->
  Sender.reachable chunks start_time initial_rtt st'
  /\ Sender.base_seq_num st <= Sender.base_seq_num st'
  /\ (Sender.next_seq_num st <= Sender.next_seq_num st'
      /\ forall k, is_Some (Sender.window st' !! k) ->
           is_Some (Sender.window st !! k) \/ Sender.next_seq_num st <= k).
Proof.
  induction 1 as [st|st st1 tk st2 effs _ IH Hlt Hit]; intros Hr.
  - split; [exact Hr|]. split; [lia | apply keys_refl].
  - destruct (IH Hr) as (Hr1 & Hb1 & Hk1).
    split; [apply (Sender.reach_pass _ _ _ _ _ _ _ Hr1 Hlt Hit)|].
    destruct (iteration_ok _ _ _ _ _ _ _ (reachable_ok _ _ _ _ Hr1) Hlt Hit)
      as (_ & Hb2 & _).
    split; [lia|].
    apply (keys_trans st st1 st2 Hk1 (iteration_keys _ _ _ _ _ _ _ Hit)).
Qed.

Lemma gone_stays (a b : Sender.sstate) (s : Z) :
  (Sender.next_seq_num a <= Sender.next_seq_num b
   /\ forall k, is_Some (Sender.window b !! k) ->
        is_Some (Sender.window a !! k) \/ Sender.next_seq_num a <= k) ->
  s < Sender.next_seq_num a -> Sender.window a !! s = None ->
  Sender.window b !! s = None.
Proof.
  intros [_ Hk] Hs Hnone.
  destruct (Sender.window b !! s) eqn:E; [|reflexivity]. exfalso.
  destruct (Hk s (mk_is_Some _ _ E)) as [Hin|Hge]; [|lia].
  rewrite Hnone in Hin. destruct Hin; discriminate.
Qed.

(** C8.  Receiver: in every state of the data loop, a data packet
    whose sequence number is already delivered, and which the total sanity
    check that comes before the duplicate test lets through, is answered
    by one ACK for that sequence number, with no write and no change of
    [expected_seq], of the delivered set, of the buffer or of
    [total_packets].  Sender: when a pass of the loop has processed the
    ACK of a sequence number [s] that has been sent, then in every later
    pass, after whatever the loop has sent and received since and after
    the burst of that pass, [s] is not in the window and processing the
    same ACK again changes nothing and sends nothing; and [base] has not
    decreased. *)
Theorem duplicates_idempotent :
  (forall file_size high evs st effs0 data seq t chunk pt inactive,
      Receiver.run file_size evs (Receiver.init high) = Some (st, effs0) ->
      data <> RTT_PROBE ->
      decode_data data = Some (seq, t, chunk) ->
      Receiver.sanitize_total file_size t = Some pt ->
      seq ∈ Receiver.received_seq_nums st ->
      exists a,
        encode_ack seq = Some a /\ decode_ack a = Some seq
        /\ Receiver.stream_step file_size st (Datagram data) inactive
           = Receiver.Continue st [Sendto a])
  /\ (forall chunks start_time initial_rtt st tk st1 e1 ack s,
        Sender.reachable chunks start_time initial_rtt st ->
        Sender.base_seq_num st < Sender.total_packets chunks ->
        Sender.iteration chunks start_time initial_rtt tk st = Running st1 e1 ->
        Sender.recv tk = Datagram ack ->
        decode_ack ack = Some s ->
        s < Sender.next_seq_num st1 ->
        forall st2,
          Sender.later chunks start_time initial_rtt st1 st2 ->
          Sender.base_seq_num st <= Sender.base_seq_num st1
          /\ Sender.base_seq_num st1 <= Sender.base_seq_num st2
          /\ Sender.window st2 !! s = None
          /\ forall tk' st3 e3,
               Sender.base_seq_num st2 < Sender.total_packets chunks ->
               Sender.recv tk' = Datagram ack ->
               Sender.after_burst chunks start_time initial_rtt tk' st2
               = Running st3 e3 ->
               Sender.window st3 !! s = None
               /\ Sender.on_event chunks start_time initial_rtt tk' st2 st3
                  = Running st3 []
               /\ Sender.iteration chunks start_time initial_rtt tk' st2
                  = (if Qgtb (Sender.now_top tk' - start_time)%Q
                             MAX_TRANSFER_TIME
                     then Returned false [] else Running st3 (e3 ++ []))).
Proof.
  split.
  - intros file_size high evs st effs0 data seq t chunk pt inactive
           Hr Hp Hd Hs Hin.
    destruct (run_consistent file_size evs [] _ [] _ _
                (init_consistent high) Hr) as [Hc _].
    exact (duplicate_reack file_size _ _ _ _ _ _ _ _ Hc Hp Hd Hs Hin).
  - intros chunks start_time initial_rtt st tk st1 e1 ack s
           Hr Hlt Hit Hrecv Hdec Hs st2 Hl.
    pose proof (reachable_ok _ _ _ _ Hr) as Hok.
    assert (Hgone1 : Sender.window st1 !! s = None).
    { revert Hit. unfold Sender.iteration.
      destruct (Qgtb _ _); [discriminate|].
      destruct (Sender.after_burst chunks start_time initial_rtt tk st)
        as [stb eb| |] eqn:Hb; try discriminate.
      destruct (burst_ready _ _ _ _ _ _ _ Hok Hlt Hb)
        as (Hokb & _ & Hfirst & Hsize).
      intros (e & Hev & _)%emit_running. unfold Sender.on_event in Hev.
      rewrite Hrecv in Hev.
      destruct (handle_ack_ok _ _ _ _ _ _ _ _ Hokb Hfirst Hsize Hev)
        as (_ & _ & _ & Hgone).
      apply (Hgone s Hdec). }
    destruct (iteration_ok _ _ _ _ _ _ _ Hok Hlt Hit) as (_ & Hle1 & _).
    assert (Hr1 : Sender.reachable chunks start_time initial_rtt st1)
      by (apply (Sender.reach_pass _ _ _ _ _ _ _ Hr Hlt Hit)).
    destruct (later_reachable _ _ _ _ _ Hl Hr1) as (Hr2 & Hle2 & Hk2).
    pose proof (gone_stays _ _ s Hk2 Hs Hgone1) as Hgone2.
    split; [exact Hle1|]. split; [exact Hle2|]. split; [exact Hgone2|].
    intros tk' st3 e3 Hlt2 Hrecv' Hb3.
    pose proof (send_burst_keys _ _ _ _ _ _ _ Hb3) as Hk3.
    assert (Hgone3 : Sender.window st3 !! s = None).
    { apply (gone_stays st2 st3 s Hk3); [lia | exact Hgone2]. }
    assert (Hev : Sender.on_event chunks start_time initial_rtt tk' st2 st3
                  = Running st3 []).
    { unfold Sender.on_event. rewrite Hrecv'. unfold Sender.handle_ack.
      rewrite Hdec, Hgone3.
      rewrite bool_decide_eq_false_2; [reflexivity|].
      intros [? ?]. discriminate. }
    split; [exact Hgone3|]. split; [exact Hev|].
    unfold Sender.iteration. destruct (Qgtb _ _); [reflexivity|].
    rewrite Hb3, Hev. reflexivity.
Qed.

Lemma duplicates_idempotent_witness :
  (exists a,
      encode_ack 2 = Some a /\ decode_ack a = Some 2
      /\ Receiver.stream_step 3072
           (Receiver.RState false 3 0 {[2]} {[2 := [x63%byte]]})
           (Datagram (Scenario.data_packet 2 3 [x63%byte])) 0
         = Receiver.Continue
             (Receiver.RState false 3 0 {[2]} {[2 := [x63%byte]]}) [Sendto a])
  /\ (Sender.next_seq_num Scenario.after_ack_three = 8
      /\ Sender.next_seq_num Scenario.after_ack_three_again = 16
      /\ Sender.next_seq_num Scenario.third_burst = 24
      /\ Sender.window Scenario.third_burst !! 3 = None
      /\ Sender.on_event (Scenario.small_chunks 40) 0 0 (Scenario.ack_tick 3 3)
           Scenario.after_ack_three_again Scenario.third_burst
         = Running Scenario.third_burst []).
Proof.
  destruct duplicates_idempotent as [Hrecv Hsend]. split.
  - assert (Hr : Receiver.run 3072
                   (Scenario.feed [Scenario.data_packet 2 3 [x63%byte]])
                   (Receiver.init false)
                 = Some (Receiver.RState false 3 0 {[2]} {[2 := [x63%byte]]},
                         [Sendto (Scenario.ack_packet 2)]))
      by (vm_compute; reflexivity).
    apply (Hrecv 3072 false _ _ _ (Scenario.data_packet 2 3 [x63%byte])
                 2 3 [x63%byte] 3 0%Q Hr);
      [discriminate | reflexivity | reflexivity |].
    change (2 ∈ ({[2]} : gset Z)). apply elem_of_singleton. reflexivity.
  - assert (Hit1 : exists e1,
              Sender.iteration (Scenario.small_chunks 40) 0 0
                (Scenario.ack_tick 1 3) Sender.init
              = Running Scenario.after_ack_three e1)
      by (eexists; vm_compute; reflexivity).
    destruct Hit1 as [e1 Hit1].
    assert (Hit2 : exists e2,
              Sender.iteration (Scenario.small_chunks 40) 0 0
                (Scenario.ack_tick 2 3) Scenario.after_ack_three
              = Running Scenario.after_ack_three_again e2)
      by (eexists; vm_compute; reflexivity).
    destruct Hit2 as [e2 Hit2].
    assert (Hb3 : exists e3,
              Sender.after_burst (Scenario.small_chunks 40) 0 0
                (Scenario.ack_tick 3 3) Scenario.after_ack_three_again
              = Running Scenario.third_burst e3)
      by (eexists; vm_compute; reflexivity).
    destruct Hb3 as [e3 Hb3].
    assert (Hlater : Sender.later (Scenario.small_chunks 40) 0 0
                       Scenario.after_ack_three
                       Scenario.after_ack_three_again).
    { apply (Sender.later_pass _ _ _ _ Scenario.after_ack_three
               (Scenario.ack_tick 2 3) _ e2);
        [apply Sender.later_now | vm_compute; reflexivity | exact Hit2]. }
    destruct (Hsend (Scenario.small_chunks 40) 0%Q 0%Q Sender.init
                (Scenario.ack_tick 1 3) Scenario.after_ack_three e1
                (Scenario.ack_packet 3) 3
                (Sender.reach_init _ _ _) eq_refl Hit1 eq_refl eq_refl
                eq_refl _ Hlater) as (_ & _ & _ & Hthird).
    destruct (Hthird (Scenario.ack_tick 3 3) Scenario.third_burst e3
                eq_refl eq_refl Hb3) as (Hgone & Hev & _).
    split; [vm_compute; reflexivity|]. split; [vm_compute; reflexivity|].
    split; [vm_compute; reflexivity|]. split; [exact Hgone | exact Hev].
Defined.

(** The total sanity check comes first: the header said size 0, so
    [E = 0]; chunk 0 of a transfer of 5 was delivered; the same chunk
    arrives again with a total field of 0, and is dropped by the check
    before the duplicate test is reached, without an ACK. *)
Example duplicate_with_invalid_total :
  exists st effs,
    Receiver.run 0 (Scenario.feed [Scenario.data_packet 0 5 [x61%byte]])
                 (Receiver.init false) = Some (st, effs)
    /\ bool_decide (0 ∈ Receiver.received_seq_nums st) = true
    /\ decode_data (Scenario.data_packet 0 0 [x61%byte])
       = Some (0, 0, [x61%byte])
    /\ Receiver.sanitize_total 0 0 = None
    /\ Receiver.stream_step 0 st
         (Datagram (Scenario.data_packet 0 0 [x61%byte])) 0
       = Receiver.Continue st [].
Proof.
  eexists _, _. split; [vm_compute; reflexivity|].
  split; [vm_compute; reflexivity|]. split; [reflexivity|].
  split; reflexivity.
Qed.

End Duplicates.

(** * Further properties of the two endpoints *)

(** ** Framing in both directions *)

Section WireInverse.
Import Wire.

Lemma byte_of_Z_eq z b : z mod 256 = Z_of_byte b -> byte_of_Z z = b.
Proof.
  intros H. unfold byte_of_Z. rewrite H. unfold Z_of_byte.
  rewrite N2Z.id, Byte.of_to_N. reflexivity.
Qed.

Lemma be32_bytes b0 b1 b2 b3 :
  let n := be32 b0 b1 b2 b3 in
  [byte_of_Z (n / 2 ^ 24); byte_of_Z (n / 2 ^ 16); byte_of_Z (n / 2 ^ 8);
   byte_of_Z n] = [b0; b1; b2; b3].
Proof.
  intros n. subst n. unfold be32.
  pose proof (Z_of_byte_range b0). pose proof (Z_of_byte_range b1).
  pose proof (Z_of_byte_range b2). pose proof (Z_of_byte_range b3).
  change (2 ^ 24) with 16777216. change (2 ^ 16) with 65536.
  change (2 ^ 8) with 256.
  repeat f_equal; apply byte_of_Z_eq; Z.div_mod_to_equations; lia.
Qed.

Lemma pack_unpack_u32 d n : unpack_u32 d = Some n -> pack_u32 n = Some d.
Proof.
  destruct d as [|b0 [|b1 [|b2 [|b3 [|? ?]]]]]; try discriminate.
  cbn. intros [= <-]. rewrite pack_u32_Some by apply be32_range.
  f_equal. apply be32_bytes.
Qed.

Lemma decode_data_length d s t c :
  decode_data d = Some (s, t, c) -> length d = (8 + length c)%nat.
Proof.
  destruct d as [|a0 [|a1 [|a2 [|a3 [|b0 [|b1 [|b2 [|b3 chunk]]]]]]]];
    try discriminate.
  cbn. intros [= <- <- <-]. reflexivity.
Qed.

(** An ACK is exactly four bytes, and packing and unpacking it are
    inverse to each other: every unsigned 32-bit number survives the
    wire, every 4-byte datagram is the ACK of the number it decodes to,
    and a datagram of any other length is malformed. *)
Theorem ack_wire_inverse (n : Z) (d : bytes) :
  (encode_ack n = Some d -> decode_ack d = Some n /\ length d = 4%nat)
  /\ (decode_ack d = Some n -> encode_ack n = Some d /\ 0 <= n < 2 ^ 32)
  /\ (decode_ack d = None <-> length d <> 4%nat)
  /\ (encode_ack n = None <-> ~ 0 <= n < 2 ^ 32).
Proof.
  unfold encode_ack, decode_ack. split; [|split; [|split]].
  - intros H. split; [apply unpack_pack_u32, H|].
    pose proof (pack_u32_inv _ _ H) as Hn.
    rewrite (pack_u32_Some _ Hn) in H. injection H as <-. reflexivity.
  - intros H. pose proof (pack_unpack_u32 _ _ H) as Hp.
    split; [exact Hp | apply (pack_u32_inv _ _ Hp)].
  - destruct d as [|b0 [|b1 [|b2 [|b3 [|? ?]]]]]; cbn;
      split; try discriminate; try (intros _; lia); try congruence.
  - unfold pack_u32.
    destruct (Z.leb_spec 0 n), (Z.ltb_spec n (2 ^ 32)); cbn;
      split; try discriminate; try lia; try reflexivity.
Qed.

(** The receiver's decoding accepts exactly the datagrams of at least
    eight bytes, and re-encoding what it decoded gives the datagram back:
    no two datagrams decode to the same (seq, total, chunk). *)
Theorem data_wire_inverse (d : bytes) :
  (decode_data d = None <-> (length d < 8)%nat)
  /\ (forall s t c,
        decode_data d = Some (s, t, c) ->
        encode_data s t c = Some d
        /\ length d = (8 + length c)%nat
        /\ 0 <= s < 2 ^ 32 /\ 0 <= t < 2 ^ 32).
Proof.
  split.
  - destruct d as [|a0 [|a1 [|a2 [|a3 [|b0 [|b1 [|b2 [|b3 chunk]]]]]]]];
      cbn; split; try discriminate; try reflexivity; try lia.
  - intros s t c Hd. pose proof (decode_data_range _ _ _ _ Hd) as [Hs Ht].
    destruct d as [|a0 [|a1 [|a2 [|a3 [|b0 [|b1 [|b2 [|b3 chunk]]]]]]]];
      try discriminate.
    cbn in Hd. injection Hd as <- <- <-.
    split; [|split; [reflexivity | split; apply be32_range]].
    unfold encode_data. rewrite !pack_u32_Some by apply be32_range.
    rewrite !be32_bytes. reflexivity.
Qed.

End WireInverse.

(** ** Chunking of the file *)

Section Chunking.
Import Sender.

Lemma read_chunks_spec fuel : forall content : bytes,
  (length content <= fuel)%nat ->
  concat (read_chunks fuel content) = content
  /\ Forall (fun c : bytes => (0 < length c <= 1024)%nat)
            (read_chunks fuel content)
  /\ Z.of_nat (length (read_chunks fuel content))
     = (Z.of_nat (length content) + 1023) / 1024
  /\ forall i c,
       read_chunks fuel content !! i = Some c ->
       c = take 1024 (drop (i * 1024) content).
Proof.
  change 1024%nat with (Z.to_nat CHUNK_SIZE).
  assert (Hk : Z.of_nat (Z.to_nat CHUNK_SIZE) = 1024) by reflexivity.
  induction fuel as [|fuel IH]; intros content Hlen.
  - destruct content; [|cbn in Hlen; lia].
    cbn. repeat split; try constructor. intros i c Hi. discriminate.
  - destruct content as [|b rest].
    { cbn. repeat split; try constructor. intros i c Hi. discriminate. }
    cbn [read_chunks]. set (content := b :: rest) in *.
    set (k := Z.to_nat CHUNK_SIZE) in *.
    assert (Hpos : (0 < length content)%nat) by (cbn; lia).
    assert (Hdrop : (length (drop k content) <= fuel)%nat).
    { rewrite length_drop. lia. }
    destruct (IH _ Hdrop) as (Hc & Hf & Hn & Hi).
    split; [|split; [|split]].
    + cbn [concat]. rewrite Hc. apply take_drop.
    + constructor; [|assumption]. rewrite length_take. lia.
    + cbn [length]. rewrite Nat2Z.inj_succ, Hn, length_drop.
      Z.div_mod_to_equations. lia.
    + intros [|i] c.
      * cbn. intros [= <-]. reflexivity.
      * cbn [lookup list_lookup]. intros Hl. rewrite (Hi _ _ Hl), drop_drop.
        reflexivity.
Qed.

(** The chunks are a partition of the file: glued together they are the
    file again, none is empty, none is longer than 1024 bytes, chunk [i]
    is the slice that starts at byte [1024 i], and every chunk but the
    last has exactly 1024 bytes. *)
Theorem file_chunks_partition (content : bytes) :
  concat (file_chunks content) = content
  /\ Forall (fun c : bytes => (0 < length c <= 1024)%nat) (file_chunks content)
  /\ forall i c,
       file_chunks content !! i = Some c ->
       c = take 1024 (drop (i * 1024) content)
       /\ ((S i < length (file_chunks content))%nat -> length c = 1024%nat).
Proof.
  destruct (read_chunks_spec (length content) content (le_n _))
    as (Hc & Hf & Hn & Hi).
  split; [exact Hc|]. split; [exact Hf|].
  intros i c Hl. specialize (Hi _ _ Hl). split; [exact Hi|].
  intros Hlast. fold (file_chunks content) in Hn.
  rewrite Hi, length_take, length_drop.
  assert (Z.of_nat (S i) < (Z.of_nat (length content) + 1023) / 1024) by lia.
  assert (1024 * Z.of_nat (S i) + 1024 <= Z.of_nat (length content) + 1023)
    by (Z.div_mod_to_equations; lia).
  lia.
Qed.

(** The number of packets the sender announces is the number the
    receiver expects from the size in the header, [(size + 1023) // 1024],
    and it is 0 exactly for the empty file. *)
Theorem chunk_count_agrees (content : bytes) :
  total_packets (file_chunks content)
  = Receiver.expected_packets (Z.of_nat (length content))
  /\ (total_packets (file_chunks content) = 0 <-> content = []).
Proof.
  destruct (read_chunks_spec (length content) content (le_n _))
    as (_ & _ & Hn & _).
  unfold total_packets, Receiver.expected_packets.
  fold (file_chunks content) in Hn. split; [exact Hn|].
  rewrite Hn. split.
  - intros H0. destruct content; [reflexivity|].
    cbn [length] in H0. rewrite Nat2Z.inj_succ in H0.
    exfalso. revert H0. Z.div_mod_to_equations. lia.
  - intros ->. reflexivity.
Qed.

End Chunking.

(** ** The sender: what is in flight and what is sent *)

Section SenderFlight.
Import Wire Sender Flight.
Variable chunks : list bytes.
Variable start_time : Q.
Variable initial_rtt : Q.

Abbreviation N' := (total_packets chunks).
Abbreviation win' := (effective_window initial_rtt).

Lemma sent_app e1 e2 : sent (e1 ++ e2) = sent e1 ++ sent e2.
Proof. apply omap_app. Qed.

Lemma data_packets_nil : data_packets chunks [].
Proof. intros d Hd. apply elem_of_nil in Hd. contradiction. Qed.

Lemma data_packets_app e1 e2 :
  data_packets chunks e1 -> data_packets chunks e2 ->
  data_packets chunks (e1 ++ e2).
Proof.
  intros H1 H2 d. rewrite sent_app, elem_of_app. intros [Hd|Hd]; auto.
Qed.

Lemma data_packets_emit {S : Type} pre (r : step_result S) :
  data_packets chunks pre -> data_packets chunks (effects_of r) ->
  data_packets chunks (effects_of (emit pre r)).
Proof. destruct r; cbn; apply data_packets_app. Qed.

Lemma sent_between_nil lo effs : sent_between chunks lo lo effs.
Proof. intros k Hk. lia. Qed.

Lemma sent_between_app_r lo hi e1 e2 :
  sent_between chunks lo hi e2 -> sent_between chunks lo hi (e1 ++ e2).
Proof.
  intros H k Hk. destruct (H k Hk) as (d & Hd1 & Hd2). exists d.
  split; [assumption|]. rewrite sent_app, elem_of_app. right. assumption.
Qed.

Lemma sent_between_app_l lo hi e1 e2 :
  sent_between chunks lo hi e1 -> sent_between chunks lo hi (e1 ++ e2).
Proof.
  intros H k Hk. destruct (H k Hk) as (d & Hd1 & Hd2). exists d.
  split; [assumption|]. rewrite sent_app, elem_of_app. left. assumption.
Qed.

Lemma sent_between_join lo mid hi effs :
  sent_between chunks lo mid effs -> sent_between chunks mid hi effs ->
  sent_between chunks lo hi effs.
Proof.
  intros H1 H2 k Hk. destruct (Z.lt_ge_cases k mid); [apply H1 | apply H2]; lia.
Qed.

Lemma send_next_packet clock st st' e :
  0 <= next_seq_num st < N' ->
  send_next chunks clock st = SentOk st' e ->
  exists pkt,
    packet_of chunks (next_seq_num st) = Some pkt
    /\ e = Sendto pkt
    /\ window st' = <[next_seq_num st := Entry pkt (clock (next_seq_num st)) 0]>
                      (window st)
    /\ next_seq_num st' = next_seq_num st + 1.
Proof.
  intros Hn. unfold send_next, packet_of.
  destruct (chunks !! _) as [chunk|]; [|discriminate].
  destruct (encode_data _ _ _) as [pkt|]; [|discriminate].
  intros [= <- <-]. exists pkt. repeat split.
Qed.

Lemma data_packets_one k pkt :
  0 <= k < N' -> packet_of chunks k = Some pkt ->
  data_packets chunks [Sendto pkt].
Proof.
  intros Hk Hp d Hd. apply list_elem_of_singleton in Hd as ->. eauto.
Qed.

(** One new packet: the window grows by the entry of [next_seq_num]. *)
Lemma send_next_flight clock st st' e :
  0 <= next_seq_num st -> flight_ok chunks initial_rtt st ->
  next_seq_num st < N' ->
  send_next chunks clock st = SentOk st' e ->
  data_packets chunks [e]
  /\ sent_between chunks (next_seq_num st) (next_seq_num st') [e]
  /\ next_seq_num st' = next_seq_num st + 1
  /\ (size (window st') <= S (size (window st)))%nat
  /\ (forall k x, window st' !! k = Some x ->
         packet_of chunks k = Some (packet x) /\ 0 <= retries x <= MAX_RETRIES).
Proof.
  intros Hb [Hsize He] Hlt Hs.
  destruct (send_next_packet _ _ _ _ (conj Hb Hlt) Hs)
    as (pkt & Hp & -> & Hw & Hn).
  split; [apply (data_packets_one (next_seq_num st)); [lia | assumption]|].
  split; [|split; [assumption|split]].
  - intros k Hk. assert (k = next_seq_num st) as -> by lia.
    exists pkt. split; [assumption|]. apply list_elem_of_singleton. reflexivity.
  - rewrite Hw, map_size_insert. destruct (window st !! _); cbn; lia.
  - rewrite Hw. intros j x [[<- <-]|[_ Hj]]%lookup_insert_Some.
    + cbn. split; [assumption|]. unfold MAX_RETRIES. lia.
    + apply (He _ _ Hj).
Qed.

Lemma send_burst_flight clock b : forall st,
  0 <= next_seq_num st -> flight_ok chunks initial_rtt st ->
  data_packets chunks (effects_of (send_burst chunks initial_rtt b clock st))
  /\ forall st' effs,
       send_burst chunks initial_rtt b clock st = Running st' effs ->
       flight_ok chunks initial_rtt st'
       /\ sent_between chunks (next_seq_num st) (next_seq_num st') effs.
Proof.
  induction b as [|b IH]; intros st Hok Hfl.
  - cbn. split; [apply data_packets_nil|].
    intros st' effs [= <- <-]. split; [assumption | apply sent_between_nil].
  - cbn [send_burst].
    destruct (Z.ltb_spec (Z.of_nat (size (window st))) win') as [Hsz|Hsz];
      cbn [andb].
    2: { cbn. split; [apply data_packets_nil|].
         intros st' effs [= <- <-]. split; [assumption | apply sent_between_nil]. }
    destruct (Z.ltb_spec (next_seq_num st) N') as [Hlt|Hge].
    2: { cbn. split; [apply data_packets_nil|].
         intros st' effs [= <- <-]. split; [assumption | apply sent_between_nil]. }
    destruct (send_next chunks clock st) as [st1 e| |] eqn:Hs;
      [|cbn; split; [apply data_packets_nil | discriminate]..].
    destruct (send_next_flight _ _ _ _ Hok Hfl Hlt Hs)
      as (Hone & Hbet & Hn1 & Hs1 & Hent).
    assert (Hfl1 : flight_ok chunks initial_rtt st1).
    { split; [lia | exact Hent]. }
    destruct (IH st1) as [Hd Hrun]; [lia | assumption |].
    split; [apply data_packets_emit; assumption|].
    intros st' effs (e' & Hr & ->)%emit_running.
    destruct (Hrun _ _ Hr) as [Hfl' Hbetween]. split; [assumption|].
    apply (sent_between_join _ (next_seq_num st1)).
    + apply sent_between_app_l. assumption.
    + apply sent_between_app_r. assumption.
Qed.

Lemma send_extra_flight clock n : forall st st' effs exn,
  0 <= next_seq_num st ->
  flight_ok chunks initial_rtt st ->
  Z.of_nat (size (window st)) + Z.of_nat n <= win' ->
  send_extra chunks n clock st = (st', effs, exn) ->
  flight_ok chunks initial_rtt st'
  /\ data_packets chunks effs
  /\ sent_between chunks (next_seq_num st) (next_seq_num st') effs.
Proof.
  induction n as [|n IH]; intros st st' effs exn Hb Hfl Hsz.
  - cbn. intros [= <- <- <-].
    split; [assumption|]. split; [apply data_packets_nil | apply sent_between_nil].
  - cbn [send_extra].
    destruct (Z.ltb_spec (next_seq_num st) N') as [Hlt|Hge];
      [|apply IH; [assumption | assumption | lia]].
    destruct (send_next chunks clock st) as [st1 e| |] eqn:Hs.
    + destruct (send_next_flight _ _ _ _ Hb Hfl Hlt Hs)
        as (Hone & Hbet & Hn1 & Hs1 & Hent).
      destruct (send_extra chunks n clock st1) as [[st2 e2] exn2] eqn:Hx.
      intros [= <- <- <-].
      assert (Hfl1 : flight_ok chunks initial_rtt st1)
        by (split; [lia | exact Hent]).
      destruct (IH st1 st2 e2 exn2) as (H1 & H2 & H3);
        [lia | assumption | lia | assumption |].
      split; [assumption|]. split.
      * apply (data_packets_app [e]); assumption.
      * apply (sent_between_join _ (next_seq_num st1)).
        -- apply (sent_between_app_l _ _ [e]). assumption.
        -- apply (sent_between_app_r _ _ [e]). assumption.
    + intros [= <- <- <-].
      split; [assumption|]. split; [apply data_packets_nil | apply sent_between_nil].
    + intros [= <- <- <-].
      split; [assumption|]. split; [apply data_packets_nil | apply sent_between_nil].
Qed.

Lemma handle_ack_flight clock remaining ack st :
  0 <= next_seq_num st ->
  flight_ok chunks initial_rtt st ->
  data_packets chunks
    (effects_of (handle_ack chunks initial_rtt clock remaining ack st))
  /\ forall st' effs,
       handle_ack chunks initial_rtt clock remaining ack st = Running st' effs ->
       flight_ok chunks initial_rtt st'
       /\ sent_between chunks (next_seq_num st) (next_seq_num st') effs.
Proof.
  intros Hb Hfl. unfold handle_ack.
  assert (Hsame : data_packets chunks (effects_of (Running st []))
            /\ forall st' effs, Running st [] = Running st' effs ->
                 flight_ok chunks initial_rtt st'
                 /\ sent_between chunks (next_seq_num st) (next_seq_num st') effs).
  { split; [apply data_packets_nil|]. intros st' effs [= <- <-].
    split; [assumption | apply sent_between_nil]. }
  destruct (decode_ack ack) as [a|]; [|exact Hsame].
  destruct (bool_decide (is_Some (window st !! a))) eqn:Hin; [|exact Hsame].
  apply bool_decide_eq_true in Hin. clear Hsame.
  set (st1 := {| window := delete a (window st);
                 next_seq_num := next_seq_num st;
                 base_seq_num := advance_base chunks
                                   (Z.to_nat (N' - base_seq_num st))
                                   (delete a (window st)) (base_seq_num st) |}).
  assert (Hfl1 : flight_ok chunks initial_rtt st1).
  { destruct Hfl as [Hsize He]. split; cbn.
    - rewrite map_size_delete_Some by assumption. lia.
    - intros k e [_ Hk]%lookup_delete_Some. apply (He _ _ Hk). }
  fold st1.
  destruct (if Qltb remaining 40 && _ then send_extra _ _ _ _ else _)
    as [[st2 e2] exn] eqn:Hextra.
  assert (Hres : flight_ok chunks initial_rtt st2
                 /\ data_packets chunks e2
                 /\ sent_between chunks (next_seq_num st) (next_seq_num st2) e2).
  { destruct (Qltb remaining 40 && _) in Hextra.
    - eapply (send_extra_flight clock _ st1 st2 e2 exn Hb Hfl1); [|exact Hextra].
      pose proof (fl_size _ _ _ Hfl1) as Hs1. cbn [window st1] in *. lia.
    - injection Hextra as <- <- <-. split; [assumption|].
      split; [apply data_packets_nil | apply sent_between_nil]. }
  destruct Hres as (Hfl2 & Hd2 & Hbet2).
  destruct exn as [[| |]|]; [| | |destruct (_ =? 0)]; cbn;
    (split; [assumption|]); intros st' effs;
    try discriminate; intros [= <- <-]; split; assumption.
Qed.

Lemma retransmit_flight now progress keys : forall st,
  (forall k, k ∈ keys -> 0 <= k < N') ->
  flight_ok chunks initial_rtt st ->
  data_packets chunks
    (effects_of (retransmit start_time initial_rtt keys now progress st))
  /\ forall st' effs,
       retransmit start_time initial_rtt keys now progress st = Running st' effs ->
       flight_ok chunks initial_rtt st'.
Proof.
  induction keys as [|k ks IH]; intros st Hkeys Hfl.
  - cbn. split; [apply data_packets_nil|]. intros st' effs [= <- <-]. assumption.
  - cbn [retransmit].
    assert (Hks : forall j, j ∈ ks -> 0 <= j < N')
      by (intros j Hj; apply Hkeys, elem_of_cons; right; assumption).
    destruct (window st !! k) as [e|] eqn:Hk;
      [|cbn; split; [apply data_packets_nil | discriminate]].
    destruct (Qgtb _ _); [|apply IH; assumption].
    destruct (Z.geb_spec (retries e) MAX_RETRIES) as [|Hr];
      [cbn; split; [apply data_packets_nil | discriminate]|].
    destruct Hfl as [Hsize He]. destruct (He _ _ Hk) as [Hp Hret].
    set (st1 := {| window := <[k := Entry (packet e) now (retries e + 1)]> (window st);
                   next_seq_num := next_seq_num st;
                   base_seq_num := base_seq_num st |}).
    assert (Hfl1 : flight_ok chunks initial_rtt st1).
    { split; cbn.
      - rewrite map_size_insert_Some by (rewrite Hk; eauto). assumption.
      - intros j x [[<- <-]|[_ Hj]]%lookup_insert_Some.
        + cbn. split; [assumption | lia].
        + apply (He _ _ Hj). }
    destruct (IH st1 Hks Hfl1) as [Hd Hrun].
    assert (Hone : data_packets chunks [Sendto (packet e)]).
    { apply (data_packets_one k); [|assumption].
      apply Hkeys, elem_of_cons. left. reflexivity. }
    split; [apply data_packets_emit; assumption|].
    intros st' effs (e' & Hr' & _)%emit_running. apply (Hrun _ _ Hr').
Qed.

Lemma window_keys_spec (w : gmap Z entry) k :
  k ∈ window_keys w <-> is_Some (w !! k).
Proof.
  unfold window_keys. rewrite merge_sort_Permutation, elem_of_elements.
  apply elem_of_dom.
Qed.

Lemma iteration_flight tk st :
  window_ok chunks st -> flight_ok chunks initial_rtt st ->
  data_packets chunks
    (effects_of (iteration chunks start_time initial_rtt tk st))
  /\ forall st' effs,
       iteration chunks start_time initial_rtt tk st = Running st' effs ->
       flight_ok chunks initial_rtt st'
       /\ sent_between chunks (next_seq_num st) (next_seq_num st') effs.
Proof.
  intros Hok Hfl. unfold iteration.
  destruct (Qgtb _ _); [cbn; split; [apply data_packets_nil | discriminate]|].
  pose proof (wok_base _ _ Hok) as Hb.
  destruct (send_burst_flight (stamp tk)
              (Z.to_nat (max_burst initial_rtt
                           (remaining_time_percent start_time (now_top tk))
                           (actual_progress_percent chunks (base_seq_num st))))
              st ltac:(lia) Hfl) as [Hd1 Hrun1].
  fold (after_burst chunks start_time initial_rtt tk st) in Hd1, Hrun1.
  destruct (after_burst chunks start_time initial_rtt tk st)
    as [st1 e1| |] eqn:Hburst;
    [|split; [exact Hd1 | discriminate]..].
  destruct (Hrun1 _ _ eq_refl) as [Hfl1 Hbet1]. cbn in Hd1.
  pose proof Hburst as Hburst'. unfold after_burst in Hburst'.
  destruct (send_burst_ok _ _ _ _ _ _ _ Hok Hburst') as (Hok1 & Hb1 & Hn1 & _).
  assert (Hev : data_packets chunks
                  (effects_of (on_event chunks start_time initial_rtt tk st st1))
                /\ forall st' effs,
                     on_event chunks start_time initial_rtt tk st st1
                     = Running st' effs ->
                     flight_ok chunks initial_rtt st'
                     /\ sent_between chunks (next_seq_num st1) (next_seq_num st') effs).
  { unfold on_event. destruct (recv tk) as [ack| |w].
    - apply handle_ack_flight; [lia | assumption].
    - destruct (retransmit_flight (now_recv tk)
                  (actual_progress_percent chunks (base_seq_num st))
                  (window_keys (window st1)) st1) as [Hd Hrun];
        [|assumption|].
      + intros k Hk%window_keys_spec. destruct Hok1 as [? ? Hkeys _].
        apply Hkeys in Hk. lia.
      + split; [assumption|]. intros st' effs Hr. split; [apply (Hrun _ _ Hr)|].
        apply retransmit_ok in Hr as (_ & -> & _). apply sent_between_nil.
    - cbn. split; [apply data_packets_nil | discriminate]. }
  destruct Hev as [Hd2 Hrun2].
  split; [apply data_packets_emit; assumption|].
  intros st' effs (e2 & Hr & ->)%emit_running.
  destruct (Hrun2 _ _ Hr) as [Hfl2 Hbet2]. split; [assumption|].
  apply (sent_between_join _ (next_seq_num st1)).
  - apply sent_between_app_l. assumption.
  - apply sent_between_app_r. assumption.
Qed.

Lemma init_flight : flight_ok chunks initial_rtt init.
Proof.
  split; cbn.
  - pose proof (effective_window_ge initial_rtt). rewrite map_size_empty. lia.
  - intros k e. rewrite lookup_empty. discriminate.
Qed.

Lemma reachable_flight st :
  reachable chunks start_time initial_rtt st -> flight_ok chunks initial_rtt st.
Proof.
  induction 1 as [|st tk st' effs Hr IH Hlt Hit]; [apply init_flight|].
  apply (iteration_flight tk st (reachable_ok _ _ _ _ Hr) IH) in Hit as [? _].
  assumption.
Qed.

Lemma packet_of_decode k d :
  packet_of chunks k = Some d ->
  exists chunk,
    chunks !! Z.to_nat k = Some chunk
    /\ decode_data d = Some (k, N', chunk)
    /\ length d = (8 + length chunk)%nat.
Proof.
  unfold packet_of. destruct (chunks !! Z.to_nat k) as [chunk|]; [|discriminate].
  intros He. exists chunk. split; [reflexivity|].
  pose proof (decode_encode_data _ _ _ _ He) as Hd. split; [assumption|].
  apply (decode_data_length _ _ _ _ Hd).
Qed.

Lemma streaming_flight ticks : forall st effs0,
  window_ok chunks st -> flight_ok chunks initial_rtt st ->
  data_packets chunks effs0 ->
  sent_between chunks 0 (next_seq_num st) effs0 ->
  forall r,
    streaming chunks start_time initial_rtt ticks st = Some r ->
    data_packets chunks (effs0 ++ effects_of r)
    /\ forall st' e,
         r = Running st' e ->
         window_ok chunks st' /\ flight_ok chunks initial_rtt st'
         /\ sent_between chunks 0 (next_seq_num st') (effs0 ++ e)
         /\ N' <= base_seq_num st'.
Proof.
  induction ticks as [|tk ticks IH]; intros st effs0 Hok Hfl Hd0 Hcov r;
    cbn [streaming];
    destruct (Z.ltb_spec (base_seq_num st) N') as [Hlt|Hge].
  - discriminate.
  - intros [= <-]. cbn. rewrite app_nil_r. split; [assumption|].
    intros st' e [= <- <-]. rewrite app_nil_r. auto.
  - destruct (iteration_flight tk st Hok Hfl) as [Hd Hrun].
    destruct (iteration chunks start_time initial_rtt tk st)
      as [st1 e1| |] eqn:Hit.
    + destruct (Hrun _ _ eq_refl) as [Hfl1 Hbet]. cbn in Hd.
      destruct (iteration_ok _ _ _ _ _ _ _ Hok Hlt Hit) as (Hok1 & _ & _).
      destruct (streaming chunks start_time initial_rtt ticks st1)
        as [r1|] eqn:Hs; [|discriminate].
      cbn. intros [= <-].
      destruct (IH st1 (effs0 ++ e1) Hok1 Hfl1) with (r := r1)
        as [Hd1 Hrun1]; try assumption.
      * apply data_packets_app; assumption.
      * apply (sent_between_join 0 (next_seq_num st)).
        -- apply sent_between_app_l. assumption.
        -- apply sent_between_app_r. assumption.
      * split.
        -- destruct r1; cbn in *; rewrite app_assoc; assumption.
        -- intros st' e Hr. destruct r1 as [st2 e2| |]; try discriminate.
           cbn in Hr. injection Hr as <- <-.
           rewrite app_assoc. apply (Hrun1 _ _ eq_refl).
    + intros [= <-]. split; [apply data_packets_app; assumption | discriminate].
    + intros [= <-]. split; [apply data_packets_app; assumption | discriminate].
  - intros [= <-]. cbn. rewrite app_nil_r. split; [assumption|].
    intros st' e [= <- <-]. rewrite app_nil_r. auto.
Qed.

End SenderFlight.

(** In every state that the streaming loop reaches the number of
    packets in flight is at most the effective window of the session,
    which is 32, 128 or 192. *)
Theorem window_within_limit (chunks : list bytes) (start_time initial_rtt : Q)
    (st : Sender.sstate) :
  Sender.reachable chunks start_time initial_rtt st ->
  Z.of_nat (size (Sender.window st)) <= Sender.effective_window initial_rtt
  /\ (Sender.effective_window initial_rtt = 32
      \/ Sender.effective_window initial_rtt = 128
      \/ Sender.effective_window initial_rtt = 192).
Proof.
  intros Hr. split; [apply (reachable_flight _ _ _ _ Hr)|].
  unfold Sender.effective_window.
  destruct (Sender.extreme_rtt_mode initial_rtt), (Sender.high_rtt_mode initial_rtt);
    auto.
Qed.

(** Every entry of the window, in every state that the loop reaches,
    holds the datagram of its own chunk (its own sequence number, the
    total of the session, the chunk at that index of the file), however
    often it was retransmitted, and its retry count is between 0 and 25. *)
Theorem window_entries_faithful (chunks : list bytes)
    (start_time initial_rtt : Q) (st : Sender.sstate) (k : Z)
    (e : Sender.entry) :
  Sender.reachable chunks start_time initial_rtt st ->
  Sender.window st !! k = Some e ->
  exists chunk,
    chunks !! Z.to_nat k = Some chunk
    /\ Wire.decode_data (Sender.packet e)
       = Some (k, Sender.total_packets chunks, chunk)
    /\ 0 <= Sender.retries e <= 25
    /\ Sender.base_seq_num st <= k < Sender.next_seq_num st.
Proof.
  intros Hr Hk.
  destruct (Flight.fl_entries _ _ _ (reachable_flight _ _ _ _ Hr) _ _ Hk)
    as [Hp Hret].
  destruct (packet_of_decode _ _ _ Hp) as (chunk & Hc & Hd & _).
  exists chunk. split; [assumption|]. split; [assumption|].
  split; [exact Hret|].
  apply (Sender.wok_keys _ _ (reachable_ok _ _ _ _ Hr)). rewrite Hk. eauto.
Qed.

(** Whatever a pass of the streaming loop sends, and however the pass
    ends, each datagram is the data packet of a chunk of the file: it
    decodes to a sequence number below [N], the total [N] and the chunk
    at that index. *)
Theorem streaming_sends_only_data (chunks : list bytes)
    (start_time initial_rtt : Q) (st : Sender.sstate) (tk : Sender.tick)
    (d : bytes) :
  Sender.reachable chunks start_time initial_rtt st ->
  d ∈ sent (effects_of (Sender.iteration chunks start_time initial_rtt tk st)) ->
  exists k chunk,
    0 <= k < Sender.total_packets chunks
    /\ chunks !! Z.to_nat k = Some chunk
    /\ Wire.decode_data d = Some (k, Sender.total_packets chunks, chunk)
    /\ length d = (8 + length chunk)%nat.
Proof.
  intros Hr Hd.
  destruct (iteration_flight chunks start_time initial_rtt tk st
              (reachable_ok _ _ _ _ Hr) (reachable_flight _ _ _ _ Hr))
    as [Hdata _].
  destruct (Hdata d Hd) as (k & Hk & Hp).
  destruct (packet_of_decode _ _ _ Hp) as (chunk & Hc & Hdec & Hlen).
  exists k, chunk. auto.
Qed.

(** When the streaming loop is left in the normal way, everything is
    acknowledged ([base = next = N], empty window), every chunk of the
    file has been sent at least once, and nothing but data packets of
    the file was sent.  However the loop ends, it sent only data packets
    of the file. *)
Theorem streaming_exit (chunks : list bytes) (start_time initial_rtt : Q)
    (ticks : list Sender.tick) (r : step_result Sender.sstate) :
  Sender.streaming chunks start_time initial_rtt ticks Sender.init = Some r ->
  let N := Sender.total_packets chunks in
  (forall d, d ∈ sent (effects_of r) ->
     exists k chunk,
       0 <= k < N /\ chunks !! Z.to_nat k = Some chunk
       /\ Wire.decode_data d = Some (k, N, chunk))
  /\ forall st effs,
       r = Running st effs ->
       Sender.base_seq_num st = N /\ Sender.next_seq_num st = N
       /\ Sender.window st = ∅
       /\ forall k chunk,
            0 <= k < N -> chunks !! Z.to_nat k = Some chunk ->
            exists d, d ∈ sent effs /\ Wire.decode_data d = Some (k, N, chunk).
Proof.
  intros Hs N.
  destruct (streaming_flight chunks start_time initial_rtt ticks Sender.init []
              (init_ok chunks) (init_flight chunks initial_rtt)
              (data_packets_nil chunks)
              (sent_between_nil chunks 0 []) r Hs) as [Hd Hrun].
  cbn in Hd. split.
  - intros d Hin. destruct (Hd d Hin) as (k & Hk & Hp).
    destruct (packet_of_decode _ _ _ Hp) as (chunk & Hc & Hdec & _).
    exists k, chunk. auto.
  - intros st effs ->. destruct (Hrun _ _ eq_refl) as (Hok & _ & Hcov & Hge).
    cbn in Hcov. pose proof Hok as [Hb Hn _ _].
    assert (Hbase : Sender.base_seq_num st = N) by (subst N; lia).
    assert (Hnext : Sender.next_seq_num st = N) by (subst N; lia).
    split; [assumption|]. split; [assumption|].
    split; [apply (window_empty chunks st Hok); congruence|].
    intros k chunk Hk Hc. destruct (Hcov k) as (d & Hp & Hin); [lia|].
    exists d. split; [assumption|].
    destruct (packet_of_decode _ _ _ Hp) as (chunk' & Hc' & Hdec & _).
    rewrite Hc in Hc'. injection Hc' as <-. assumption.
Qed.

(** ** Delivery of a whole file *)

Section Delivery.
Import Wire Receiver Flight.
Variable chunks : list bytes.
Variable file_size : Z.
Hypothesis count_agrees :
  expected_packets file_size = Sender.total_packets chunks.

Abbreviation Nd := (Sender.total_packets chunks).

Lemma drain_received fuel : forall st j,
  j ∈ received_seq_nums st -> j ∈ received_seq_nums (drain fuel st).1.
Proof.
  induction fuel as [|fuel IH]; intros st j Hj; cbn; [assumption|].
  destruct (received_packets st !! expected_seq st); [|assumption].
  destruct (drain fuel _) as [st' e] eqn:Hd. cbn.
  change st' with (st', e).1. rewrite <- Hd. apply IH. cbn.
  apply elem_of_union. right. assumption.
Qed.

Lemma drain_high fuel : forall st,
  high_rtt_mode (drain fuel st).1 = high_rtt_mode st.
Proof.
  induction fuel as [|fuel IH]; intros st; cbn; [reflexivity|].
  destruct (received_packets st !! expected_seq st); [|reflexivity].
  destruct (drain fuel _) as [st' e] eqn:Hd. cbn.
  change st' with (st', e).1. rewrite <- Hd, IH. reflexivity.
Qed.

Lemma on_packet_delivers evs st effs0 seq pt chunk :
  consistent evs st effs0 ->
  0 <= seq < total_packets st ->
  exists st' e,
    on_packet st seq pt chunk = Continue st' e
    /\ high_rtt_mode st' = high_rtt_mode st
    /\ seq ∈ received_seq_nums st'
    /\ forall j, j ∈ received_seq_nums st -> j ∈ received_seq_nums st'.
Proof.
  intros [[H1 H2 H3 H4 H5 H6] H7] Hseq. unfold on_packet.
  destruct (Z.eqb_spec seq (total_packets st)); [lia|]. cbn [andb].
  destruct (Z.geb_spec seq (total_packets st)); [lia|].
  destruct (bool_decide (seq ∈ received_seq_nums st)) eqn:Hdup.
  { apply bool_decide_eq_true in Hdup. eexists _, _. eauto. }
  apply bool_decide_eq_false in Hdup.
  destruct (Z.eqb_spec seq (expected_seq st)) as [Heq|Hne].
  { destruct (drain _ _) as [st2 effs] eqn:Hd. eexists _, _.
    split; [reflexivity|].
    change st2 with (st2, effs).1. rewrite <- Hd.
    split; [rewrite drain_high; reflexivity|].
    split; [|intros j Hj]; apply drain_received; cbn; apply elem_of_union;
      [left; apply elem_of_singleton; reflexivity | right; assumption]. }
  destruct (Z.gtb_spec seq (expected_seq st)) as [Hgt|Hle].
  { eexists _, _. split; [reflexivity|]. cbn. split; [reflexivity|].
    split; [|intros j Hj]; apply elem_of_union;
      [left; apply elem_of_singleton; reflexivity | right; assumption]. }
  exfalso. apply Hdup, H3. left. lia.
Qed.

Lemma packet_not_probe k d :
  0 <= k < Nd -> packet_of chunks k = Some d -> d <> RTT_PROBE.
Proof.
  intros Hk Hp ->. destruct (packet_of_decode _ _ _ Hp) as (chunk & _ & Hd & _).
  change (decode_data RTT_PROBE)
    with (Some (1381258335, 1347571522, [x45%byte])) in Hd.
  injection Hd as Hk' HN'. lia.
Qed.

Lemma sanitize_total_session :
  1 <= Nd -> sanitize_total file_size Nd = Some Nd.
Proof.
  intros HN. unfold sanitize_total. rewrite count_agrees.
  destruct (_ || _); [|reflexivity].
  destruct (Z.gtb_spec Nd 0); [reflexivity | lia].
Qed.

Lemma bind_total_session total :
  total = 0 \/ total = Nd -> 1 <= Nd < 2 ^ 32 ->
  bind_total file_size total Nd = Some Nd.
Proof.
  rewrite <- count_agrees. apply bind_total_session_total.
Qed.

Lemma data_step evs st effs0 k d inactive :
  consistent evs st effs0 ->
  total_packets st = 0 \/ total_packets st = Nd ->
  0 <= k < Nd ->
  packet_of chunks k = Some d ->
  exists st' e,
    stream_step file_size st (Datagram d) inactive = Continue st' e
    /\ consistent (evs ++ [(Datagram d, inactive)]) st' (effs0 ++ e)
    /\ total_packets st' = Nd
    /\ high_rtt_mode st' = high_rtt_mode st
    /\ k ∈ received_seq_nums st'
    /\ forall j, j ∈ received_seq_nums st -> j ∈ received_seq_nums st'.
Proof.
  intros Hc Ht Hk Hp.
  destruct (packet_of_decode _ _ _ Hp) as (chunk & _ & Hd & _).
  pose proof (packet_not_probe _ _ Hk Hp) as Hnp.
  assert (HN : 1 <= Nd) by lia.
  assert (Hc' : consistent (evs ++ [(Datagram d, inactive)]) st effs0).
  { destruct Hc as [Hc Hn]. split; [apply coherent_mono|]; assumption. }
  assert (Hb : bind_total file_size (total_packets st) Nd = Some Nd).
  { apply (bind_total_session _ Ht).
    pose proof (decode_data_range _ _ _ _ Hd). lia. }
  cbn [stream_step].
  rewrite (on_datagram_packet _ _ _ _ _ _ _ _ Hnp Hd
             (sanitize_total_session HN) Hb).
  pose proof (consistent_bind file_size _ _ _ _ _ Hc' HN Hb) as Hcb.
  destruct (on_packet_delivers _ _ _ k Nd chunk Hcb)
    as (st' & e & Hstep & Hhigh & Hin & Hmono); [cbn; lia|].
  exists st', e. split; [assumption|].
  pose proof (on_packet_consistent _ _ _ k Nd chunk st' Hcb) as Hoc.
  rewrite Hstep in Hoc. cbn in Hoc.
  destruct Hoc as (Hcons & _ & Htot); [|reflexivity|].
  - exists d, Nd, inactive. split; [|assumption].
    apply elem_of_app. right. apply list_elem_of_singleton. reflexivity.
  - split; [assumption|]. split; [assumption|]. split; [exact Hhigh|].
    split; assumption.
Qed.

Lemma run_data ds : forall prefix st effs0,
  consistent prefix st effs0 ->
  total_packets st = 0 \/ total_packets st = Nd ->
  (forall d, d ∈ ds -> exists k, 0 <= k < Nd /\ packet_of chunks k = Some d) ->
  exists st' effs,
    run file_size (Scenario.feed ds) st = Some (st', effs)
    /\ consistent (prefix ++ Scenario.feed ds) st' (effs0 ++ effs)
    /\ (total_packets st' = 0 \/ total_packets st' = Nd)
    /\ (ds <> [] -> total_packets st' = Nd)
    /\ high_rtt_mode st' = high_rtt_mode st
    /\ (forall j, j ∈ received_seq_nums st -> j ∈ received_seq_nums st')
    /\ (forall d k, d ∈ ds -> packet_of chunks k = Some d ->
          k ∈ received_seq_nums st').
Proof.
  induction ds as [|d ds IH]; intros prefix st effs0 Hc Ht Hds.
  - exists st, []. cbn. rewrite !app_nil_r.
    split; [reflexivity|]. split; [assumption|]. split; [assumption|].
    split; [congruence|]. split; [reflexivity|]. split; [auto|].
    intros d k Hd. apply elem_of_nil in Hd. contradiction.
  - destruct (Hds d) as (k & Hk & Hp); [apply elem_of_cons; left; reflexivity|].
    destruct (data_step prefix st effs0 k d 0%Q Hc Ht Hk Hp)
      as (st1 & e1 & Hstep & Hc1 & Ht1 & Hh1 & Hin1 & Hmono1).
    destruct (IH (prefix ++ [(Datagram d, 0%Q)]) st1 (effs0 ++ e1) Hc1
                 (or_intror Ht1))
      as (st2 & e2 & Hrun & Hc2 & Ht2 & _ & Hh2 & Hmono2 & Hall2).
    { intros d' Hd'. apply Hds, elem_of_cons. right. assumption. }
    exists st2, (e1 ++ e2). cbn [Scenario.feed map run].
    cbn [stream_step] in Hstep |- *. rewrite Hstep.
    unfold Scenario.feed in Hrun. rewrite Hrun. cbn.
    split; [reflexivity|].
    rewrite <- !app_assoc in Hc2. cbn in Hc2. unfold Scenario.feed in Hc2.
    split; [exact Hc2|]. split; [assumption|].
    split; [intros _; destruct Ht2 as [Ht2|Ht2]; [|assumption]|].
    + destruct (run_consistent file_size (Scenario.feed ds)
                  (prefix ++ [(Datagram d, 0%Q)]) st1 (effs0 ++ e1) st2 e2 Hc1 Hrun)
        as [_ _].
      assert (Hk2 : k ∈ received_seq_nums st2) by (apply Hmono2; assumption).
      destruct Hc2 as [[Hb _ Hdel Hbuf _ _] _].
      apply Hdel in Hk2 as [?|Hk2]; [lia | apply Hbuf in Hk2; lia].
    + split; [congruence|]. split; [auto|].
      intros d' k' [->|Hd']%elem_of_cons Hp'.
      * assert (k' = k) as ->.
        { destruct (packet_of_decode _ _ _ Hp) as (? & _ & Hd1 & _).
          destruct (packet_of_decode _ _ _ Hp') as (? & _ & Hd2 & _).
          congruence. }
        apply Hmono2. assumption.
      * apply (Hall2 d'); assumption.
Qed.

Lemma writes_are_chunks (W : list (Z * bytes)) :
  W.*1 = seqZ 0 Nd ->
  (forall s c, (s, c) ∈ W -> chunks !! Z.to_nat s = Some c) ->
  W.*2 = chunks.
Proof.
  intros Hseq Hall. apply list_eq. intros i. rewrite list_lookup_fmap.
  assert (Hlen : length W = length chunks).
  { rewrite <- (length_fmap fst W), Hseq, length_seqZ.
    unfold Sender.total_packets. lia. }
  destruct (W !! i) as [[s c]|] eqn:Hi; cbn.
  - assert (Hs : W.*1 !! i = Some s) by (rewrite list_lookup_fmap, Hi; reflexivity).
    rewrite Hseq in Hs. apply lookup_seqZ in Hs as [-> _].
    apply list_elem_of_lookup_2 in Hi. apply Hall in Hi.
    rewrite Z.add_0_l, Nat2Z.id in Hi. congruence.
  - apply lookup_ge_None in Hi. symmetry. apply lookup_ge_None. lia.
Qed.

(** The core of delivery: data packets of the session, in any order and
    with any repetition, that between them cover every chunk. *)
Lemma delivery_core (ds : list bytes) (high : bool) :
  1 <= Nd ->
  (forall d, d ∈ ds -> exists k, 0 <= k < Nd /\ packet_of chunks k = Some d) ->
  (forall k, 0 <= k < Nd -> exists d, d ∈ ds /\ packet_of chunks k = Some d) ->
  exists st effs,
    run file_size (Scenario.feed ds) (init high) = Some (st, effs)
    /\ consistent (Scenario.feed ds) st effs
    /\ (writes effs).*2 = chunks
    /\ expected_seq st = Nd /\ total_packets st = Nd
    /\ high_rtt_mode st = high.
Proof.
  intros HN Hds Hcov.
  destruct (run_data ds [] (init high) [] (init_consistent high)
              (or_introl eq_refl) Hds)
    as (st & effs & Hrun & Hc & _ & Ht & Hhigh & _ & Hall).
  cbn in Hc. exists st, effs. split; [assumption|]. split; [assumption|].
  assert (Htot : total_packets st = Nd).
  { apply Ht. destruct (Hcov 0) as (d & Hd & _); [lia|].
    intros ->. apply elem_of_nil in Hd. contradiction. }
  pose proof Hc as [[Hb Hw Hdel Hbuf Hwa _] Hnone].
  assert (Hexp : expected_seq st = Nd).
  { destruct (decide (expected_seq st = Nd)) as [|Hne]; [assumption|].
    destruct (Hcov (expected_seq st)) as (d & Hd & Hp); [lia|].
    pose proof (Hall d _ Hd Hp) as Hin.
    apply Hdel in Hin as [?|Hin]; [lia|].
    rewrite Hnone in Hin. destruct Hin; discriminate. }
  split; [|split; [assumption|split; [assumption|]]].
  - apply writes_are_chunks; [rewrite Hw, Hexp; reflexivity|].
    intros s c Hs. destruct (Hwa _ _ Hs) as (d & t & i & Hd & Hdec).
    unfold Scenario.feed in Hd. apply list_elem_of_fmap in Hd as (d' & [= -> ->] & Hd').
    destruct (Hds _ Hd') as (k & Hk & Hp).
    destruct (packet_of_decode _ _ _ Hp) as (chunk & Hc1 & Hdec1 & _).
    rewrite Hdec in Hdec1. injection Hdec1 as -> -> ->. assumption.
  - exact Hhigh.
Qed.

Lemma stream_loop_after_run evs rest : forall st st' effs,
  run file_size evs st = Some (st', effs) ->
  stream_loop file_size (evs ++ rest) st
  = remit effs <$> stream_loop file_size rest st'.
Proof.
  induction evs as [|[ev i] evs IH]; intros st st' effs.
  - cbn. intros [= <- <-]. destruct (stream_loop _ _ _) as [[]|]; reflexivity.
  - cbn [run app stream_loop].
    destruct (stream_step file_size st ev i) as [st1 e1| | |]; try discriminate.
    destruct (run file_size evs st1) as [[st2 e2]|] eqn:Hr; try discriminate.
    cbn. intros [= <- <-]. rewrite (IH _ _ _ Hr).
    destruct (stream_loop file_size rest st2) as [[]|]; cbn;
      rewrite ?app_assoc; reflexivity.
Qed.

Lemma marker_step st marker inactive :
  total_packets st = Nd -> 1 <= Nd ->
  encode_data Nd Nd [] = Some marker ->
  exists a,
    encode_ack Nd = Some a
    /\ stream_step file_size st (Datagram marker) inactive
       = Complete st
           (concat (repeat [Sendto a; Sleep (delay_time (high_rtt_mode st))]
                           (Z.to_nat (repeat_count (high_rtt_mode st))))).
Proof.
  intros Htot HN Hm.
  pose proof (decode_encode_data _ _ _ _ Hm) as Hd.
  assert (Hnp : marker <> RTT_PROBE).
  { intros ->.
    change (decode_data RTT_PROBE)
      with (Some (1381258335, 1347571522, [x45%byte])) in Hd.
    discriminate. }
  destruct (decode_data_range _ _ _ _ Hd) as [Hr _].
  exists [byte_of_Z (Nd / 2 ^ 24); byte_of_Z (Nd / 2 ^ 16);
          byte_of_Z (Nd / 2 ^ 8); byte_of_Z Nd].
  assert (He : encode_ack Nd
               = Some [byte_of_Z (Nd / 2 ^ 24); byte_of_Z (Nd / 2 ^ 16);
                       byte_of_Z (Nd / 2 ^ 8); byte_of_Z Nd])
    by (apply pack_u32_Some, Hr).
  split; [exact He|]. cbn [stream_step].
  rewrite (on_datagram_packet _ _ _ _ _ _ _ _ Hnp Hd
             (sanitize_total_session HN)
             (bind_total_session _ (or_intror Htot) (conj HN (proj2 Hr)))).
  rewrite <- Htot at 1. rewrite set_total_same. unfold on_packet.
  rewrite Htot, Z.eqb_refl. cbn [andb]. rewrite He. reflexivity.
Qed.

Lemma file_written_app e1 e2 :
  file_written (e1 ++ e2) = file_written e1 ++ file_written e2.
Proof. rewrite !file_written_writes, writes_app, fmap_app, concat_app. reflexivity. Qed.

Lemma file_written_shots a d n :
  file_written (concat (repeat [Sendto a; Sleep d] n)) = [].
Proof. rewrite file_written_writes, writes_shots. reflexivity. Qed.

(** Delivery and termination together. *)
Lemma delivery_success (ds : list bytes) (high : bool) (marker : bytes)
    (md5 : bytes -> bytes) (file_md5 : option bytes) :
  1 <= Nd ->
  (forall d, d ∈ ds -> exists k, 0 <= k < Nd /\ packet_of chunks k = Some d) ->
  (forall k, 0 <= k < Nd -> exists d, d ∈ ds /\ packet_of chunks k = Some d) ->
  encode_data Nd Nd [] = Some marker ->
  receive_file file_size md5 file_md5 high (Scenario.feed (ds ++ [marker]))
  = Some (verify file_size md5 file_md5 (concat chunks))
  /\ exists st effs a,
       stream_loop file_size (Scenario.feed (ds ++ [marker])) (init high)
       = Some (Complete st effs)
       /\ expected_seq st = Nd /\ total_packets st = Nd
       /\ file_written effs = concat chunks
       /\ encode_ack Nd = Some a
       /\ sent effs
          = sent (snd (default (init high, [])
                         (run file_size (Scenario.feed ds) (init high))))
            ++ repeat a (if high then 15 else 5)%nat.
Proof.
  intros HN Hds Hcov Hm.
  destruct (delivery_core ds high HN Hds Hcov)
    as (st & effs & Hrun & Hc & Hw & Hexp & Htot & Hhigh).
  destruct (marker_step st marker 0%Q Htot HN Hm) as (a & Ha & Hstep).
  assert (Hloop : stream_loop file_size (Scenario.feed (ds ++ [marker])) (init high)
                  = Some (Complete st
                      (effs ++ concat (repeat [Sendto a; Sleep (delay_time (high_rtt_mode st))]
                                         (Z.to_nat (repeat_count (high_rtt_mode st))))))).
  { unfold Scenario.feed. rewrite map_app.
    rewrite (stream_loop_after_run _ _ _ _ _ Hrun).
    cbn [map stream_loop]. rewrite Hstep. reflexivity. }
  assert (Hfile : file_written
                    (effs ++ concat (repeat [Sendto a; Sleep (delay_time (high_rtt_mode st))]
                                       (Z.to_nat (repeat_count (high_rtt_mode st)))))
                  = concat chunks).
  { rewrite file_written_app, file_written_shots, app_nil_r,
      file_written_writes, Hw. reflexivity. }
  split.
  - unfold receive_file. rewrite Hloop, Hfile. reflexivity.
  - eexists _, _, a. split; [exact Hloop|].
    split; [assumption|]. split; [assumption|]. split; [exact Hfile|].
    split; [assumption|].
    rewrite Hrun. cbn [default snd]. rewrite sent_app. f_equal.
    rewrite Hhigh. destruct high; reflexivity.
Qed.

End Delivery.

Lemma packet_of_iff chunks k d :
  Flight.packet_of chunks k = Some d
  <-> exists chunk,
        chunks !! Z.to_nat k = Some chunk
        /\ Wire.encode_data k (Sender.total_packets chunks) chunk = Some d.
Proof.
  unfold Flight.packet_of. split.
  - destruct (chunks !! Z.to_nat k) as [chunk|]; [eauto | discriminate].
  - intros (chunk & -> & He). exact He.
Qed.

Lemma file_chunks_count (content : bytes) :
  Receiver.expected_packets (Z.of_nat (length content))
  = Sender.total_packets (Sender.file_chunks content)
  /\ concat (Sender.file_chunks content) = content
  /\ (content <> [] -> 1 <= Sender.total_packets (Sender.file_chunks content)).
Proof.
  destruct (read_chunks_spec (length content) content (le_n _))
    as (Hc & _ & Hn & _).
  fold (Sender.file_chunks content) in Hn, Hc.
  unfold Sender.total_packets, Receiver.expected_packets.
  split; [symmetry; exact Hn|]. split; [exact Hc|].
  intros Hne. rewrite Hn. destruct content; [contradiction|].
  cbn [length]. rewrite Nat2Z.inj_succ. Z.div_mod_to_equations. lia.
Qed.

(** Reassembly does not depend on the order of arrival.  If the
    datagrams that arrive are data packets of the file, each chunk at
    least once, in any order and with any number of repetitions, then the
    data loop goes through all of them, writes every chunk once in file
    order, and the bytes written are exactly the bytes of the file. *)
Theorem any_order_delivery (content : bytes) (ds : list bytes) (high : bool) :
  let chunks := Sender.file_chunks content in
  let N := Sender.total_packets chunks in
  content <> [] ->
  (forall d, d ∈ ds ->
     exists k chunk, 0 <= k < N /\ chunks !! Z.to_nat k = Some chunk
                     /\ Wire.encode_data k N chunk = Some d) ->
  (forall k, 0 <= k < N ->
     exists d chunk, d ∈ ds /\ chunks !! Z.to_nat k = Some chunk
                     /\ Wire.encode_data k N chunk = Some d) ->
  exists st effs,
    Receiver.run (Z.of_nat (length content)) (Scenario.feed ds)
                 (Receiver.init high) = Some (st, effs)
    /\ Receiver.file_written effs = content
    /\ (Receiver.writes effs).*1 = seqZ 0 N
    /\ Receiver.expected_seq st = N
    /\ Receiver.total_packets st = N.
Proof.
  intros chunks N Hne Hds Hcov.
  destruct (file_chunks_count content) as (Hcount & Hcat & Hpos).
  destruct (delivery_core chunks (Z.of_nat (length content)) Hcount ds high
              (Hpos Hne)) as (st & effs & Hrun & Hc & Hw & Hexp & Htot & _).
  - intros d Hd. destruct (Hds d Hd) as (k & chunk & Hk & Hc & He).
    exists k. split; [assumption|]. apply packet_of_iff. eauto.
  - intros k Hk. destruct (Hcov k Hk) as (d & chunk & Hd & Hc & He).
    exists d. split; [assumption|]. apply packet_of_iff. eauto.
  - exists st, effs. split; [assumption|].
    split; [rewrite file_written_writes, Hw; exact Hcat|].
    split; [|split; assumption].
    destruct Hc as [[_ Hwr _ _ _ _] _]. rewrite Hwr, Hexp. reflexivity.
Qed.

(** A transfer that delivers every chunk and then the termination
    marker succeeds: [receive_file] leaves the loop on the marker with
    [expected_seq = total_packets = N] and returns the result of the
    integrity check on the very bytes of the file, which is True when the
    header carried no digest (the size matches) and otherwise says
    whether the digest of the header is the digest of the file. *)
Theorem transfer_succeeds (content : bytes) (ds : list bytes) (high : bool)
    (marker : bytes) (md5 : bytes -> bytes) (file_md5 : option bytes) :
  let chunks := Sender.file_chunks content in
  let N := Sender.total_packets chunks in
  content <> [] ->
  (forall d, d ∈ ds ->
     exists k chunk, 0 <= k < N /\ chunks !! Z.to_nat k = Some chunk
                     /\ Wire.encode_data k N chunk = Some d) ->
  (forall k, 0 <= k < N ->
     exists d chunk, d ∈ ds /\ chunks !! Z.to_nat k = Some chunk
                     /\ Wire.encode_data k N chunk = Some d) ->
  Wire.encode_data N N [] = Some marker ->
  Receiver.receive_file (Z.of_nat (length content)) md5 file_md5 high
                        (Scenario.feed (ds ++ [marker]))
  = Some (match file_md5 with
          | Some (b :: digest) => bool_decide (md5 content = b :: digest)
          | _ => true
          end)
  /\ exists st effs,
       Receiver.stream_loop (Z.of_nat (length content))
                            (Scenario.feed (ds ++ [marker])) (Receiver.init high)
       = Some (Receiver.Complete st effs)
       /\ Receiver.expected_seq st = N /\ Receiver.total_packets st = N
       /\ Receiver.file_written effs = content.
Proof.
  intros chunks N Hne Hds Hcov Hm.
  destruct (file_chunks_count content) as (Hcount & Hcat & Hpos).
  destruct (delivery_success chunks (Z.of_nat (length content)) Hcount ds high
              marker md5 file_md5 (Hpos Hne)) as (Hres & st & effs & a & Hloop & He & Ht & Hf & _).
  - intros d Hd. destruct (Hds d Hd) as (k & chunk & Hk & Hc & He).
    exists k. split; [assumption|]. apply packet_of_iff. eauto.
  - intros k Hk. destruct (Hcov k Hk) as (d & chunk & Hd & Hc & He).
    exists d. split; [assumption|]. apply packet_of_iff. eauto.
  - assumption.
  - fold chunks in Hcat. rewrite Hcat in Hres, Hf. split.
    + rewrite Hres. unfold Receiver.verify.
      destruct file_md5 as [[|b digest]|]; try reflexivity;
        rewrite Z.eqb_refl; reflexivity.
    + exists st, effs. auto.
Qed.

(** Sender and receiver together.  When the sender's streaming loop is
    left in the normal way, everything it sent during the loop,
    retransmissions included, followed by its termination marker, makes
    a receiver whose header gave the size of the file write exactly the
    file and pass the integrity check. *)
Theorem loopback_delivery (content : bytes) (start_time initial_rtt : Q)
    (ticks : list Sender.tick) (sst : Sender.sstate) (seffs : list effect)
    (high : bool) (md5 : bytes -> bytes) (file_md5 : option bytes) :
  let chunks := Sender.file_chunks content in
  let N := Sender.total_packets chunks in
  content <> [] ->
  Sender.streaming chunks start_time initial_rtt ticks Sender.init
  = Some (Running sst seffs) ->
  exists marker st effs,
    Wire.encode_data N N [] = Some marker
    /\ Receiver.stream_loop (Z.of_nat (length content))
         (Scenario.feed (sent seffs ++ [marker])) (Receiver.init high)
       = Some (Receiver.Complete st effs)
    /\ Receiver.file_written effs = content
    /\ Receiver.expected_seq st = N
    /\ Receiver.receive_file (Z.of_nat (length content)) md5 file_md5 high
                             (Scenario.feed (sent seffs ++ [marker]))
       = Some (match file_md5 with
               | Some (b :: digest) => bool_decide (md5 content = b :: digest)
               | _ => true
               end).
Proof.
  intros chunks N Hne Hs.
  destruct (file_chunks_count content) as (Hcount & Hcat & Hpos).
  specialize (Hpos Hne). fold chunks in Hcount, Hcat, Hpos. fold N in Hpos.
  destruct (streaming_flight chunks start_time initial_rtt ticks Sender.init []
              (init_ok chunks) (init_flight chunks initial_rtt)
              (data_packets_nil chunks) (sent_between_nil chunks 0 [])
              _ Hs) as [Hd Hrun].
  destruct (Hrun _ _ eq_refl) as (Hok & _ & Hcov & Hge).
  cbn in Hd, Hcov. pose proof Hok as [Hb Hn _ _].
  assert (Hnext : Sender.next_seq_num sst = N) by (subst N; lia).
  assert (Hmarker : exists marker, Wire.encode_data N N [] = Some marker).
  { destruct (Hcov 0) as (d & Hp & _); [lia|].
    apply packet_of_iff in Hp as (chunk & _ & He).
    unfold Wire.encode_data in He |- *.
    destruct (Wire.pack_u32 0); [|discriminate].
    fold N in He. destruct (Wire.pack_u32 N); [eauto | discriminate]. }
  destruct Hmarker as [marker Hm].
  destruct (delivery_success chunks (Z.of_nat (length content)) Hcount
              (sent seffs) high marker md5 file_md5 Hpos)
    as (Hres & st & effs & a & Hloop & He & Ht & Hf & _).
  - intros d Hin. apply (Hd d Hin).
  - intros k Hk. destruct (Hcov k) as (d & Hp & Hin); [lia|]. eauto.
  - assumption.
  - exists marker, st, effs. rewrite Hcat in Hres, Hf.
    split; [assumption|]. split; [assumption|]. split; [assumption|].
    split; [assumption|].
    rewrite Hres. unfold Receiver.verify.
    destruct file_md5 as [[|b digest]|]; try reflexivity;
      rewrite Z.eqb_refl; reflexivity.
Qed.

(** ** The receiver: acknowledgements, the bound total, the RTT flag *)

Section ReceiverLedger.
Import Wire Receiver.

Lemma drain_sent fuel : forall st, sent (drain fuel st).2 = [].
Proof.
  induction fuel as [|fuel IH]; intros st; cbn; [reflexivity|].
  destruct (received_packets st !! expected_seq st); [|reflexivity].
  destruct (drain fuel _) as [st' e] eqn:Hd. cbn.
  change e with (st', e).2. rewrite <- Hd. apply IH.
Qed.

Lemma drain_received_inv fuel : forall st j,
  j ∈ received_seq_nums (drain fuel st).1 ->
  j ∈ received_seq_nums st \/ is_Some (received_packets st !! j).
Proof.
  induction fuel as [|fuel IH]; intros st j; cbn; [auto|].
  destruct (received_packets st !! expected_seq st) as [c|] eqn:Hl; [|auto].
  destruct (drain fuel _) as [st' e] eqn:Hd. cbn.
  change st' with (st', e).1. rewrite <- Hd. intros Hj.
  apply IH in Hj as [Hj|Hj]; cbn in Hj.
  - apply elem_of_union in Hj as [->%elem_of_singleton|Hj]; [|auto].
    right. rewrite Hl. eauto.
  - apply lookup_delete_is_Some in Hj as [_ Hj]. auto.
Qed.

Lemma sent_send_ack s :
  0 <= s < 2 ^ 32 ->
  exists a, encode_ack s = Some a /\ sent (send_ack s) = [a].
Proof.
  intros Hs. unfold send_ack, encode_ack. rewrite (pack_u32_Some _ Hs).
  eexists. split; reflexivity.
Qed.

Lemma sent_shots a d n : sent (concat (repeat [Sendto a; Sleep d] n)) = repeat a n.
Proof. induction n as [|n IH]; [reflexivity|]. cbn. rewrite <- IH. reflexivity. Qed.

(** One packet that passed the sanity check: what is acknowledged is
    delivered, and what becomes delivered is acknowledged. *)
Lemma on_packet_ledger evs st effs0 seq pt chunk st' e :
  consistent evs st effs0 ->
  0 <= seq < 2 ^ 32 ->
  on_packet st seq pt chunk = Continue st' e ->
  high_rtt_mode st' = high_rtt_mode st
  /\ (forall j, j ∈ received_seq_nums st -> j ∈ received_seq_nums st')
  /\ (forall d, d ∈ sent e ->
        exists s, encode_ack s = Some d /\ s ∈ received_seq_nums st')
  /\ (forall j, j ∈ received_seq_nums st' ->
        j ∈ received_seq_nums st
        \/ exists a, encode_ack j = Some a /\ a ∈ sent e).
Proof.
  intros [[H1 H2 H3 H4 H5 H6] H7] Hseq. unfold on_packet.
  destruct (sent_send_ack seq Hseq) as (a & Ha & Hsa).
  assert (Hsame : forall ee, sent ee = [] ->
            Continue st ee = Continue st' e ->
            high_rtt_mode st' = high_rtt_mode st
            /\ (forall j, j ∈ received_seq_nums st -> j ∈ received_seq_nums st')
            /\ (forall d, d ∈ sent e ->
                  exists s, encode_ack s = Some d /\ s ∈ received_seq_nums st')
            /\ (forall j, j ∈ received_seq_nums st' ->
                  j ∈ received_seq_nums st
                  \/ exists a, encode_ack j = Some a /\ a ∈ sent e)).
  { intros ee Hee [= <- <-]. split; [reflexivity|]. split; [auto|].
    rewrite Hee. split; [|auto]. intros d Hd. apply elem_of_nil in Hd.
    contradiction. }
  destruct ((seq =? total_packets st) && (pt =? total_packets st)).
  { destruct (encode_ack (total_packets st)); [discriminate|].
    apply Hsame. reflexivity. }
  destruct (seq >=? total_packets st); [apply Hsame; reflexivity|].
  destruct (bool_decide (seq ∈ received_seq_nums st)) eqn:Hdup.
  { apply bool_decide_eq_true in Hdup. intros [= <- <-]. rewrite Hsa.
    split; [reflexivity|]. split; [auto|]. split; [|auto].
    intros d ->%list_elem_of_singleton. eauto. }
  apply bool_decide_eq_false in Hdup.
  destruct (Z.eqb_spec seq (expected_seq st)) as [Heq|Hne].
  { destruct (drain _ _) as [st2 effs] eqn:Hd. intros [= <- <-].
    assert (Hst : st2 = (drain (size (received_packets st))
                     {| high_rtt_mode := high_rtt_mode st;
                        total_packets := total_packets st;
                        expected_seq := expected_seq st + 1;
                        received_seq_nums := {[seq]} ∪ received_seq_nums st;
                        received_packets := received_packets st |}).1)
      by (cbn in Hd; rewrite Hd; reflexivity).
    assert (Hse : sent (Write seq chunk :: effs ++ send_ack seq) = [a]).
    { change (sent (Write seq chunk :: effs ++ send_ack seq))
        with (sent (effs ++ send_ack seq)).
      unfold sent at 1. rewrite omap_app. fold (sent effs) (sent (send_ack seq)).
      rewrite Hsa. replace (sent effs) with (@nil bytes); [reflexivity|].
      symmetry. change effs with (st2, effs).2. cbn in Hd. rewrite <- Hd.
      apply drain_sent. }
    rewrite Hse. split; [rewrite Hst, drain_high; reflexivity|].
    assert (Hin : seq ∈ received_seq_nums st2).
    { rewrite Hst. apply drain_received. cbn. apply elem_of_union. left.
      apply elem_of_singleton. reflexivity. }
    split; [|split].
    - intros j Hj. rewrite Hst. apply drain_received. cbn.
      apply elem_of_union. right. assumption.
    - intros d ->%list_elem_of_singleton. eauto.
    - intros j Hj. rewrite Hst in Hj.
      apply drain_received_inv in Hj as [Hj|Hj]; cbn in Hj.
      + apply elem_of_union in Hj as [->%elem_of_singleton|Hj]; [|auto].
        right. exists a. split; [assumption|].
        apply list_elem_of_singleton. reflexivity.
      + left. apply H3. right. assumption. }
  destruct (Z.gtb_spec seq (expected_seq st)) as [Hgt|Hle].
  { intros [= <- <-]. cbn. rewrite Hsa. split; [reflexivity|]. split; [|split].
    - intros j Hj. apply elem_of_union. right. assumption.
    - intros d ->%list_elem_of_singleton. exists seq. split; [assumption|].
      apply elem_of_union. left. apply elem_of_singleton. reflexivity.
    - intros j [->%elem_of_singleton|Hj]%elem_of_union; [|auto].
      right. exists a. split; [assumption|].
      apply list_elem_of_singleton. reflexivity. }
  exfalso. apply Hdup, H3. left. lia.
Qed.

Lemma sanitize_total_range file_size t pt :
  sanitize_total file_size t = Some pt -> 0 <= t ->
  1 <= pt <= 100000
  \/ (pt = expected_packets file_size /\ 1 <= expected_packets file_size).
Proof.
  unfold sanitize_total, MAX_REASONABLE_PACKETS.
  destruct (Z.gtb_spec t 100000); cbn.
  - destruct (Z.gtb_spec (expected_packets file_size) 0); intros [= <-]; lia.
  - destruct (Z.eqb_spec t 0); cbn.
    + destruct (Z.gtb_spec (expected_packets file_size) 0); intros [= <-]; lia.
    + intros [= <-]. lia.
Qed.

Lemma bind_total_range file_size pt t :
  bind_total file_size 0 pt = Some t ->
  t = pt
  \/ (t = expected_packets file_size
      /\ 1 <= expected_packets file_size < 100000).
Proof.
  unfold bind_total, MAX_REASONABLE_PACKETS. cbn.
  destruct (Float.of_int _); [|discriminate].
  destruct (Qgtb _ _); [|intros [= <-]; auto].
  destruct (Z.gtb_spec (expected_packets file_size) 0); cbn;
    [|intros [= <-]; auto].
  destruct (Z.ltb_spec (expected_packets file_size) 100000);
    intros [= <-]; [right; lia | auto].
Qed.

(** One pass of the data loop that goes on. *)
Lemma step_ledger file_size evs st effs0 ev inactive st' e :
  consistent evs st effs0 ->
  stream_step file_size st ev inactive = Continue st' e ->
  (high_rtt_mode st' = true
   <-> high_rtt_mode st = true \/ ev = Datagram RTT_PROBE)
  /\ (forall j, j ∈ received_seq_nums st -> j ∈ received_seq_nums st')
  /\ (forall d, d ∈ sent e ->
        d = RTT_ACK
        \/ exists s, encode_ack s = Some d /\ s ∈ received_seq_nums st')
  /\ (forall j, j ∈ received_seq_nums st' ->
        j ∈ received_seq_nums st
        \/ exists a, encode_ack j = Some a /\ a ∈ sent e)
  /\ (total_packets st' = total_packets st
      \/ total_packets st = 0
         /\ (1 <= total_packets st' <= 100000
             \/ total_packets st' = expected_packets file_size
                /\ 1 <= expected_packets file_size)).
Proof.
  intros Hc.
  assert (Hsame : forall ev', ev' <> Datagram RTT_PROBE ->
            Continue st [] = Continue st' e ->
            (high_rtt_mode st' = true
             <-> high_rtt_mode st = true \/ ev' = Datagram RTT_PROBE)
            /\ (forall j, j ∈ received_seq_nums st -> j ∈ received_seq_nums st')
            /\ (forall d, d ∈ sent e ->
                  d = RTT_ACK
                  \/ exists s, encode_ack s = Some d /\ s ∈ received_seq_nums st')
            /\ (forall j, j ∈ received_seq_nums st' ->
                  j ∈ received_seq_nums st
                  \/ exists a, encode_ack j = Some a /\ a ∈ sent e)
            /\ (total_packets st' = total_packets st
                \/ total_packets st = 0
                   /\ (1 <= total_packets st' <= 100000
                       \/ total_packets st' = expected_packets file_size
                          /\ 1 <= expected_packets file_size))).
  { intros ev' Hev [= <- <-]. split; [tauto|]. split; [auto|].
    split; [intros d Hd; apply elem_of_nil in Hd; contradiction|]. auto. }
  destruct ev as [data| |w]; cbn [stream_step].
  - unfold on_datagram. destruct (decide (data = RTT_PROBE)) as [->|Hp].
    { intros [= <- <-]. cbn. split; [tauto|]. split; [auto|]. split; [|auto].
      intros d ->%list_elem_of_singleton. auto. }
    assert (Hne : Datagram data <> Datagram RTT_PROBE) by congruence.
    destruct (decode_data data) as [[[seq t] chunk]|] eqn:Hd;
      [|apply Hsame; assumption].
    destruct (sanitize_total file_size t) as [pt|] eqn:Hs;
      [|apply Hsame; assumption].
    destruct (decode_data_range _ _ _ _ Hd) as [Hseq Ht].
    pose proof (sanitize_total_pos _ _ _ Hs (proj1 Ht)) as Hpt.
    destruct (bind_total file_size (total_packets st) pt) as [T|] eqn:Hb.
    2:{ intros [= <- <-]. cbn.
        pose proof (bind_total_None _ _ _ Hb) as Hz.
        split; [tauto|]. split; [auto|].
        split; [intros d Hin; apply elem_of_nil in Hin; contradiction|].
        split; [auto|]. right. split; [assumption|].
        destruct (sanitize_total_range _ _ _ Hs (proj1 Ht)) as [?|[? ?]];
          auto. }
    pose proof (consistent_bind file_size _ _ _ _ _ Hc Hpt Hb) as Hcb.
    intros Hstep.
    pose proof (on_packet_ledger _ _ _ _ _ _ _ _ Hcb Hseq Hstep)
      as (Hh & Hmono & Hack & Hnew).
    assert (Htot : total_packets st' = T).
    { destruct Hcb as [Hcoh Hnone].
      assert (Hcb' : consistent (evs ++ [(Datagram data, inactive)])
                (set_total st T) effs0)
        by (split; [apply coherent_mono|]; assumption).
      pose proof (on_packet_consistent _ _ _ seq pt chunk st' Hcb') as Hoc.
      rewrite Hstep in Hoc. destruct Hoc as (_ & _ & Hoc); [|reflexivity|exact Hoc].
      exists data, t, inactive. split; [|assumption].
      apply elem_of_app. right. apply list_elem_of_singleton. reflexivity. }
    cbn in Hh, Hmono, Hnew.
    split; [rewrite Hh; split; [auto | intros [?|?]; [assumption | contradiction]]|].
    split; [assumption|]. split; [intros d Hin; right; apply Hack, Hin|].
    split; [assumption|]. rewrite Htot.
    destruct (decide (total_packets st = 0)) as [Hz|Hnz].
    + right. split; [assumption|]. rewrite Hz in Hb.
      destruct (sanitize_total_range _ _ _ Hs (proj1 Ht)) as [?|[? ?]];
        destruct (bind_total_range file_size pt T Hb) as [->|[-> ?]]; auto; lia.
    + left. rewrite (bind_total_bound_nz file_size _ pt Hnz) in Hb. congruence.
  - unfold on_timeout.
    destruct (high_rtt_mode st); destruct (Qgtb _ _); try discriminate;
      apply Hsame; discriminate.
  - assert (He : on_error st w = Continue st []
                 \/ on_error st w = Complete st [] \/ on_error st w = Escape []).
    { destruct (decide (w = Some 10054)) as [->|Hw].
      - rewrite on_error_reset.
        destruct (reset_completes st) as [[|]|]; auto.
      - left. apply on_error_other, Hw. }
    destruct He as [-> | [-> | ->]]; [apply Hsame| |]; discriminate.
Qed.

Lemma run_ledger file_size evs : forall prefix st effs0 st' effs,
  consistent prefix st effs0 ->
  run file_size evs st = Some (st', effs) ->
  (high_rtt_mode st' = true
   <-> high_rtt_mode st = true \/ exists i, (Datagram RTT_PROBE, i) ∈ evs)
  /\ (forall j, j ∈ received_seq_nums st -> j ∈ received_seq_nums st')
  /\ (forall d, d ∈ sent effs ->
        d = RTT_ACK
        \/ exists s, encode_ack s = Some d /\ s ∈ received_seq_nums st')
  /\ (forall j, j ∈ received_seq_nums st' ->
        j ∈ received_seq_nums st
        \/ exists a, encode_ack j = Some a /\ a ∈ sent effs)
  /\ (total_packets st' = total_packets st
      \/ total_packets st = 0
         /\ (1 <= total_packets st' <= 100000
             \/ total_packets st' = expected_packets file_size
                /\ 1 <= expected_packets file_size)).
Proof.
  induction evs as [|[ev i] evs IH]; intros prefix st effs0 st' effs Hc.
  - cbn. intros [= <- <-]. split.
    { split; [auto|]. intros [?|[i Hi]]; [assumption|].
      apply elem_of_nil in Hi. contradiction. }
    split; [auto|].
    split; [intros d Hd; apply elem_of_nil in Hd; contradiction|]. auto.
  - cbn [run].
    destruct (stream_step file_size st ev i) as [st1 e1| | |] eqn:Hs;
      try discriminate.
    destruct (run file_size evs st1) as [[st2 e2]|] eqn:Hr; try discriminate.
    cbn. intros [= <- <-].
    destruct (step_ledger _ _ _ _ _ _ _ _ Hc Hs) as (Hh1 & Hm1 & Ha1 & Hn1 & Ht1).
    pose proof (stream_step_consistent file_size prefix st effs0 ev i st1 Hc) as Hsc.
    rewrite Hs in Hsc. destruct (Hsc eq_refl) as (Hc1 & _ & _). cbn in Hc1.
    destruct (IH _ _ _ _ _ Hc1 Hr) as (Hh2 & Hm2 & Ha2 & Hn2 & Ht2).
    split; [|split; [|split; [|split]]].
    + rewrite Hh2, Hh1. split.
      * intros [[? | ->] | [j Hj]]; [auto | right; exists i | right; exists j].
        -- apply elem_of_cons. left. reflexivity.
        -- apply elem_of_cons. right. assumption.
      * intros [?|[j Hj]]; [auto|].
        apply elem_of_cons in Hj as [Hj|Hj]; [|right; eauto].
        injection Hj as <- <-. auto.
    + auto.
    + intros d. rewrite sent_app, elem_of_app. intros [Hd|Hd]; [|auto].
      destruct (Ha1 d Hd) as [?|(s & Hs1 & Hs2)]; [auto|]. right. eauto.
    + intros j Hj. destruct (Hn2 j Hj) as [Hj1|(a & Ha & Hin)].
      * destruct (Hn1 j Hj1) as [?|(a & Ha & Hin)]; [auto|].
        right. exists a. split; [assumption|].
        rewrite sent_app, elem_of_app. auto.
      * right. exists a. split; [assumption|].
        rewrite sent_app, elem_of_app. auto.
    + destruct Ht1 as [Ht1|[Hz Ht1]].
      * rewrite <- Ht1. exact Ht2.
      * destruct Ht2 as [Ht2|[Hz2 _]]; [rewrite Ht2; auto | lia].
Qed.

(** The receiver's ACKs and its delivered set say the same thing.  At
    every point of the data loop each datagram sent so far is RTT_ACK or
    the ACK of a delivered sequence number, and a sequence number is
    delivered (written or buffered) exactly when its ACK has been sent. *)
Theorem acks_match_delivered (file_size : Z) (high : bool)
    (evs : list (recv_event * Q)) (st : rstate) (effs : list effect) :
  run file_size evs (init high) = Some (st, effs) ->
  (forall d, d ∈ sent effs ->
     d = RTT_ACK
     \/ exists s, encode_ack s = Some d /\ s ∈ received_seq_nums st)
  /\ (forall s, s ∈ received_seq_nums st
                <-> exists a, encode_ack s = Some a /\ a ∈ sent effs).
Proof.
  intros Hr.
  destruct (run_ledger file_size evs [] _ [] _ _ (init_consistent high) Hr)
    as (_ & _ & Hack & Hnew & _).
  split; [exact Hack|]. intros s. split.
  - intros Hs. destruct (Hnew s Hs) as [Hin|?]; [|assumption].
    cbn in Hin. apply not_elem_of_empty in Hin. contradiction.
  - intros (a & Ha & Hin). destruct (Hack a Hin) as [->|(s' & Hs' & Hin')].
    + apply pack_u32_inv in Ha as Hrange.
      unfold encode_ack in Ha. rewrite (pack_u32_Some _ Hrange) in Ha.
      discriminate.
    + apply unpack_pack_u32 in Ha. apply unpack_pack_u32 in Hs'. congruence.
Qed.

(** [total_packets] is bound at most once.  While it is 0 nothing is
    delivered; the value it takes is a total between 1 and 100 000 read
    from a packet, or the count [E] derived from the size in the header;
    and once it is not 0 no later datagram, timeout or error changes it. *)
Theorem total_bound_once (file_size : Z) (high : bool)
    (evs : list (recv_event * Q)) (st : rstate) (effs : list effect) :
  run file_size evs (init high) = Some (st, effs) ->
  (total_packets st = 0
   \/ 1 <= total_packets st <= 100000
   \/ (total_packets st = expected_packets file_size
       /\ 1 <= expected_packets file_size))
  /\ (total_packets st = 0 ->
      received_seq_nums st = ∅ /\ expected_seq st = 0)
  /\ forall evs' st' effs',
       run file_size evs' st = Some (st', effs') ->
       total_packets st <> 0 ->
       total_packets st' = total_packets st.
Proof.
  intros Hr.
  destruct (run_ledger file_size evs [] _ [] _ _ (init_consistent high) Hr)
    as (_ & _ & _ & _ & Htot).
  destruct (run_consistent file_size evs [] _ [] _ _ (init_consistent high) Hr)
    as [Hc _]. cbn in Hc.
  split; [|split].
  - cbn in Htot. destruct Htot as [->|[_ ?]]; auto.
  - intros Hz. destruct Hc as [[Hb _ Hdel Hbuf _ _] _].
    split; [|lia]. apply set_eq. intros j. split.
    + intros [?|Hj]%Hdel; [lia | apply Hbuf in Hj; lia].
    + intros Hj. apply not_elem_of_empty in Hj. contradiction.
  - intros evs' st' effs' Hr' Hnz.
    destruct (run_ledger file_size evs' evs _ effs _ _ Hc Hr')
      as (_ & _ & _ & _ & [?|[? _]]); [assumption | contradiction].
Qed.

(** The receiver is in high_rtt mode exactly when it started the data
    loop in that mode or an RTT_PROBE has arrived since: the flag is
    never cleared, and nothing but a probe sets it. *)
Theorem high_mode_iff_probe (file_size : Z) (high : bool)
    (evs : list (recv_event * Q)) (st : rstate) (effs : list effect) :
  run file_size evs (init high) = Some (st, effs) ->
  (high_rtt_mode st = true
   <-> high = true \/ exists inactive, (Datagram RTT_PROBE, inactive) ∈ evs)
  /\ (forall inactive,
        (Datagram RTT_PROBE, inactive) ∈ evs -> RTT_ACK ∈ sent effs).
Proof.
  intros Hr.
  destruct (run_ledger file_size evs [] _ [] _ _ (init_consistent high) Hr)
    as (Hh & _).
  split; [exact Hh|].
  clear Hh. revert Hr. generalize (init high). revert st effs.
  induction evs as [|[ev i] evs IH]; intros st effs st0 Hr inactive Hin.
  - apply elem_of_nil in Hin. contradiction.
  - cbn [run] in Hr.
    destruct (stream_step file_size st0 ev i) as [st1 e1| | |] eqn:Hs;
      try discriminate.
    destruct (run file_size evs st1) as [[st2 e2]|] eqn:Hr2; try discriminate.
    cbn in Hr. injection Hr as <- <-. rewrite sent_app, elem_of_app.
    apply elem_of_cons in Hin as [[= <- <-]|Hin].
    + left. cbn in Hs. injection Hs as <- <-.
      apply list_elem_of_singleton. reflexivity.
    + right. apply (IH _ _ _ Hr2 _ Hin).
Qed.

End ReceiverLedger.

(** ** The sender: the handshakes before and after the data *)

Section SenderHandshakes.
Import Wire Sender.

Lemma effects_emit {S : Type} pre (r : step_result S) :
  effects_of (emit pre r) = pre ++ effects_of r.
Proof. destruct r; reflexivity. Qed.

Lemma header_sync_sends header evs : forall r res rest,
  0 <= r <= MAX_RETRIES ->
  header_sync header evs r = (Some res, rest) ->
  exists k : nat,
    effects_of res = repeat (Sendto header) k
    /\ r + Z.of_nat k <= MAX_RETRIES
    /\ length evs = (k + length rest)%nat
    /\ match res with
       | Running r' _ => r' + 1 = r + Z.of_nat k /\ (1 <= k)%nat
       | Returned b _ => b = false /\ r + Z.of_nat k = MAX_RETRIES
       | Raised _ => (1 <= k)%nat
       end.
Proof.
  assert (Hrec : forall evs' r res rest,
            (forall r res rest, 0 <= r <= MAX_RETRIES ->
               header_sync header evs' r = (Some res, rest) ->
               exists k : nat,
                 effects_of res = repeat (Sendto header) k
                 /\ r + Z.of_nat k <= MAX_RETRIES
                 /\ length evs' = (k + length rest)%nat
                 /\ match res with
                    | Running r' _ => r' + 1 = r + Z.of_nat k /\ (1 <= k)%nat
                    | Returned b _ => b = false /\ r + Z.of_nat k = MAX_RETRIES
                    | Raised _ => (1 <= k)%nat
                    end) ->
            0 <= r < MAX_RETRIES ->
            (let '(r0, rest0) := header_sync header evs' (r + 1) in
             (emit [Sendto header] <$> r0, rest0)) = (Some res, rest) ->
            exists k : nat,
              effects_of res = repeat (Sendto header) k
              /\ r + Z.of_nat k <= MAX_RETRIES
              /\ S (length evs') = (k + length rest)%nat
              /\ match res with
                 | Running r' _ => r' + 1 = r + Z.of_nat k /\ (1 <= k)%nat
                 | Returned b _ => b = false /\ r + Z.of_nat k = MAX_RETRIES
                 | Raised _ => (1 <= k)%nat
                 end).
  { intros evs' r res rest IH Hr.
    destruct (header_sync header evs' (r + 1)) as [[r0|] rest0] eqn:Hs;
      [|discriminate].
    cbn. intros [= <- <-].
    destruct (IH (r + 1) r0 rest0 ltac:(lia) Hs) as (k & He & Hk & Hlen & Hres).
    exists (S k). rewrite effects_emit, He.
    split; [reflexivity|]. split; [lia|]. split; [lia|].
    destruct r0; cbn; [lia | split; [tauto | lia] | lia]. }
  induction evs as [|ev evs IH]; intros r res rest Hr; cbn [header_sync].
  - destruct (Z.ltb_spec r MAX_RETRIES); [discriminate|].
    intros [= <- <-]. exists 0%nat. cbn. split; [reflexivity|].
    split; [lia|]. split; [reflexivity|]. split; [reflexivity | lia].
  - destruct (Z.ltb_spec r MAX_RETRIES).
    + destruct ev as [ack| |w].
      * destruct (Utf8.valid ack).
        -- destruct (decide (ack = HEADER_ACK)).
           ++ intros [= <- <-]. exists 1%nat. cbn.
              split; [reflexivity|]. split; [lia|]. split; [reflexivity | lia].
           ++ apply Hrec; [exact IH | lia].
        -- intros [= <- <-]. exists 1%nat. cbn.
           split; [reflexivity|]. split; [lia|]. split; [reflexivity | lia].
      * apply Hrec; [exact IH | lia].
      * intros [= <- <-]. exists 1%nat. cbn.
        split; [reflexivity|]. split; [lia|]. split; [reflexivity | lia].
    + intros [= <- <-]. exists 0%nat. cbn. split; [reflexivity|].
      split; [lia|]. split; [reflexivity|]. split; [reflexivity | lia].
Qed.

Lemma header_sync_total header evs : forall r,
  MAX_RETRIES - r <= Z.of_nat (length evs) ->
  is_Some (header_sync header evs r).1.
Proof.
  induction evs as [|ev evs IH]; intros r Hlen; cbn [header_sync].
  - cbn in Hlen. destruct (Z.ltb_spec r MAX_RETRIES); [lia | cbn; eauto].
  - cbn [length] in Hlen.
    assert (Hnext : is_Some (let '(r0, rest0) := header_sync header evs (r + 1) in
                             (emit [Sendto header] <$> r0, rest0)).1).
    { specialize (IH (r + 1) ltac:(lia)).
      destruct (header_sync header evs (r + 1)) as [r0 rest0]. cbn in *.
      destruct IH as [x ->]. cbn. eauto. }
    destruct (Z.ltb_spec r MAX_RETRIES); [|cbn; eauto].
    destruct ev as [ack| |w]; [|exact Hnext|cbn; eauto].
    destruct (Utf8.valid ack); [|cbn; eauto].
    destruct (decide (ack = HEADER_ACK)); [cbn; eauto | exact Hnext].
Qed.

Lemma rtt_probe_sends n : forall evs res,
  rtt_probe n evs = Some res ->
  exists k : nat,
    effects_of res = repeat (Sendto RTT_PROBE) k
    /\ (k <= n)%nat
    /\ match res with
       | Running rtt _ =>
           (rtt = 0%Q /\ k = n)
           \/ (exists j, k = S j /\ evs !! j = Some (Datagram RTT_ACK, rtt))
       | Returned _ _ => False
       | Raised _ =>
           exists j w took, k = S j /\ evs !! j = Some (SockError w, took)
       end.
Proof.
  induction n as [|n IH]; intros evs res; cbn [rtt_probe].
  - intros [= <-]. exists 0%nat. cbn. auto.
  - assert (Hrec : forall ev evs',
              emit [Sendto RTT_PROBE] <$> rtt_probe n evs' = Some res ->
              exists k : nat,
                effects_of res = repeat (Sendto RTT_PROBE) k
                /\ (k <= S n)%nat
                /\ match res with
                   | Running rtt _ =>
                       (rtt = 0%Q /\ k = S n)
                       \/ (exists j, k = S j
                                     /\ (ev :: evs') !! j = Some (Datagram RTT_ACK, rtt))
                   | Returned _ _ => False
                   | Raised _ =>
                       exists j w took,
                         k = S j /\ (ev :: evs') !! j = Some (SockError w, took)
                   end).
    { intros ev evs'. destruct (rtt_probe n evs') as [r0|] eqn:Hp; [|discriminate].
      cbn. intros [= <-]. destruct (IH _ _ Hp) as (k & He & Hk & Hres).
      exists (S k). rewrite effects_emit, He. split; [reflexivity|].
      split; [lia|]. destruct r0; cbn.
      - destruct Hres as [[-> ->]|(j & -> & Hj)]; [auto|].
        right. exists (S j). auto.
      - contradiction.
      - destruct Hres as (j & w & took & -> & Hj). exists (S j), w, took. auto. }
    destruct evs as [|[[d| |w] took] evs']; [discriminate| | |].
    + destruct (decide (d = RTT_ACK)) as [->|Hd]; [|apply Hrec].
      intros [= <-]. exists 1%nat. cbn. split; [reflexivity|]. split; [lia|].
      right. exists 0%nat. auto.
    + apply Hrec.
    + intros [= <-]. exists 1%nat. cbn. split; [reflexivity|]. split; [lia|].
      exists 0%nat, w, took. auto.
Qed.

Lemma rtt_probe_total n : forall evs,
  (n <= length evs)%nat -> is_Some (rtt_probe n evs).
Proof.
  induction n as [|n IH]; intros evs Hlen; cbn [rtt_probe]; [eauto|].
  destruct evs as [|[[d| |w] took] evs']; cbn [length] in Hlen; [lia| | |eauto].
  - destruct (decide (d = RTT_ACK)); [eauto|].
    destruct (IH evs' ltac:(lia)) as [x ->]. cbn. eauto.
  - destruct (IH evs' ltac:(lia)) as [x ->]. cbn. eauto.
Qed.

Lemma sent_repeat d k : sent (repeat (Sendto d) k) = repeat d k.
Proof. induction k as [|k IH]; [reflexivity|]. cbn. rewrite <- IH. reflexivity. Qed.

Lemma sent_settle_delay rtt : sent (settle_delay rtt) = [].
Proof.
  unfold settle_delay.
  destruct (extreme_rtt_mode rtt), (high_rtt_mode rtt); reflexivity.
Qed.

Lemma sent_term_shots rtt tp :
  sent (term_shots rtt tp) = repeat tp (Z.to_nat (repeat_count rtt)).
Proof. apply sent_shots. Qed.

Lemma term_loop_spec chunks start rtt tp rounds : forall r res,
  0 <= r <= MAX_RETRIES ->
  term_loop chunks start rtt tp rounds r = Some res ->
  exists (b : bool) effs (m : nat),
    res = Returned b effs
    /\ sent effs = repeat tp (m * Z.to_nat (repeat_count rtt))
    /\ r + Z.of_nat m <= MAX_RETRIES
    /\ (b = false ->
        exists now ev, rounds !! m = Some (now, ev)
                       /\ (MAX_TRANSFER_TIME < now - start)%Q)
    /\ (b = true ->
        r + Z.of_nat m = MAX_RETRIES
        \/ exists j now ack,
             m = S j /\ rounds !! j = Some (now, Datagram ack)
             /\ decode_ack ack = Some (total_packets chunks)).
Proof.
  induction rounds as [|[now ev] rounds IH]; intros r res Hr; cbn [term_loop].
  - destruct (Z.ltb_spec r MAX_RETRIES); [discriminate|].
    intros [= <-]. exists true, [], 0%nat. split; [reflexivity|].
    split; [reflexivity|]. split; [lia|]. split; [discriminate|]. left. lia.
  - destruct (Z.ltb_spec r MAX_RETRIES).
    2:{ intros [= <-]. exists true, [], 0%nat. split; [reflexivity|].
        split; [reflexivity|]. split; [lia|]. split; [discriminate|]. left. lia. }
    destruct (Qgtb (now - start) MAX_TRANSFER_TIME) eqn:Hdead.
    { intros [= <-]. exists false, [], 0%nat. split; [reflexivity|].
      split; [reflexivity|]. split; [lia|]. split; [|discriminate].
      intros _. exists now, ev. split; [reflexivity|].
      apply Qltb_lt. exact Hdead. }
    assert (Hrec : forall pre,
              sent pre = [] ->
              emit (term_shots rtt tp) <$>
                (emit pre <$> term_loop chunks start rtt tp rounds (r + 1))
              = Some res ->
              exists (b : bool) effs (m : nat),
                res = Returned b effs
                /\ sent effs = repeat tp (m * Z.to_nat (repeat_count rtt))
                /\ r + Z.of_nat m <= MAX_RETRIES
                /\ (b = false ->
                    exists now' ev', ((now, ev) :: rounds) !! m = Some (now', ev')
                                     /\ (MAX_TRANSFER_TIME < now' - start)%Q)
                /\ (b = true ->
                    r + Z.of_nat m = MAX_RETRIES
                    \/ exists j now' ack,
                         m = S j /\ ((now, ev) :: rounds) !! j
                                    = Some (now', Datagram ack)
                         /\ decode_ack ack = Some (total_packets chunks))).
    { intros pre Hpre.
      destruct (term_loop chunks start rtt tp rounds (r + 1)) as [r0|] eqn:Ht;
        [|discriminate].
      cbn. intros [= <-].
      destruct (IH (r + 1) r0 ltac:(lia) Ht) as (b & effs & m & -> & Hs & Hm & Hf & Ht').
      exists b, (term_shots rtt tp ++ pre ++ effs), (S m).
      split; [reflexivity|]. split.
      { rewrite !sent_app, sent_term_shots, Hpre, Hs. cbn [app].
        rewrite <- repeat_app. reflexivity. }
      split; [lia|]. split.
      - intros Hb. destruct (Hf Hb) as (now' & ev' & Hl & Hd). eauto.
      - intros Hb. destruct (Ht' Hb) as [?|(j & now' & ack & -> & Hl & Hd)];
          [left; lia|].
        right. exists (S j), now', ack. auto. }
    assert (Hrec0 :
              emit (term_shots rtt tp) <$>
                term_loop chunks start rtt tp rounds (r + 1) = Some res ->
              exists (b : bool) effs (m : nat),
                res = Returned b effs
                /\ sent effs = repeat tp (m * Z.to_nat (repeat_count rtt))
                /\ r + Z.of_nat m <= MAX_RETRIES
                /\ (b = false ->
                    exists now' ev', ((now, ev) :: rounds) !! m = Some (now', ev')
                                     /\ (MAX_TRANSFER_TIME < now' - start)%Q)
                /\ (b = true ->
                    r + Z.of_nat m = MAX_RETRIES
                    \/ exists j now' ack,
                         m = S j /\ ((now, ev) :: rounds) !! j
                                    = Some (now', Datagram ack)
                         /\ decode_ack ack = Some (total_packets chunks))).
    { intros H0. apply (Hrec []); [reflexivity|].
      destruct (term_loop chunks start rtt tp rounds (r + 1)) as [r0|];
        [|discriminate].
      cbn in *. rewrite <- H0. destruct r0; reflexivity. }
    destruct ev as [ack| |w]; [| |exact Hrec0].
    + destruct (decode_ack ack) as [ack_num|] eqn:Hack; [|exact Hrec0].
      destruct (Z.eqb_spec ack_num (total_packets chunks)) as [->|Hne];
        [|exact Hrec0].
      cbn. intros [= <-].
      exists true, (term_shots rtt tp ++ []), 1%nat.
      split; [reflexivity|]. split.
      { rewrite app_nil_r, sent_term_shots. f_equal. lia. }
      split; [lia|]. split; [discriminate|]. intros _. right.
      exists 0%nat, now, ack. auto.
    + apply Hrec, sent_settle_delay.
Qed.

Lemma term_loop_total chunks start rtt tp rounds : forall r,
  MAX_RETRIES - r <= Z.of_nat (length rounds) ->
  is_Some (term_loop chunks start rtt tp rounds r).
Proof.
  induction rounds as [|[now ev] rounds IH]; intros r Hlen; cbn [term_loop].
  - cbn in Hlen. destruct (Z.ltb_spec r MAX_RETRIES); [lia | eauto].
  - cbn [length] in Hlen.
    destruct (Z.ltb_spec r MAX_RETRIES); [|eauto].
    destruct (Qgtb (now - start) MAX_TRANSFER_TIME); [eauto|].
    destruct (IH (r + 1) ltac:(lia)) as [x Hx]. rewrite Hx.
    destruct ev as [ack| |w]; cbn; eauto.
    destruct (decode_ack ack) as [ack_num|]; cbn; eauto.
    destruct (ack_num =? total_packets chunks); cbn; eauto.
Qed.

End SenderHandshakes.

(** The header handshake sends the header once for every [recvfrom], at
    most 25 times in all.  It is left with [retries = k - 1] when
    HEADER_ACK answers the k-th header, and gives up, with the result
    False, exactly after 25 headers.  With 25 events to consume it always
    comes to an end. *)
Theorem header_handshake_bound (header : bytes) (evs : list recv_event) :
  ((25 <= length evs)%nat ->
   is_Some (Sender.header_sync header evs 0).1)
  /\ forall res rest,
       Sender.header_sync header evs 0 = (Some res, rest) ->
       exists k : nat,
         effects_of res = repeat (Sendto header) k
         /\ (k <= 25)%nat
         /\ length evs = (k + length rest)%nat
         /\ match res with
            | Running r _ => r + 1 = Z.of_nat k
            | Returned b _ => b = false /\ k = 25%nat
            | Raised _ => (1 <= k)%nat
            end.
Proof.
  split.
  - intros Hlen. apply header_sync_total. unfold MAX_RETRIES. lia.
  - intros res rest Hs.
    destruct (header_sync_sends header evs 0 res rest) as (k & He & Hk & Hlen & Hres);
      [unfold MAX_RETRIES; lia | exact Hs |].
    unfold MAX_RETRIES in *. exists k. split; [exact He|]. split; [lia|].
    split; [exact Hlen|]. destruct res; [lia | split; [tauto | lia] | exact Hres].
Qed.

(** RTT probing sends RTT_PROBE at most three times and nothing else,
    never makes [send_file] return, and leaves [initial_rtt] at 0 unless
    the answer to the last probe sent was RTT_ACK, in which case it is the
    time that this attempt took.  It raises only on a socket error. *)
Theorem rtt_probe_outcome (evs : list (recv_event * Q)) :
  ((3 <= length evs)%nat -> is_Some (Sender.rtt_probe 3 evs))
  /\ forall res,
       Sender.rtt_probe 3 evs = Some res ->
       exists k : nat,
         effects_of res = repeat (Sendto RTT_PROBE) k
         /\ (k <= 3)%nat
         /\ match res with
            | Running rtt _ =>
                (rtt = 0%Q /\ k = 3%nat)
                \/ (exists j, k = S j /\ evs !! j = Some (Datagram RTT_ACK, rtt))
            | Returned _ _ => False
            | Raised _ =>
                exists j w took, k = S j /\ evs !! j = Some (SockError w, took)
            end.
Proof. split; [apply rtt_probe_total | apply rtt_probe_sends]. Qed.

(** The termination handshake of a file of [N < 2^32] chunks always
    makes [send_file] return: after [m <= 25] rounds, in each of which it
    sent the marker [repeat_count] times and nothing else.  The result is
    False only when the deadline had passed at the top of a round.  The
    result True does not need an acknowledgement: it is also what 25
    rounds without the ACK of [N] give. *)
Theorem termination_outcome (chunks : list bytes) (start_time initial_rtt : Q)
    (rounds : list (Q * recv_event)) :
  let N := Sender.total_packets chunks in
  N < 2 ^ 32 ->
  ((25 <= length rounds)%nat ->
   is_Some (Sender.termination chunks start_time initial_rtt rounds))
  /\ forall res,
       Sender.termination chunks start_time initial_rtt rounds = Some res ->
       exists (b : bool) effs (m : nat) marker,
         res = Returned b effs
         /\ Wire.decode_data marker = Some (N, N, [])
         /\ sent effs
            = repeat marker (m * Z.to_nat (Sender.repeat_count initial_rtt))
         /\ (m <= 25)%nat
         /\ (b = false ->
             exists now ev, rounds !! m = Some (now, ev)
                            /\ (MAX_TRANSFER_TIME < now - start_time)%Q)
         /\ (b = true ->
             m = 25%nat
             \/ exists j now ack,
                  m = S j /\ rounds !! j = Some (now, Datagram ack)
                  /\ Wire.decode_ack ack = Some N).
Proof.
  intros N HN.
  assert (Hrange : 0 <= N < 2 ^ 32) by (unfold N, Sender.total_packets in *; lia).
  assert (Hm : exists marker, Wire.encode_data N N [] = Some marker
                              /\ Wire.decode_data marker = Some (N, N, [])).
  { unfold Wire.encode_data. rewrite (pack_u32_Some _ Hrange).
    eexists. split; [reflexivity|]. cbn. rewrite !be32_digits by exact Hrange.
    reflexivity. }
  destruct Hm as (marker & Hm & Hdec).
  unfold Sender.termination. fold N. rewrite Hm. split.
  - intros Hlen. apply term_loop_total. unfold MAX_RETRIES. lia.
  - intros res Hres.
    destruct (term_loop_spec chunks start_time initial_rtt marker rounds 0 res)
      as (b & effs & m & -> & Hs & Hle & Hf & Ht);
      [unfold MAX_RETRIES; lia | exact Hres |].
    unfold MAX_RETRIES in *. exists b, effs, m, marker.
    split; [reflexivity|]. split; [exact Hdec|]. split; [exact Hs|].
    split; [lia|]. split; [exact Hf|].
    intros Hb. destruct (Ht Hb) as [?|?]; [left; lia | right; assumption].
Qed.

(** ** The sender: parameters of the session *)

Section SenderParameters.
Import Wire Sender.

Lemma extreme_is_high rtt : extreme_rtt_mode rtt = true -> high_rtt_mode rtt = true.
Proof.
  unfold extreme_rtt_mode, high_rtt_mode, Qgtb. rewrite !Qltb_lt. lra.
Qed.

Lemma effective_timeout_bounds rtt :
  (rtt < effective_timeout rtt)%Q
  /\ (TIMEOUT <= effective_timeout rtt)%Q
  /\ (high_rtt_mode rtt = true -> 5 # 10 <= effective_timeout rtt)%Q.
Proof.
  unfold effective_timeout, TIMEOUT.
  destruct (extreme_rtt_mode rtt) eqn:He.
  - apply Qltb_lt in He.
    pose proof (Q.le_max_l 1 (rtt * 3)). pose proof (Q.le_max_r 1 (rtt * 3)).
    set (m := Qmax 1 (rtt * 3)) in *. clearbody m.
    split; [lra|]. split; [lra|]. intros _. lra.
  - apply Qltb_ge in He. destruct (high_rtt_mode rtt) eqn:Hh.
    + apply Qltb_lt in Hh.
      pose proof (Q.le_max_l (5 # 10) (rtt * 2)).
      pose proof (Q.le_max_r (5 # 10) (rtt * 2)).
      set (m := Qmax (5 # 10) (rtt * 2)) in *. clearbody m.
      split; [lra|]. split; [lra|]. intros _. lra.
    + apply Qltb_ge in Hh. split; [lra|]. split; [lra | discriminate].
Qed.

Lemma backoff_timeout_floor rtt r :
  0 <= r -> (16 # 100 <= backoff_timeout rtt r)%Q.
Proof.
  intros Hr.
  destruct (effective_timeout_bounds rtt) as (_ & Ht & _). unfold TIMEOUT in Ht.
  assert (Hscale : forall q e, (1 <= q)%Q -> 0 <= e ->
            (16 # 100 <= effective_timeout rtt * q ^ e)%Q).
  { intros q e Hq He. pose proof (Qpower_1_le q e Hq He) as Hp.
    assert (0 <= (effective_timeout rtt - (2 # 10)) * (q ^ e))%Q
      by (apply Qmult_le_0_compat; lra).
    lra. }
  unfold backoff_timeout.
  destruct (extreme_rtt_mode rtt); [|destruct (high_rtt_mode rtt)].
  - destruct (Z.eqb_spec r 0); [lra|].
    destruct (Z.leb_spec r 3); apply Hscale; try lra; lia.
  - destruct (Z.eqb_spec r 0); [lra|].
    destruct (Z.leb_spec r 3); apply Hscale; try lra; lia.
  - unfold TIMEOUT. destruct (Z.leb_spec r 1); [lra|].
    destruct (Z.leb_spec r 3); [lra|].
    pose proof (Qpower_1_le (105 # 100) (r - 3) ltac:(lra) ltac:(lia)) as Hp.
    lra.
Qed.

Lemma send_burst_count chunks rtt clock b : forall st st' effs,
  window_ok chunks st ->
  Z.of_nat (size (window st)) <= effective_window rtt ->
  send_burst chunks rtt b clock st = Running st' effs ->
  Z.of_nat (length (sent effs))
  = Z.min (Z.of_nat b)
          (Z.min (effective_window rtt - Z.of_nat (size (window st)))
                 (total_packets chunks - next_seq_num st))
  /\ next_seq_num st' = next_seq_num st + Z.of_nat (length (sent effs))
  /\ size (window st') = (size (window st) + length (sent effs))%nat
  /\ length effs = length (sent effs).
Proof.
  induction b as [|b IH]; intros st st' effs Hok Hsize; cbn [send_burst].
  - intros [= <- <-]. cbn. pose proof (wok_next _ _ Hok). lia.
  - pose proof (wok_next _ _ Hok) as Hn.
    destruct (Z.ltb_spec (Z.of_nat (size (window st))) (effective_window rtt));
      destruct (Z.ltb_spec (next_seq_num st) (total_packets chunks));
      cbn [andb]; try (intros [= <- <-]; cbn; lia).
    destruct (send_next chunks clock st) as [st1 e| |] eqn:Hs; try discriminate.
    intros (e' & Hr & ->)%emit_running.
    destruct (send_next_ok chunks clock st st1 e Hok ltac:(lia) Hs)
      as (Hok1 & _ & Hn1 & Hs1 & _).
    destruct (IH st1 st' e' Hok1 ltac:(lia) Hr) as (Hc & Hn' & Hs' & Hl).
    assert (He : exists pkt, e = Sendto pkt).
    { unfold send_next in Hs. destruct (chunks !! _); [|discriminate].
      destruct (encode_data _ _ _); [|discriminate].
      injection Hs as _ <-. eauto. }
    destruct He as [pkt ->].
    change (sent ([Sendto pkt] ++ e')) with (pkt :: sent e').
    change (length ([Sendto pkt] ++ e')) with (S (length e')).
    cbn [length]. rewrite Hs1, Hn1 in *. lia.
Qed.

End SenderParameters.

(** The timeout of the session is always more than the round-trip time
    that the probe measured and never less than [TIMEOUT]; extreme_rtt
    mode implies high_rtt mode; and outside high_rtt mode the timeout and
    the window are the constants of the file. *)
Theorem timeout_exceeds_rtt (initial_rtt : Q) :
  (initial_rtt < Sender.effective_timeout initial_rtt)%Q
  /\ (TIMEOUT <= Sender.effective_timeout initial_rtt)%Q
  /\ (Sender.extreme_rtt_mode initial_rtt = true ->
      Sender.high_rtt_mode initial_rtt = true
      /\ (1 <= Sender.effective_timeout initial_rtt)%Q
      /\ Sender.effective_window initial_rtt = 192)
  /\ (Sender.high_rtt_mode initial_rtt = false ->
      Sender.effective_timeout initial_rtt = TIMEOUT
      /\ Sender.effective_window initial_rtt = WINDOW_SIZE).
Proof.
  destruct (effective_timeout_bounds initial_rtt) as (H1 & H2 & _).
  split; [exact H1|]. split; [exact H2|]. split.
  - intros He. pose proof (extreme_is_high _ He) as Hh.
    unfold Sender.effective_timeout, Sender.effective_window. rewrite He.
    split; [exact Hh|]. split; [apply Q.le_max_l | reflexivity].
  - intros Hh. unfold Sender.effective_timeout, Sender.effective_window.
    destruct (Sender.extreme_rtt_mode initial_rtt) eqn:He.
    + apply extreme_is_high in He. congruence.
    + rewrite Hh. split; reflexivity.
Qed.

(** The retransmission timeout of a window entry is never below 20 ms,
    whatever the mode, the retry count, the time left and the progress;
    and while at least half of the time is left it is at least 160 ms. *)
Theorem dynamic_timeout_floor (initial_rtt : Q) (r : Z)
    (remaining progress : Q) :
  0 <= r ->
  (2 # 100 <= Sender.dynamic_timeout initial_rtt r remaining progress)%Q
  /\ ((50 <= remaining)%Q ->
      (16 # 100 <= Sender.dynamic_timeout initial_rtt r remaining progress)%Q).
Proof.
  intros Hr. pose proof (backoff_timeout_floor initial_rtt r Hr) as Hb.
  rewrite dynamic_timeout_cases. unfold TIMEOUT. split.
  - destruct (Qltb remaining 20 && Qgtb progress 75); [lra|].
    destruct (Qltb remaining 50); [|lra].
    pose proof (Q.le_max_l ((2 # 10) * (2 # 10))
                  (Sender.backoff_timeout initial_rtt r * (4 # 10))).
    lra.
  - intros H50.
    assert (H20 : Qltb remaining 20 = false) by (apply Qltb_ge; lra).
    assert (H50' : Qltb remaining 50 = false) by (apply Qltb_ge; lra).
    rewrite H20, H50'. exact Hb.
Qed.

(** The burst at the top of a pass sends exactly as many new packets as
    the burst cap, the free places of the window and the chunks not yet
    sent allow, each entering the window; the cap is between 8 and 768. *)
Theorem burst_count (chunks : list bytes) (start_time initial_rtt : Q)
    (tk : Sender.tick) (st st1 : Sender.sstate) (effs : list effect) :
  Sender.reachable chunks start_time initial_rtt st ->
  Sender.after_burst chunks start_time initial_rtt tk st = Running st1 effs ->
  let cap :=
    Sender.max_burst initial_rtt
      (Sender.remaining_time_percent start_time (Sender.now_top tk))
      (Sender.actual_progress_percent chunks (Sender.base_seq_num st)) in
  let free :=
    Sender.effective_window initial_rtt - Z.of_nat (size (Sender.window st)) in
  let unsent := Sender.total_packets chunks - Sender.next_seq_num st in
  8 <= cap <= 768
  /\ Z.of_nat (length (sent effs)) = Z.min cap (Z.min free unsent)
  /\ Sender.next_seq_num st1
     = Sender.next_seq_num st + Z.of_nat (length (sent effs))
  /\ size (Sender.window st1)
     = (size (Sender.window st) + length (sent effs))%nat
  /\ Sender.base_seq_num st1 = Sender.base_seq_num st.
Proof.
  intros Hr Hb cap free unsent.
  assert (Hcap : 8 <= cap <= 768).
  { subst cap. unfold Sender.max_burst.
    repeat match goal with
           | |- context [if ?b then _ else _] => destruct b
           end; lia. }
  split; [exact Hcap|].
  pose proof (reachable_ok _ _ _ _ Hr) as Hok.
  pose proof (Flight.fl_size _ _ _ (reachable_flight _ _ _ _ Hr)) as Hsize.
  unfold Sender.after_burst in Hb. fold cap in Hb.
  destruct (send_burst_count _ _ _ _ _ _ _ Hok Hsize Hb) as (Hc & Hn & Hs & _).
  destruct (send_burst_ok _ _ _ _ _ _ _ Hok Hb) as (_ & Hbase & _).
  rewrite Z2Nat.id in Hc by lia. auto.
Qed.

(** ** The sender: a pass that times out *)

Section SenderTimeoutPass.
Import Wire Sender Flight.

Lemma omap_ext_in {A B} (f g : A -> option B) (l : list A) :
  (forall x, x ∈ l -> f x = g x) -> omap f l = omap g l.
Proof.
  induction l as [|x l IH]; intros H; [reflexivity|]. cbn.
  rewrite (H x) by (apply elem_of_cons; auto).
  rewrite IH by (intros y Hy; apply H, elem_of_cons; auto). reflexivity.
Qed.

Lemma window_keys_NoDup (w : gmap Z entry) : NoDup (window_keys w).
Proof.
  unfold window_keys. rewrite merge_sort_Permutation. apply NoDup_elements.
Qed.

Lemma retransmit_spec start rtt now progress keys : forall st,
  NoDup keys ->
  (forall k, k ∈ keys -> is_Some (window st !! k)) ->
  match retransmit start rtt keys now progress st with
  | Running st' effs =>
      base_seq_num st' = base_seq_num st
      /\ next_seq_num st' = next_seq_num st
      /\ (forall k, k ∉ keys -> window st' !! k = window st !! k)
      /\ (forall k e, k ∈ keys -> window st !! k = Some e ->
            if overdue start rtt now progress e
            then retries e < MAX_RETRIES
                 /\ window st' !! k = Some (resent now e)
            else window st' !! k = Some e)
      /\ sent effs
         = omap (fun k => e ← window st !! k;
                          if overdue start rtt now progress e
                          then Some (packet e) else None) keys
  | Returned b _ =>
      b = false
      /\ exists k e, k ∈ keys /\ window st !! k = Some e
                     /\ overdue start rtt now progress e = true
                     /\ MAX_RETRIES <= retries e
  | Raised _ => False
  end.
Proof.
  induction keys as [|k ks IH]; intros st Hnd Hin; cbn [retransmit].
  - split; [reflexivity|]. split; [reflexivity|]. split; [reflexivity|].
    split; [|reflexivity]. intros k e Hk. apply elem_of_nil in Hk. contradiction.
  - apply NoDup_cons in Hnd as [Hk Hnd].
    destruct (Hin k ltac:(apply elem_of_cons; auto)) as [e He]. rewrite He.
    fold (overdue start rtt now progress e).
    destruct (overdue start rtt now progress e) eqn:Hov.
    + destruct (Z.geb_spec (retries e) MAX_RETRIES) as [Hge|Hlt].
      { split; [reflexivity|]. exists k, e.
        split; [apply elem_of_cons; auto|]. auto. }
      set (st1 := {| window := <[k := Entry (packet e) now (retries e + 1)]>
                                 (window st);
                     next_seq_num := next_seq_num st;
                     base_seq_num := base_seq_num st |}).
      assert (Hsame : forall j, j <> k -> window st1 !! j = window st !! j).
      { intros j Hj. cbn. apply lookup_insert_ne. congruence. }
      specialize (IH st1 Hnd).
      destruct (retransmit start rtt ks now progress st1) as [st' effs|b effs|effs];
        cbn [emit].
      * destruct IH as (Hb & Hn & Hout & Hent & Hsent).
        { intros j Hj. rewrite Hsame by (intros ->; contradiction).
          apply Hin, elem_of_cons. auto. }
        split; [exact Hb|]. split; [exact Hn|]. split; [|split].
        -- intros j Hj. apply not_elem_of_cons in Hj as [Hjk Hj].
           rewrite Hout by exact Hj. apply Hsame, Hjk.
        -- intros j x Hj Hx. apply elem_of_cons in Hj as [->|Hj].
           ++ rewrite He in Hx. injection Hx as <-. rewrite Hov.
              split; [lia|]. rewrite Hout by exact Hk. cbn.
              apply lookup_insert_eq.
           ++ apply Hent; [exact Hj|].
              rewrite Hsame by (intros ->; contradiction). exact Hx.
        -- change (sent ([Sendto (packet e)] ++ effs))
             with (packet e :: sent effs).
           cbn. rewrite He. cbn. rewrite Hov, Hsent. f_equal.
           apply omap_ext_in. intros j Hj.
           rewrite Hsame by (intros ->; contradiction). reflexivity.
      * destruct IH as (Hb & j & x & Hj & Hx & Hox & Hrx).
        { intros j Hj. rewrite Hsame by (intros ->; contradiction).
          apply Hin, elem_of_cons. auto. }
        split; [exact Hb|]. exists j, x. split; [apply elem_of_cons; auto|].
        rewrite Hsame in Hx by (intros ->; contradiction). auto.
      * apply IH. intros j Hj. rewrite Hsame by (intros ->; contradiction).
        apply Hin, elem_of_cons. auto.
    + specialize (IH st Hnd ltac:(intros j Hj; apply Hin, elem_of_cons; auto)).
      destruct (retransmit start rtt ks now progress st) as [st' effs|b effs|effs].
      * destruct IH as (Hb & Hn & Hout & Hent & Hsent).
        split; [exact Hb|]. split; [exact Hn|]. split; [|split].
        -- intros j Hj. apply not_elem_of_cons in Hj as [_ Hj]. apply Hout, Hj.
        -- intros j x Hj Hx. apply elem_of_cons in Hj as [->|Hj].
           ++ rewrite He in Hx. injection Hx as <-. rewrite Hov.
              rewrite Hout by exact Hk. exact He.
           ++ apply Hent; assumption.
        -- cbn. rewrite He. cbn. rewrite Hov. exact Hsent.
      * destruct IH as (Hb & j & x & Hj & Hx). split; [exact Hb|].
        exists j, x. split; [apply elem_of_cons; auto | exact Hx].
      * exact IH.
Qed.

End SenderTimeoutPass.

(** What a socket timeout does to the window, in any state.  The pass
    never raises and adds or removes no entry.  It gives up, with the
    result False, only at an overdue entry that has been retransmitted
    25 times.  Otherwise it re-sends the packets of the overdue entries
    and nothing else, in the order of the window, and each of them gets
    the time of the handler and one more retry, while the other entries
    are left as they are. *)
Theorem timeout_pass (start_time initial_rtt now progress : Q)
    (st : Sender.sstate) :
  let keys := Sender.window_keys (Sender.window st) in
  let due := Flight.overdue start_time initial_rtt now progress in
  match Sender.retransmit start_time initial_rtt keys now progress st with
  | Running st' effs =>
      Sender.base_seq_num st' = Sender.base_seq_num st
      /\ Sender.next_seq_num st' = Sender.next_seq_num st
      /\ (forall k,
            Sender.window st' !! k
            = (fun e => if due e then Flight.resent now e else e)
                <$> Sender.window st !! k)
      /\ (forall k e, Sender.window st !! k = Some e -> due e = true ->
            Sender.retries e < MAX_RETRIES)
      /\ sent effs
         = omap (fun k => e ← Sender.window st !! k;
                          if due e then Some (Sender.packet e) else None) keys
  | Returned b _ =>
      b = false
      /\ exists k e, Sender.window st !! k = Some e /\ due e = true
                     /\ MAX_RETRIES <= Sender.retries e
  | Raised _ => False
  end.
Proof.
  intros keys due.
  pose proof (retransmit_spec start_time initial_rtt now progress keys st
                (window_keys_NoDup _)
                (fun k Hk => proj1 (window_keys_spec _ k) Hk)) as H.
  destruct (Sender.retransmit start_time initial_rtt keys now progress st)
    as [st' effs|b effs|effs]; [| |exact H].
  - destruct H as (Hb & Hn & Hout & Hent & Hsent).
    split; [exact Hb|]. split; [exact Hn|]. split; [|split; [|exact Hsent]].
    + intros k. destruct (Sender.window st !! k) as [e|] eqn:He; cbn.
      * assert (Hk : k ∈ keys) by (apply window_keys_spec; rewrite He; eauto).
        specialize (Hent k e Hk He). fold due in Hent.
        destruct (due e); [apply Hent | exact Hent].
      * rewrite Hout; [exact He|]. intros Hk%window_keys_spec.
        rewrite He in Hk. destruct Hk; discriminate.
    + intros k e He Hd.
      assert (Hk : k ∈ keys) by (apply window_keys_spec; rewrite He; eauto).
      specialize (Hent k e Hk He). fold due in Hent. rewrite Hd in Hent.
      apply Hent.
  - destruct H as (Hb & k & e & _ & He & Hd & Hr). split; [exact Hb|].
    exists k, e. auto.
Qed.

(** ** The sender: files of fewer than 20 chunks *)

Section SenderSmallFile.
Import Wire Sender.
Variable chunks : list bytes.
Variables start_time initial_rtt : Q.
Local Abbreviation Ns := (total_packets chunks).
Hypothesis HN32 : Ns < 2 ^ 32.

Lemma send_next_succeeds clock st :
  0 <= next_seq_num st < Ns ->
  exists st' e, send_next chunks clock st = SentOk st' e
                /\ next_seq_num st' = next_seq_num st + 1.
Proof.
  intros Hn. unfold send_next.
  destruct (chunks !! Z.to_nat (next_seq_num st)) as [chunk|] eqn:Hc.
  - unfold encode_data.
    rewrite (pack_u32_Some (next_seq_num st)) by lia.
    rewrite (pack_u32_Some Ns) by (unfold total_packets in *; lia).
    eexists _, _. split; reflexivity.
  - apply lookup_ge_None in Hc. unfold total_packets in Hn. lia.
Qed.

Lemma send_extra_no_exception clock n : forall st st' effs exn,
  0 <= next_seq_num st ->
  send_extra chunks n clock st = (st', effs, exn) -> exn = None.
Proof.
  induction n as [|n IH]; intros st st' effs exn Hn; cbn [send_extra].
  - intros [= _ _ <-]. reflexivity.
  - destruct (Z.ltb_spec (next_seq_num st) Ns); [|apply IH; exact Hn].
    destruct (send_next_succeeds clock st ltac:(lia)) as (st1 & e & -> & Hn1).
    destruct (send_extra chunks n clock st1) as [[st2 e2] exn2] eqn:Hs.
    intros [= _ _ <-]. apply (IH st1 st2 e2 exn2); [lia | exact Hs].
Qed.

Lemma send_burst_never_returns clock b : forall st r e,
  send_burst chunks initial_rtt b clock st <> Returned r e.
Proof.
  induction b as [|b IH]; intros st r e; cbn [send_burst]; [discriminate|].
  destruct (_ && _); [|discriminate].
  destruct (send_next chunks clock st) as [st1 e1| |]; try discriminate.
  specialize (IH st1).
  destruct (send_burst chunks initial_rtt b clock st1) as [st2 e2|r2 e2|e2];
    cbn; try discriminate.
  intros _. apply (IH r2 e2). reflexivity.
Qed.

Lemma handle_ack_never_returns clock remaining ack st r e :
  handle_ack chunks initial_rtt clock remaining ack st <> Returned r e.
Proof.
  unfold handle_ack. destruct (decode_ack ack); [|discriminate].
  destruct (bool_decide _); [|discriminate].
  destruct (if Qltb remaining 40 && _ then send_extra chunks _ _ _ else _)
    as [[st2 e2] exn].
  destruct exn as [[| |]|]; try discriminate.
  destruct (_ =? 0); discriminate.
Qed.

Lemma iteration_returns_false tk st b e :
  iteration chunks start_time initial_rtt tk st = Returned b e -> b = false.
Proof.
  unfold iteration. destruct (Qgtb _ _); [intros [= <- _]; reflexivity|].
  unfold after_burst.
  destruct (send_burst chunks initial_rtt _ _ st) as [st1 e1|b1 e1|e1] eqn:Hb;
    [|exfalso; eapply send_burst_never_returns; exact Hb|discriminate].
  unfold on_event. destruct (recv tk) as [ack| |w].
  - destruct (handle_ack _ _ _ _ ack st1) as [st2 e2|b2 e2|e2] eqn:Ha;
      [discriminate|exfalso; eapply handle_ack_never_returns; exact Ha|discriminate].
  - pose proof (timeout_pass_returns := retransmit_spec start_time initial_rtt
                  (now_recv tk) (actual_progress_percent chunks (base_seq_num st))
                  (window_keys (window st1)) st1 (window_keys_NoDup _)
                  (fun k Hk => proj1 (window_keys_spec _ k) Hk)).
    destruct (retransmit _ _ _ _ _ st1) as [st2 e2|b2 e2|e2]; cbn;
      [discriminate| |discriminate].
    intros [= <- _]. apply timeout_pass_returns.
  - discriminate.
Qed.

Lemma streaming_returns_false ticks : forall st b e,
  streaming chunks start_time initial_rtt ticks st = Some (Returned b e) ->
  b = false.
Proof.
  induction ticks as [|tk ticks IH]; intros st b e; cbn [streaming].
  - destruct (_ <? _); discriminate.
  - destruct (_ <? _); [|discriminate].
    destruct (iteration chunks start_time initial_rtt tk st) as [st1 e1|b1 e1|e1]
      eqn:Hi.
    + destruct (streaming chunks start_time initial_rtt ticks st1)
        as [[st2 e2|b2 e2|e2]|] eqn:Hs; cbn; try discriminate.
      intros [= <- _]. apply (IH _ _ _ Hs).
    + intros [= <- _]. apply (iteration_returns_false _ _ _ _ Hi).
    + discriminate.
Qed.

Hypothesis Hsmall : Ns / (if high_rtt_mode initial_rtt then 40 else 20) = 0.

Lemma handle_ack_small clock remaining ack st st' effs :
  0 <= next_seq_num st ->
  handle_ack chunks initial_rtt clock remaining ack st = Running st' effs ->
  st' = st.
Proof.
  intros Hn. unfold handle_ack.
  destruct (decode_ack ack); [|intros [= <- _]; reflexivity].
  destruct (bool_decide _); [|intros [= <- _]; reflexivity].
  destruct (if Qltb remaining 40 && _ then send_extra chunks _ _ _ else _)
    as [[st2 e2] exn] eqn:Hextra.
  assert (exn = None) as ->.
  { destruct (Qltb remaining 40 && _) in Hextra.
    - eapply send_extra_no_exception; [|exact Hextra]. exact Hn.
    - injection Hextra as _ _ <-. reflexivity. }
  rewrite Hsmall. cbn. discriminate.
Qed.

Lemma iteration_small tk st st' effs :
  window_ok chunks st ->
  iteration chunks start_time initial_rtt tk st = Running st' effs ->
  base_seq_num st' = base_seq_num st.
Proof.
  intros Hok. unfold iteration. destruct (Qgtb _ _); [discriminate|].
  destruct (after_burst chunks start_time initial_rtt tk st) as [st1 e1| |]
    eqn:Hb; try discriminate.
  intros (e2 & Hev & _)%emit_running.
  destruct (send_burst_ok _ _ _ _ _ _ _ Hok Hb) as (Hok1 & Hbase & _).
  unfold on_event in Hev. destruct (recv tk) as [ack| |w]; [| |discriminate].
  - apply handle_ack_small in Hev as ->; [exact Hbase|].
    pose proof (wok_base _ _ Hok1). lia.
  - apply retransmit_ok in Hev as (Hb' & _). congruence.
Qed.

Lemma streaming_small ticks : forall st r,
  window_ok chunks st -> base_seq_num st < Ns ->
  streaming chunks start_time initial_rtt ticks st = Some r ->
  match r with
  | Running _ _ => False
  | Returned b _ => b = false
  | Raised _ => True
  end.
Proof.
  induction ticks as [|tk ticks IH]; intros st r Hok Hbase; cbn [streaming];
    destruct (Z.ltb_spec (base_seq_num st) Ns); try lia; [discriminate|].
  destruct (iteration chunks start_time initial_rtt tk st) as [st1 e1|b1 e1|e1]
    eqn:Hi.
  - pose proof (iteration_small _ _ _ _ Hok Hi) as Hb1.
    destruct (iteration_ok _ _ _ _ _ _ _ Hok Hbase Hi) as (Hok1 & _).
    destruct (streaming chunks start_time initial_rtt ticks st1) as [r1|] eqn:Hs;
      [|discriminate].
    cbn. intros [= <-]. specialize (IH st1 r1 Hok1 ltac:(lia) Hs).
    destruct r1; exact IH.
  - intros [= <-]. apply (iteration_returns_false _ _ _ _ Hi).
  - intros [= <-]. exact I.
Qed.

End SenderSmallFile.

(** A file of 1 to 19 chunks (1 to 39 in high_rtt mode) never gets
    through the streaming loop.  [total_packets // 20] is 0 for it, so
    the first ACK of a packet in the window raises ZeroDivisionError in
    the progress test; [base_seq_num] stays 0 in every state that the
    loop reaches, and the loop ends by an exception or with the result
    False, never in the normal way. *)
Theorem small_file_stalls (chunks : list bytes) (start_time initial_rtt : Q)
    (ticks : list Sender.tick) (r : step_result Sender.sstate) :
  let N := Sender.total_packets chunks in
  1 <= N ->
  N / (if Sender.high_rtt_mode initial_rtt then 40 else 20) = 0 ->
  Sender.streaming chunks start_time initial_rtt ticks Sender.init = Some r ->
  match r with
  | Running _ _ => False
  | Returned b _ => b = false
  | Raised _ => True
  end.
Proof.
  intros N HN Hsmall Hs.
  assert (HN32 : N < 2 ^ 32).
  { destruct (Sender.high_rtt_mode initial_rtt);
      Z.div_mod_to_equations; lia. }
  apply (streaming_small chunks start_time initial_rtt HN32 Hsmall ticks
           Sender.init r (init_ok chunks)); [cbn; fold N; lia | exact Hs].
Qed.

(** ** [send_file] as a whole *)

Section SenderWhole.
Import Wire Sender.

Lemma repeat_count_values rtt :
  repeat_count rtt = 3 \/ repeat_count rtt = 10 \/ repeat_count rtt = 20.
Proof.
  unfold repeat_count.
  destruct (extreme_rtt_mode rtt), (high_rtt_mode rtt); auto.
Qed.

Lemma streaming_normal_exit chunks start rtt ticks st effs :
  streaming chunks start rtt ticks init = Some (Running st effs) ->
  (forall d, d ∈ sent effs ->
     exists k chunk,
       0 <= k < total_packets chunks /\ chunks !! Z.to_nat k = Some chunk
       /\ decode_data d = Some (k, total_packets chunks, chunk))
  /\ (forall k chunk,
        0 <= k < total_packets chunks -> chunks !! Z.to_nat k = Some chunk ->
        exists d, d ∈ sent effs
                  /\ decode_data d = Some (k, total_packets chunks, chunk))
  /\ (total_packets chunks = 0 \/ 20 <= total_packets chunks).
Proof.
  intros Hs.
  destruct (streaming_flight chunks start rtt ticks init []
              (init_ok chunks) (init_flight chunks rtt)
              (data_packets_nil chunks) (sent_between_nil chunks 0 [])
              _ Hs) as [Hd Hrun].
  destruct (Hrun _ _ eq_refl) as (Hok & _ & Hcov & Hge).
  cbn in Hd, Hcov. pose proof Hok as [Hb Hn _ _].
  split; [|split].
  - intros d Hin. destruct (Hd d Hin) as (k & Hk & Hp).
    destruct (packet_of_decode _ _ _ Hp) as (chunk & Hc & Hdec & _).
    exists k, chunk. auto.
  - intros k chunk Hk Hc. destruct (Hcov k) as (d & Hp & Hin); [lia|].
    exists d. split; [assumption|].
    destruct (packet_of_decode _ _ _ Hp) as (chunk' & Hc' & Hdec & _).
    rewrite Hc in Hc'. injection Hc' as <-. assumption.
  - destruct (Z.eq_dec (total_packets chunks) 0) as [?|Hnz]; [auto|]. right.
    destruct (Z.lt_ge_cases (total_packets chunks) 20) as [Hlt|?]; [|assumption].
    exfalso.
    assert (H1 : 1 <= total_packets chunks)
      by (unfold total_packets in *; lia).
    assert (H32 : total_packets chunks < 2 ^ 32) by lia.
    assert (Hq : total_packets chunks / (if high_rtt_mode rtt then 40 else 20) = 0)
      by (destruct (high_rtt_mode rtt); apply Z.div_small; lia).
    assert (H0 : base_seq_num init < total_packets chunks) by (cbn; lia).
    apply (streaming_small chunks start rtt H32 Hq ticks init _
             (init_ok chunks) H0 Hs).
Qed.

End SenderWhole.

(** What [send_file] has done when it returns True.  It sent, in this
    order: the header, 1 to 25 times; RTT_PROBE, 1 to 3 times; data
    packets of the file only, every chunk at least once; and the
    termination marker, 3 to 500 times.  The file is empty or has at least
    20 chunks. *)
Theorem send_file_true (header content : bytes) (start_time : Q)
    (env : Sender.environment) (effs : list effect) :
  Sender.send_file header content start_time env = Some (Returned true effs) ->
  let chunks := Sender.file_chunks content in
  let N := Sender.total_packets chunks in
  exists (h p m : nat) (ds : list bytes) (marker : bytes),
    sent effs = repeat header h ++ repeat RTT_PROBE p ++ ds ++ repeat marker m
    /\ (1 <= h <= 25)%nat /\ (1 <= p <= 3)%nat /\ (3 <= m <= 500)%nat
    /\ Wire.decode_data marker = Some (N, N, [])
    /\ (forall d, d ∈ ds ->
          exists k chunk,
            0 <= k < N /\ chunks !! Z.to_nat k = Some chunk
            /\ Wire.decode_data d = Some (k, N, chunk))
    /\ (forall k chunk,
          0 <= k < N -> chunks !! Z.to_nat k = Some chunk ->
          exists d, d ∈ ds /\ Wire.decode_data d = Some (k, N, chunk))
    /\ (content = [] \/ 20 <= N).
Proof.
  intros Hsf chunks N. unfold Sender.send_file in Hsf.
  assert (H0 : 0 <= 0 <= MAX_RETRIES) by (unfold MAX_RETRIES; lia).
  destruct (Sender.header_sync header (Sender.header_events env) 0)
    as [[[r0 e0|b0 e0|e0]|] rest] eqn:Hh; try discriminate.
  2:{ destruct (header_sync_sends _ _ _ _ _ H0 Hh)
        as (k & _ & _ & _ & Hb & _). congruence. }
  destruct (header_sync_sends _ _ _ _ _ H0 Hh)
    as (h & He0 & Hh25 & _ & _ & Hh1).
  cbn in He0. unfold MAX_RETRIES in Hh25.
  destruct (Sender.rtt_probe 3 (Sender.probe_events env))
    as [[rtt e1|b1 e1|e1]|] eqn:Hp; try discriminate.
  2:{ destruct (rtt_probe_sends _ _ _ Hp) as (k & _ & _ & []). }
  destruct (rtt_probe_sends _ _ _ Hp) as (p & He1 & Hp3 & Hp1). cbn in He1.
  assert (Hp1' : (1 <= p)%nat).
  { destruct Hp1 as [[_ ->]|(j & -> & _)]; lia. }
  fold chunks in Hsf.
  destruct (Sender.streaming chunks start_time rtt (Sender.stream_ticks env)
              Sender.init) as [[sst e2|b2 e2|e2]|] eqn:Hst; try discriminate.
  2:{ apply streaming_returns_false in Hst. cbn in Hsf. congruence. }
  destruct (streaming_normal_exit _ _ _ _ _ _ Hst) as (Hdata & Hcov & Hsize).
  fold N in Hdata, Hcov, Hsize.
  unfold Sender.termination in Hsf. fold N in Hsf.
  destruct (Wire.encode_data N N []) as [marker|] eqn:Hm; [|discriminate].
  destruct (Sender.term_loop chunks start_time rtt marker (Sender.term_rounds env) 0)
    as [res|] eqn:Ht; [|discriminate].
  destruct (term_loop_spec _ _ _ _ _ _ _ H0 Ht)
    as (b & e3 & m & -> & Hs3 & Hm25 & _ & Htrue).
  cbn in Hsf. injection Hsf as -> <-. unfold MAX_RETRIES in *.
  assert (Hm1 : (1 <= m <= 25)%nat).
  { destruct (Htrue eq_refl) as [Hx | (j & now & ack & Hx & _)]; lia. }
  exists h, p, (m * Z.to_nat (Sender.repeat_count rtt))%nat, (sent e2), marker.
  split.
  { rewrite !sent_app, He0, He1, !sent_repeat, Hs3. reflexivity. }
  split; [lia|]. split; [lia|]. split.
  { destruct (repeat_count_values rtt) as [-> | [-> | ->]]; lia. }
  split.
  { unfold Wire.encode_data in Hm.
    destruct (Wire.pack_u32 N) as [a|] eqn:Ha; [|discriminate].
    injection Hm as <-. pose proof (pack_u32_inv _ _ Ha) as Hr.
    rewrite (pack_u32_Some _ Hr) in Ha. injection Ha as <-.
    cbn. rewrite !be32_digits by exact Hr. reflexivity. }
  split; [exact Hdata|]. split; [exact Hcov|].
  destruct Hsize as [Hz|?]; [left | right; assumption].
  destruct content as [|b content]; [reflexivity|]. exfalso.
  destruct (file_chunks_count (b :: content)) as (_ & _ & Hpos).
  specialize (Hpos ltac:(discriminate)). fold chunks in Hpos. fold N in Hpos. lia.
Qed.

(** ** The header text and the receiver's header loop *)

Section HeaderText.
Import Wire Header.

Lemma split_nonempty d : split d <> [].
Proof.
  destruct d as [|b r]; cbn; [discriminate|].
  destruct (decide (b = colon)); [discriminate|].
  destruct (split r); discriminate.
Qed.

Lemma split_no_colon d : colon ∉ d -> split d = [d].
Proof.
  induction d as [|b r IH]; intros Hc; [reflexivity|]. cbn.
  apply not_elem_of_cons in Hc as [Hb Hr].
  destruct (decide (b = colon)) as [->|_]; [contradiction|].
  rewrite IH by exact Hr. reflexivity.
Qed.

Lemma split_app_colon a r :
  colon ∉ a -> split (a ++ colon :: r) = a :: split r.
Proof.
  induction a as [|b a IH]; intros Hc; cbn.
  - destruct (decide (colon = colon)); [reflexivity | contradiction].
  - apply not_elem_of_cons in Hc as [Hb Ha].
    destruct (decide (b = colon)) as [->|_]; [contradiction|].
    rewrite IH by exact Ha. reflexivity.
Qed.

(** The first part of a split is what comes before the first colon. *)
Lemma split_head d :
  exists p ps,
    split d = p :: ps /\ (colon ∉ p)
    /\ ((ps = [] /\ d = p) \/ exists r, d = p ++ colon :: r /\ ps = split r).
Proof.
  induction d as [|b r IH]; cbn.
  - exists [], []. split; [reflexivity|]. split; [apply not_elem_of_nil|]. auto.
  - destruct (decide (b = colon)) as [->|Hb].
    + exists [], (split r). split; [reflexivity|].
      split; [apply not_elem_of_nil|]. right. exists r. auto.
    + destruct IH as (p & ps & -> & Hp & Hd). exists (b :: p), ps.
      split; [reflexivity|]. split.
      { apply not_elem_of_cons. split; [congruence | exact Hp]. }
      destruct Hd as [[-> ->]|(r' & -> & ->)]; [auto|].
      right. exists r'. auto.
Qed.

Lemma split_parts d : Forall (fun p => colon ∉ p) (split d).
Proof.
  induction d as [|b r IH]; cbn.
  - constructor; [apply not_elem_of_nil | constructor].
  - destruct (decide (b = colon)) as [->|Hb].
    + constructor; [apply not_elem_of_nil | exact IH].
    + destruct (split r) as [|p ps].
      * constructor; [|constructor].
        apply not_elem_of_cons. split; [congruence | apply not_elem_of_nil].
      * apply Forall_cons in IH as [Hp Hps]. constructor; [|exact Hps].
        apply not_elem_of_cons. split; [congruence | exact Hp].
Qed.

Lemma digits_value_snoc l b :
  digits_value (l ++ [b]) = digits_value l * 10 + (Z_of_byte b - 48).
Proof. unfold digits_value. rewrite fold_left_app. reflexivity. Qed.

Lemma decimal_digits_spec fuel : forall n,
  0 <= n < 2 ^ Z.of_nat fuel -> (0 < fuel)%nat ->
  let ds := decimal_digits fuel n in
  ds <> [] /\ forallb is_digit ds = true /\ digits_value ds = n
  /\ (length ds <= fuel)%nat.
Proof.
  induction fuel as [|f IH]; intros n Hn Hf; [lia|].
  cbn [decimal_digits].
  assert (Hd : Z_of_byte (byte_of_Z (48 + n mod 10)) = 48 + n mod 10).
  { rewrite Z_of_byte_of_Z. apply Z.mod_small.
    pose proof (Z.mod_pos_bound n 10). lia. }
  assert (Hdig : is_digit (byte_of_Z (48 + n mod 10)) = true).
  { unfold is_digit. rewrite Hd. pose proof (Z.mod_pos_bound n 10). lia. }
  destruct (Z.ltb_spec n 10) as [Hlt|Hge].
  - cbn. split; [discriminate|]. rewrite Hdig. split; [reflexivity|].
    split; [|lia]. unfold digits_value. cbn. rewrite Hd.
    rewrite Z.mod_small by lia. lia.
  - assert (Hf' : (0 < f)%nat).
    { destruct f; [|lia]. cbn in Hn. lia. }
    assert (Hn' : 0 <= n / 10 < 2 ^ Z.of_nat f).
    { rewrite Nat2Z.inj_succ, Z.pow_succ_r in Hn by lia.
      split; [apply Z.div_pos; lia|].
      apply Z.div_lt_upper_bound; lia. }
    destruct (IH (n / 10) Hn' Hf') as (Hne & Hall & Hval & Hlen).
    split; [intros Heq; apply app_eq_nil in Heq as [_ ?]; discriminate|].
    split; [rewrite forallb_app, Hall; cbn; rewrite Hdig; reflexivity|].
    split.
    + rewrite digits_value_snoc, Hval, Hd.
      pose proof (Z.div_mod n 10). lia.
    + rewrite length_app. cbn. lia.
Qed.

Lemma decimal_spec n :
  0 <= n ->
  decimal n <> [] /\ forallb is_digit (decimal n) = true
  /\ digits_value (decimal n) = n
  /\ Z.of_nat (length (decimal n)) <= Z.log2 n + 1.
Proof.
  intros Hn. unfold decimal. destruct (Z.ltb_spec n 0); [lia|].
  assert (Hb : 0 <= n < 2 ^ Z.of_nat (S (Z.to_nat (Z.log2 n)))).
  { rewrite Nat2Z.inj_succ, Z2Nat.id by apply Z.log2_nonneg.
    split; [exact Hn|]. destruct (Z.eq_dec n 0) as [->|Hnz]; [reflexivity|].
    apply Z.log2_spec. lia. }
  destruct (decimal_digits_spec _ n Hb ltac:(lia)) as (H1 & H2 & H3 & H4).
  split; [exact H1|]. split; [exact H2|]. split; [exact H3|].
  pose proof (Z.log2_nonneg n). lia.
Qed.

Lemma is_digit_ascii b : is_digit b = true -> Utf8.in_range 0 127 b = true.
Proof. unfold is_digit, Utf8.in_range. lia. Qed.

Lemma is_digit_not_colon l : forallb is_digit l = true -> colon ∉ l.
Proof.
  induction l as [|b l IH]; cbn; [intros _; apply not_elem_of_nil|].
  intros [Hb Hl]%andb_true_iff. apply not_elem_of_cons.
  split; [|apply IH, Hl]. intros <-. discriminate.
Qed.

Lemma valid_ascii l :
  forallb (Utf8.in_range 0 127) l = true -> Utf8.valid l = true.
Proof.
  induction l as [|b l IH]; [reflexivity|].
  cbn [forallb]. intros [Hb Hl]%andb_true_iff. cbn [Utf8.valid].
  rewrite Hb. apply IH, Hl.
Qed.

Lemma valid_app_bounded n : forall a b,
  (length a <= n)%nat -> Utf8.valid a = true ->
  Utf8.valid (a ++ b) = Utf8.valid b.
Proof.
  induction n as [|n IH]; intros a b Hlen Ha.
  - destruct a; [reflexivity | cbn in Hlen; lia].
  - destruct a as [|b0 r0]; [reflexivity|].
    cbn [length] in Hlen. cbn [Utf8.valid app] in Ha |- *.
    destruct (Utf8.in_range 0 127 b0).
    { apply IH; [lia | exact Ha]. }
    destruct r0 as [|b1 r1]; [discriminate|].
    cbn [length app] in Hlen |- *.
    destruct (Utf8.in_range 194 223 b0).
    { apply andb_true_iff in Ha as [-> Ha]. apply IH; [lia | exact Ha]. }
    destruct r1 as [|b2 r2]; [discriminate|].
    cbn [length app] in Hlen |- *.
    destruct (Utf8.in_range 224 239 b0).
    { apply andb_true_iff in Ha as [-> Ha]. apply IH; [lia | exact Ha]. }
    destruct r2 as [|b3 r3]; [discriminate|].
    cbn [length app] in Hlen |- *.
    apply andb_true_iff in Ha as [-> Ha]. apply IH; [lia | exact Ha].
Qed.

Lemma valid_app a b :
  Utf8.valid a = true -> Utf8.valid (a ++ b) = Utf8.valid b.
Proof. apply (valid_app_bounded (length a)). reflexivity. Qed.

Lemma header_valid name size digest :
  0 <= size -> Utf8.valid name = true -> Utf8.valid digest = true ->
  Utf8.valid (header name size digest) = true.
Proof.
  intros Hs Hn Hd. unfold header. rewrite valid_app by exact Hn.
  change (Utf8.valid (colon :: decimal size ++ colon :: digest))
    with (Utf8.valid (decimal size ++ colon :: digest)).
  destruct (decimal_spec size Hs) as (_ & Hall & _).
  rewrite valid_app; [exact Hd|]. apply valid_ascii.
  clear -Hall. induction (decimal size) as [|b l IH]; [reflexivity|].
  cbn in Hall |- *. apply andb_true_iff in Hall as [Hb Hl].
  rewrite (is_digit_ascii _ Hb). apply IH, Hl.
Qed.

Lemma header_not_probe name size digest : header name size digest <> RTT_PROBE.
Proof.
  intros Heq.
  assert (Hin : colon ∈ header name size digest).
  { unfold header. apply elem_of_app. right. apply elem_of_cons. auto. }
  rewrite Heq in Hin. unfold RTT_PROBE, colon in Hin.
  repeat (apply elem_of_cons in Hin as [Hin|Hin]; [discriminate|]).
  apply elem_of_nil in Hin. exact Hin.
Qed.

Section Parsing.
Variable int_other : bytes -> option Z.

Lemma py_int_decimal size :
  0 <= size < 2 ^ 4300 -> py_int int_other (decimal size) = Some size.
Proof.
  intros Hs. destruct (decimal_spec size ltac:(lia)) as (Hne & Hall & Hval & Hlen).
  unfold py_int. destruct (decimal size) as [|b l] eqn:Hd; [contradiction|].
  rewrite Hall.
  assert (Hlog : Z.log2 size < 4300).
  { destruct (Z.eq_dec size 0) as [->|Hnz]; [reflexivity|].
    apply Z.log2_lt_pow2; lia. }
  destruct (Nat.leb_spec (length (b :: l)) 4300); [|lia].
  cbn [andb]. rewrite Hval. reflexivity.
Qed.

Lemma parse_header_sender name size digest :
  colon ∉ name -> Utf8.valid name = true ->
  colon ∉ digest -> Utf8.valid digest = true ->
  0 <= size < 2 ^ 4300 ->
  parse_header int_other (header name size digest)
  = Some (name, size, Some digest).
Proof.
  intros Hn Hvn Hd Hvd Hs. unfold parse_header.
  rewrite header_valid by (try assumption; lia).
  unfold header. rewrite split_app_colon by exact Hn.
  destruct (decimal_spec size ltac:(lia)) as (_ & Hall & _).
  rewrite split_app_colon by (apply is_digit_not_colon, Hall).
  rewrite split_no_colon by exact Hd.
  rewrite py_int_decimal by exact Hs. reflexivity.
Qed.

Lemma header_loop_spec evs : forall high out effs rest,
  header_loop int_other evs high = (Some (out, effs), rest) ->
  exists pre ev,
    evs = pre ++ ev :: rest
    /\ Forall (fun e => match e with
                        | Datagram d =>
                            d = RTT_PROBE \/ parse_header int_other d = None
                        | SockTimeout => False
                        | SockError _ => True
                        end) pre
    /\ let p := length (filter (fun e => is_probe e = true) pre) in
       match out with
       | HeaderOk name size md5 high' =>
           (exists d, ev = Datagram d /\ d <> RTT_PROBE
                      /\ parse_header int_other d = Some (name, size, md5))
           /\ sent effs = repeat RTT_ACK p ++ [HEADER_ACK]
           /\ high' = high || negb (p =? 0)%nat
       | HeaderTimeout =>
           ev = SockTimeout /\ sent effs = repeat RTT_ACK p
       end.
Proof.
  induction evs as [|e evs IH]; intros high out effs rest; cbn [header_loop];
    [discriminate|].
  assert (Hskip : forall e0,
            is_probe e0 = false ->
            match e0 with
            | Datagram d => d = RTT_PROBE \/ parse_header int_other d = None
            | SockTimeout => False
            | SockError _ => True
            end ->
            header_loop int_other evs high = (Some (out, effs), rest) ->
            exists pre ev,
              e0 :: evs = pre ++ ev :: rest
              /\ Forall (fun e => match e with
                                  | Datagram d =>
                                      d = RTT_PROBE
                                      \/ parse_header int_other d = None
                                  | SockTimeout => False
                                  | SockError _ => True
                                  end) pre
              /\ let p := length (filter (fun e => is_probe e = true) pre) in
                 match out with
                 | HeaderOk name size md5 high' =>
                     (exists d, ev = Datagram d /\ d <> RTT_PROBE
                                /\ parse_header int_other d
                                   = Some (name, size, md5))
                     /\ sent effs = repeat RTT_ACK p ++ [HEADER_ACK]
                     /\ high' = high || negb (p =? 0)%nat
                 | HeaderTimeout =>
                     ev = SockTimeout /\ sent effs = repeat RTT_ACK p
                 end).
  { intros e0 Hnp He0 Hl. destruct (IH _ _ _ _ Hl) as (pre & ev & -> & Hpre & Hout).
    exists (e0 :: pre), ev. split; [reflexivity|].
    split; [constructor; assumption|].
    cbn zeta in Hout |- *. rewrite filter_cons_False by (rewrite Hnp; discriminate).
    exact Hout. }
  destruct e as [data| |w].
  - destruct (decide (data = RTT_PROBE)) as [->|Hd].
    + destruct (header_loop int_other evs true) as [[[o1 e1]|] rest1] eqn:Hl;
        [|discriminate].
      cbn. intros [= <- <- <-].
      destruct (IH _ _ _ _ Hl) as (pre & ev & -> & Hpre & Hout).
      exists (Datagram RTT_PROBE :: pre), ev. split; [reflexivity|].
      split; [constructor; [auto | exact Hpre]|].
      cbn zeta in Hout |- *.
      rewrite filter_cons_True by (cbn; apply bool_decide_eq_true; reflexivity).
      cbn [length]. destruct o1 as [name size md5 high'|].
      * destruct Hout as (Hev & Hs & Hh). split; [exact Hev|].
        split.
        { change (sent (Sendto RTT_ACK :: e1)) with (RTT_ACK :: sent e1).
          rewrite Hs. reflexivity. }
        rewrite Hh. cbn. rewrite orb_true_r. reflexivity.
      * destruct Hout as (Hev & Hs). split; [exact Hev|].
        change (sent (Sendto RTT_ACK :: e1)) with (RTT_ACK :: sent e1).
        rewrite Hs. reflexivity.
    + destruct (parse_header int_other data) as [[[name size] md5]|] eqn:Hp.
      * intros [= <- <- <-]. exists [], (Datagram data).
        split; [reflexivity|]. split; [constructor|]. cbn.
        split; [exists data; auto|]. split; [reflexivity|].
        rewrite orb_false_r. reflexivity.
      * apply Hskip; [|auto].
        cbn. apply bool_decide_eq_false. exact Hd.
  - intros [= <- <- <-]. exists [], SockTimeout.
    split; [reflexivity|]. split; [constructor|]. cbn. auto.
  - apply Hskip; [reflexivity | exact I].
Qed.

End Parsing.

End HeaderText.

(** The receiver reads the sender's header back.  For a file name and a
    digest that are text without a colon, and a size below [2^4300], the
    header [name:size:digest] is accepted by the header loop in whatever
    state it arrives: the loop ends with that name, that size and that
    digest, and answers HEADER_ACK, on which the sender leaves its own
    header loop with the retry counter as it was. *)
Theorem header_round_trip (int_other : bytes -> option Z)
    (name digest : bytes) (size : Z) (evs sevs : list recv_event)
    (high : bool) (retries : Z) :
  Header.colon ∉ name -> Utf8.valid name = true ->
  Header.colon ∉ digest -> Utf8.valid digest = true ->
  0 <= size < 2 ^ 4300 ->
  retries < MAX_RETRIES ->
  let h := Header.header name size digest in
  Header.parse_header int_other h = Some (name, size, Some digest)
  /\ Header.header_loop int_other (Datagram h :: evs) high
     = (Some (Header.HeaderOk name size (Some digest) high,
              [Sendto HEADER_ACK]), evs)
  /\ Sender.header_sync h (Datagram HEADER_ACK :: sevs) retries
     = (Some (Running retries [Sendto h]), sevs).
Proof.
  intros Hn Hvn Hd Hvd Hs Hr h.
  pose proof (parse_header_sender int_other name size digest Hn Hvn Hd Hvd Hs)
    as Hp.
  split; [exact Hp|]. split.
  - cbn [Header.header_loop].
    destruct (decide (h = RTT_PROBE)) as [Heq|_];
      [exfalso; exact (header_not_probe _ _ _ Heq)|].
    fold h in Hp. rewrite Hp. reflexivity.
  - cbn [Sender.header_sync]. destruct (Z.ltb_spec retries MAX_RETRIES); [|lia].
    change (Utf8.valid HEADER_ACK) with true. cbn match.
    destruct (decide (HEADER_ACK = HEADER_ACK)); [reflexivity | contradiction].
Qed.

(** What a header that the receiver accepts looks like, whoever sent
    it: the file name is the text before the first colon, so it never
    holds a colon, and the digest holds none either.  A file name with a
    colon in it is therefore never received as it was sent. *)
Theorem accepted_header_fields (int_other : bytes -> option Z)
    (data name : bytes) (size : Z) (md5 : option bytes) :
  Header.parse_header int_other data = Some (name, size, md5) ->
  Utf8.valid data = true
  /\ (Header.colon ∉ name)
  /\ (exists rest, data = name ++ Header.colon :: rest)
  /\ (forall digest, md5 = Some digest -> Header.colon ∉ digest).
Proof.
  unfold Header.parse_header.
  destruct (Utf8.valid data); [|discriminate].
  destruct (split_head data) as (p & ps & Hsp & Hp & Hd).
  pose proof (split_parts data) as Hparts. rewrite Hsp in *.
  destruct ps as [|sz rest]; [discriminate|].
  destruct (Header.py_int int_other sz); [|discriminate].
  intros [= <- _ <-]. split; [reflexivity|]. split; [exact Hp|]. split.
  - destruct Hd as [[? _]|(r & -> & _)]; [discriminate | eauto].
  - intros digest Hm. destruct rest as [|m rest']; [discriminate|].
    injection Hm as <-.
    apply Forall_cons in Hparts as [_ Hparts].
    apply Forall_cons in Hparts as [_ Hparts].
    apply Forall_cons in Hparts as [Hm _]. exact Hm.
Qed.

(** How the header loop ends.  It goes past socket errors and past
    datagrams that are not a header without answering them, answers
    every RTT_PROBE with one RTT_ACK, and ends at the first timeout, with
    the result False and no HEADER_ACK, or at the first datagram that
    parses as a header, which it answers with one HEADER_ACK.
    [high_rtt_mode] is then true exactly when it was so before or a probe
    came first. *)
Theorem header_loop_outcome (int_other : bytes -> option Z)
    (evs rest : list recv_event) (high : bool) (out : Header.outcome)
    (effs : list effect) :
  Header.header_loop int_other evs high = (Some (out, effs), rest) ->
  exists pre ev,
    evs = pre ++ ev :: rest
    /\ Forall (fun e => match e with
                        | Datagram d =>
                            d = RTT_PROBE
                            \/ Header.parse_header int_other d = None
                        | SockTimeout => False
                        | SockError _ => True
                        end) pre
    /\ let p := length (filter (fun e => Header.is_probe e = true) pre) in
       match out with
       | Header.HeaderOk name size md5 high' =>
           (exists d, ev = Datagram d /\ d <> RTT_PROBE
                      /\ Header.parse_header int_other d
                         = Some (name, size, md5))
           /\ sent effs = repeat RTT_ACK p ++ [HEADER_ACK]
           /\ high' = high || negb (p =? 0)%nat
       | Header.HeaderTimeout =>
           ev = SockTimeout /\ sent effs = repeat RTT_ACK p
       end.
Proof. apply header_loop_spec. Qed.

(** ** The receiver: what is on disk, and how the data loop ends *)

Section ReceiverProgress.
Import Wire Receiver.

Lemma writes_prefix chunks (W : list (Z * bytes)) (e : Z) :
  0 <= e ->
  W.*1 = seqZ 0 e ->
  (forall s c, (s, c) ∈ W -> chunks !! Z.to_nat s = Some c) ->
  W.*2 = take (Z.to_nat e) chunks.
Proof.
  intros He Hseq Hall.
  assert (HlenW : length W = Z.to_nat e).
  { rewrite <- (length_fmap fst W), Hseq, length_seqZ. reflexivity. }
  apply list_eq. intros i. rewrite list_lookup_fmap.
  destruct (W !! i) as [[s c]|] eqn:Hi; cbn.
  - assert (Hs : W.*1 !! i = Some s) by (rewrite list_lookup_fmap, Hi; reflexivity).
    rewrite Hseq in Hs. apply lookup_seqZ in Hs as [-> Hlt].
    apply list_elem_of_lookup_2 in Hi. apply Hall in Hi.
    rewrite Z.add_0_l, Nat2Z.id in Hi.
    rewrite lookup_take_lt by lia. congruence.
  - apply lookup_ge_None in Hi. symmetry. apply lookup_ge_None.
    rewrite length_take. lia.
Qed.

Lemma stream_loop_ends file_size evs : forall st r,
  stream_loop file_size evs st = Some r ->
  exists pre ev inactive post st1 e1,
    evs = pre ++ (ev, inactive) :: post
    /\ run file_size pre st = Some (st1, e1)
    /\ match r with
       | Continue _ _ => False
       | Abort effs =>
           effs = e1 /\ ev = SockTimeout
           /\ (SERVER_TIMEOUT * (if high_rtt_mode st1 then 2 else 1)
               < inactive)%Q
       | Escape effs =>
           effs = e1 /\ ev = SockError (Some 10054)
           /\ reset_completes st1 = None
       | Complete st2 effs =>
           (ev = SockError (Some 10054) /\ st2 = st1 /\ effs = e1
            /\ reset_completes st1 = Some true)
           \/ (exists d t c a,
                 ev = Datagram d
                 /\ decode_data d = Some (total_packets st2, t, c)
                 /\ encode_ack (total_packets st2) = Some a
                 /\ effs
                    = e1 ++ concat (repeat [Sendto a;
                                            Sleep (delay_time (high_rtt_mode st1))]
                                      (Z.to_nat (repeat_count (high_rtt_mode st1))))
                 /\ st2 = set_total st1 (total_packets st2))
       end.
Proof.
  induction evs as [|[ev inactive] evs IH]; intros st r; cbn [stream_loop];
    [discriminate|].
  destruct (stream_step file_size st ev inactive) as [st' e|st' e|e|e] eqn:Hs.
  - destruct (stream_loop file_size evs st') as [r'|] eqn:Hl; [|discriminate].
    cbn. intros [= <-].
    destruct (IH _ _ Hl) as (pre & ev' & i' & post & st1 & e1 & -> & Hrun & Hr).
    exists ((ev, inactive) :: pre), ev', i', post, st1, (e ++ e1).
    split; [reflexivity|]. split; [cbn; rewrite Hs, Hrun; reflexivity|].
    destruct r' as [st2 e2|st2 e2|e2|e2]; cbn; [exact Hr| | |].
    + destruct Hr as [(-> & -> & -> & Ht)|(d & t & c & a & -> & Hd & Ha & -> & Hst)].
      * left. auto.
      * right. exists d, t, c, a. rewrite app_assoc. auto.
    + destruct Hr as (-> & Hr). auto.
    + destruct Hr as (-> & Hr). auto.
  - intros [= <-]. exists [], ev, inactive, evs, st, [].
    split; [reflexivity|]. split; [reflexivity|].
    destruct ev as [d| |w]; cbn [stream_step] in Hs.
    + right. unfold on_datagram in Hs.
      destruct (decide (d = RTT_PROBE)); [discriminate|].
      destruct (decode_data d) as [[[seq t] c]|] eqn:Hd; [|discriminate].
      destruct (sanitize_total file_size t) as [pt|]; [|discriminate].
      destruct (bind_total file_size (total_packets st) pt) as [T|];
        [|discriminate].
      unfold on_packet in Hs. cbn [total_packets set_total] in Hs.
      destruct (Z.eqb_spec seq T) as [->|]; cbn [andb] in Hs.
      * destruct (pt =? T).
        -- destruct (encode_ack T) as [a|] eqn:Ha; [|discriminate].
           injection Hs as <- <-. exists d, t, c, a. cbn. auto.
        -- exfalso. clear -Hs.
           repeat match type of Hs with
                  | (if ?b then _ else _) = _ => destruct b
                  | (let '(_, _) := ?x in _) = _ => destruct x
                  end; discriminate.
      * exfalso. clear -Hs.
        repeat match type of Hs with
               | (if ?b then _ else _) = _ => destruct b
               | (let '(_, _) := ?x in _) = _ => destruct x
               end; discriminate.
    + unfold on_timeout in Hs.
      destruct (high_rtt_mode st), (Qgtb _ _); discriminate.
    + left. destruct (decide (w = Some 10054)) as [->|Hw].
      * rewrite on_error_reset in Hs.
        destruct (reset_completes st) as [[|]|] eqn:Hrc; try discriminate.
        injection Hs as <- <-. auto.
      * rewrite on_error_other in Hs by exact Hw. discriminate.
  - intros [= <-]. exists [], ev, inactive, evs, st, [].
    split; [reflexivity|]. split; [reflexivity|].
    destruct ev as [d| |w]; cbn [stream_step] in Hs.
    + exfalso. unfold on_datagram in Hs.
      destruct (decide (d = RTT_PROBE)); [discriminate|].
      destruct (decode_data d) as [[[seq t] c]|]; [|discriminate].
      destruct (sanitize_total file_size t) as [pt|]; [|discriminate].
      destruct (bind_total file_size (total_packets st) pt) as [T|];
        [|discriminate].
      unfold on_packet in Hs. clear -Hs.
      repeat match type of Hs with
             | (if ?b then _ else _) = _ => destruct b
             | match ?x with Some _ => _ | None => _ end = _ => destruct x
             | (let '(_, _) := ?x in _) = _ => destruct x
             end; discriminate.
    + unfold on_timeout in Hs. unfold SERVER_TIMEOUT in *.
      destruct (high_rtt_mode st); destruct (Qgtb _ _) eqn:Hq;
        try discriminate; injection Hs as <-; apply Qltb_lt in Hq;
        split; [reflexivity | split; [reflexivity | lra]
              | reflexivity | split; [reflexivity | lra]].
    + exfalso. destruct (decide (w = Some 10054)) as [->|Hw].
      * rewrite on_error_reset in Hs.
        destruct (reset_completes st) as [[|]|]; discriminate.
      * rewrite on_error_other in Hs by exact Hw. discriminate.
  - intros [= <-]. exists [], ev, inactive, evs, st, [].
    split; [reflexivity|]. split; [reflexivity|].
    destruct ev as [d| |w]; cbn [stream_step] in Hs.
    + exfalso. unfold on_datagram in Hs.
      destruct (decide (d = RTT_PROBE)); [discriminate|].
      destruct (decode_data d) as [[[seq t] c]|]; [|discriminate].
      destruct (sanitize_total file_size t) as [pt|]; [|discriminate].
      destruct (bind_total file_size (total_packets st) pt) as [T|];
        [|discriminate].
      unfold on_packet in Hs. clear -Hs.
      repeat match type of Hs with
             | (if ?b then _ else _) = _ => destruct b
             | match ?x with Some _ => _ | None => _ end = _ => destruct x
             | (let '(_, _) := ?x in _) = _ => destruct x
             end; discriminate.
    + exfalso. unfold on_timeout in Hs.
      destruct (high_rtt_mode st), (Qgtb _ _); discriminate.
    + destruct (decide (w = Some 10054)) as [->|Hw].
      * rewrite on_error_reset in Hs.
        destruct (reset_completes st) as [[|]|] eqn:Hrc; try discriminate.
        injection Hs as <-. auto.
      * rewrite on_error_other in Hs by exact Hw. discriminate.
Qed.

(** What the two answers of [reset_completes] say. *)
Lemma reset_completes_true st :
  reset_completes st = Some true ->
  0 < total_packets st
  /\ (total_packets st < 2 ^ 48 ->
      9 * total_packets st < 10 * expected_seq st).
Proof.
  intros Hrc.
  assert (Hpos : 0 < total_packets st).
  { unfold reset_completes in Hrc.
    destruct (Z.gtb_spec (total_packets st) 0); [lia | discriminate]. }
  split; [exact Hpos|]. intros Hlt.
  rewrite (reset_completes_spec st Hlt) in Hrc. injection Hrc as Hrc.
  apply andb_true_iff in Hrc as [_ Hrc]. apply Z.ltb_lt in Hrc. exact Hrc.
Qed.

Lemma reset_completes_None st :
  reset_completes st = None ->
  0 < total_packets st /\ Float.of_int (total_packets st) = None.
Proof.
  unfold reset_completes.
  destruct (Z.gtb_spec (total_packets st) 0); [|discriminate].
  destruct (Float.of_int (total_packets st)); [discriminate|].
  intros _. split; [lia | reflexivity].
Qed.

End ReceiverProgress.

(** Whatever part of the file has arrived, in whatever order, what is on
    disk is the file up to the first chunk that is missing.  When every
    datagram is a data packet of the file, the data loop goes through all
    of them; [expected_seq] is then the first sequence number that none
    of them carries, the bytes written are the chunks below it in file
    order, and they are a prefix of the file. *)
Theorem partial_delivery (content : bytes) (ds : list bytes) (high : bool) :
  let chunks := Sender.file_chunks content in
  let N := Sender.total_packets chunks in
  (forall d, d ∈ ds ->
     exists k chunk, 0 <= k < N /\ chunks !! Z.to_nat k = Some chunk
                     /\ Wire.encode_data k N chunk = Some d) ->
  exists st effs,
    Receiver.run (Z.of_nat (length content)) (Scenario.feed ds)
                 (Receiver.init high) = Some (st, effs)
    /\ 0 <= Receiver.expected_seq st <= N
    /\ Receiver.file_written effs
       = concat (take (Z.to_nat (Receiver.expected_seq st)) chunks)
    /\ (exists rest, content = Receiver.file_written effs ++ rest)
    /\ (forall k, 0 <= k < Receiver.expected_seq st ->
          exists d c, d ∈ ds /\ Wire.decode_data d = Some (k, N, c))
    /\ (forall d t c, d ∈ ds ->
          Wire.decode_data d <> Some (Receiver.expected_seq st, t, c)).
Proof.
  intros chunks N Hds.
  destruct (file_chunks_count content) as (Hcount & Hcat & _).
  fold chunks in Hcount, Hcat.
  assert (Hds' : forall d, d ∈ ds ->
            exists k, 0 <= k < N /\ Flight.packet_of chunks k = Some d).
  { intros d Hd. destruct (Hds d Hd) as (k & chunk & Hk & Hc & He).
    exists k. split; [assumption|]. apply packet_of_iff. eauto. }
  destruct (run_data chunks (Z.of_nat (length content)) Hcount ds []
              (Receiver.init high) [] (init_consistent high)
              (or_introl eq_refl) Hds')
    as (st & effs & Hrun & Hc & Htot & _ & _ & _ & Hall).
  cbn in Hc. pose proof Hc as [[Hb Hw Hdel Hbuf Hwa _] Hnone].
  exists st, effs. split; [exact Hrun|].
  assert (Hwritten : forall s c, (s, c) ∈ Receiver.writes effs ->
            chunks !! Z.to_nat s = Some c
            /\ exists d, d ∈ ds /\ Wire.decode_data d = Some (s, N, c)).
  { intros s c Hs. destruct (Hwa _ _ Hs) as (d & t & i & Hd & Hdec).
    unfold Scenario.feed in Hd.
    apply list_elem_of_fmap in Hd as (d' & [= -> ->] & Hd').
    destruct (Hds' _ Hd') as (k & Hk & Hp).
    destruct (packet_of_decode _ _ _ Hp) as (chunk & Hc1 & Hdec1 & _).
    rewrite Hdec in Hdec1. injection Hdec1 as -> -> ->.
    split; [assumption|]. exists d'. auto. }
  assert (Hexp : 0 <= Receiver.expected_seq st <= N).
  { split; [lia|]. destruct Htot as [Hz|Ht]; [|lia].
    destruct (Z.eq_dec (Receiver.expected_seq st) 0) as [->|Hnz];
      [unfold N, Sender.total_packets; lia | lia]. }
  split; [exact Hexp|].
  assert (Hfile : Receiver.file_written effs
                  = concat (take (Z.to_nat (Receiver.expected_seq st)) chunks)).
  { rewrite file_written_writes. f_equal.
    apply writes_prefix; [lia | exact Hw |].
    intros s c Hs. apply (Hwritten s c Hs). }
  split; [exact Hfile|]. split; [|split].
  - exists (concat (drop (Z.to_nat (Receiver.expected_seq st)) chunks)).
    rewrite Hfile, <- concat_app, take_drop. symmetry. exact Hcat.
  - intros k Hk.
    assert (Hin : k ∈ (Receiver.writes effs).*1).
    { rewrite Hw. apply elem_of_seqZ. lia. }
    apply list_elem_of_fmap in Hin as ([s c] & -> & Hsc). cbn.
    destruct (Hwritten _ _ Hsc) as (_ & d & Hd & Hdec). eauto.
  - intros d t c Hd Hdec. destruct (Hds' d Hd) as (k & Hk & Hp).
    destruct (packet_of_decode _ _ _ Hp) as (chunk & _ & Hdec1 & _).
    rewrite Hdec in Hdec1. injection Hdec1 as <- -> ->.
    pose proof (Hall d _ Hd Hp) as Hin.
    apply Hdel in Hin as [?|Hin]; [lia|].
    rewrite Hnone in Hin. destruct Hin; discriminate.
Qed.

(** The four ways out of the data loop.  The loop is left at the first
    event that is a timeout after more than 120 s without a datagram
    (240 s in high_rtt mode), which makes [receive_file] return False; or
    a reset by the peer for which [expected_seq > total_packets * 0.9]
    holds in double arithmetic, which below [2 ^ 48] packets says that
    more than nine tenths of the packets are written; or a reset by the
    peer when [total_packets] is too large for a double, where the
    OverflowError of the product leaves [receive_file]; or a datagram
    whose sequence number is the bound total, which is answered with the
    ACKs of the termination.  Nothing is written, and nothing else is
    sent, in the pass that leaves the loop. *)
Theorem data_loop_ends (file_size : Z) (evs : list (recv_event * Q))
    (st : Receiver.rstate) (r : Receiver.rstep) :
  Receiver.stream_loop file_size evs st = Some r ->
  exists pre ev inactive post st1 e1,
    evs = pre ++ (ev, inactive) :: post
    /\ Receiver.run file_size pre st = Some (st1, e1)
    /\ Receiver.file_written (Receiver.effs_of r) = Receiver.file_written e1
    /\ match r with
       | Receiver.Continue _ _ => False
       | Receiver.Abort effs =>
           effs = e1 /\ ev = SockTimeout
           /\ (SERVER_TIMEOUT * (if Receiver.high_rtt_mode st1 then 2 else 1)
               < inactive)%Q
       | Receiver.Escape effs =>
           effs = e1 /\ ev = SockError (Some 10054)
           /\ 0 < Receiver.total_packets st1
           /\ Float.of_int (Receiver.total_packets st1) = None
       | Receiver.Complete st2 effs =>
           (ev = SockError (Some 10054) /\ st2 = st1 /\ effs = e1
            /\ Receiver.reset_completes st1 = Some true
            /\ 0 < Receiver.total_packets st1
            /\ (Receiver.total_packets st1 < 2 ^ 48 ->
                9 * Receiver.total_packets st1
                < 10 * Receiver.expected_seq st1))
           \/ (exists d t c a,
                 ev = Datagram d
                 /\ Wire.decode_data d = Some (Receiver.total_packets st2, t, c)
                 /\ Wire.encode_ack (Receiver.total_packets st2) = Some a
                 /\ sent effs
                    = sent e1
                      ++ repeat a (Z.to_nat (Receiver.repeat_count
                                               (Receiver.high_rtt_mode st1)))
                 /\ Receiver.expected_seq st2 = Receiver.expected_seq st1)
       end.
Proof.
  intros Hl.
  destruct (stream_loop_ends file_size evs st r Hl)
    as (pre & ev & i & post & st1 & e1 & Hevs & Hrun & Hr).
  exists pre, ev, i, post, st1, e1. split; [exact Hevs|]. split; [exact Hrun|].
  destruct r as [st2 effs|st2 effs|effs|effs]; [contradiction| | |].
  - destruct Hr as [(-> & -> & -> & Ht)|(d & t & c & a & -> & Hd & Ha & -> & Hst)].
    + split; [reflexivity|]. left.
      destruct (reset_completes_true _ Ht) as [Hpos Hlt]. auto 10.
    + split.
      { cbn [Receiver.effs_of].
        rewrite file_written_app, file_written_shots, app_nil_r.
        reflexivity. }
      right. exists d, t, c, a. split; [reflexivity|]. split; [exact Hd|].
      split; [exact Ha|]. split; [rewrite sent_app, sent_shots; reflexivity|].
      rewrite Hst. reflexivity.
  - destruct Hr as (-> & Hr). split; [reflexivity | auto].
  - destruct Hr as (-> & -> & Hr). split; [reflexivity|].
    destruct (reset_completes_None _ Hr). auto.
Qed.

(** A header that announces [2 ^ 1034] bytes: the first packet, whose
    total field is 0, gets [E = 2 ^ 1024] for its total; the binding
    raises at [E * 0.5] once [total_packets] is [E], and the packet is
    left unanswered; a reset by the peer then raises at
    [total_packets * 0.9], and [receive_file] returns nothing. *)
Example oversized_reset_escapes (md5 : bytes -> bytes) :
  Receiver.expected_packets Scenario.oversized = 2 ^ 1024
  /\ Float.of_int (2 ^ 1024) = None
  /\ Receiver.run Scenario.oversized
       (Scenario.feed [Scenario.data_packet 0 0 [x61%byte]])
       (Receiver.init false)
     = Some (Receiver.set_total (Receiver.init false) (2 ^ 1024), [])
  /\ Receiver.stream_loop Scenario.oversized
       (Scenario.feed [Scenario.data_packet 0 0 [x61%byte]]
        ++ [(SockError (Some 10054), 0%Q)])
       (Receiver.init false)
     = Some (Receiver.Escape [])
  /\ Receiver.receive_file Scenario.oversized md5 None false
       (Scenario.feed [Scenario.data_packet 0 0 [x61%byte]]
        ++ [(SockError (Some 10054), 0%Q)])
     = None.
Proof.
  assert (Hl : Receiver.stream_loop Scenario.oversized
                 (Scenario.feed [Scenario.data_packet 0 0 [x61%byte]]
                  ++ [(SockError (Some 10054), 0%Q)])
                 (Receiver.init false)
               = Some (Receiver.Escape [])) by (vm_compute; reflexivity).
  split; [vm_compute; reflexivity|]. split; [vm_compute; reflexivity|].
  split; [vm_compute; reflexivity|]. split; [exact Hl|].
  unfold Receiver.receive_file. rewrite Hl. reflexivity.
Qed.

(** ** The test file *)

Section TestFileFacts.
Import TestFile.
Variable randbytes : nat -> Z -> bytes.
Hypothesis randbytes_length :
  forall i n, 0 <= n -> length (randbytes i n) = Z.to_nat n.

Lemma write_loop_spec fuel : forall calls remaining,
  remaining <= Z.of_nat fuel ->
  let ws := write_loop randbytes fuel calls remaining in
  Z.of_nat (length (concat ws)) = Z.max 0 remaining
  /\ Z.of_nat (length ws) = (Z.max 0 remaining + 65535) / 65536
  /\ forall (j : nat) c,
       ws !! j = Some c ->
       c = randbytes (calls + j) (Z.min 65536 (remaining - 65536 * Z.of_nat j))
       /\ 0 < remaining - 65536 * Z.of_nat j.
Proof.
  induction fuel as [|f IH]; intros calls remaining Hf; cbn [write_loop].
  - cbn zeta. split; [cbn; lia|]. split.
    + cbn. rewrite Z.max_l by lia. reflexivity.
    + intros j c Hj. discriminate.
  - destruct (Z.gtb_spec remaining 0) as [Hpos|Hle].
    2:{ cbn zeta. split; [cbn; lia|]. split.
        - cbn. rewrite Z.max_l by lia. reflexivity.
        - intros j c Hj. discriminate. }
    change (1024 * 64) with 65536.
    set (chunk := Z.min 65536 remaining).
    assert (Hchunk : 0 < chunk <= remaining) by (subst chunk; lia).
    destruct (IH (S calls) (remaining - chunk) ltac:(lia)) as (Hlen & Hcnt & Hlk).
    cbn zeta. split; [|split].
    + cbn [concat]. rewrite length_app, randbytes_length by lia. lia.
    + cbn [length]. rewrite Nat2Z.inj_succ, Hcnt. subst chunk.
      Z.div_mod_to_equations. lia.
    + intros [|j] c Hj.
      * cbn in Hj. injection Hj as <-. rewrite Nat.add_0_r.
        change (Z.of_nat 0) with 0. rewrite Z.mul_0_r, Z.sub_0_r.
        split; [reflexivity | lia].
      * cbn in Hj. destruct (Hlk j c Hj) as (-> & Hj').
        assert (chunk = 65536) as Hc by (subst chunk; lia).
        rewrite Hc in *. split; [|lia]. f_equal; lia.
Qed.

Lemma write_loop_fuel f1 : forall f2 calls remaining,
  remaining <= Z.of_nat f1 -> remaining <= Z.of_nat f2 ->
  write_loop randbytes f1 calls remaining
  = write_loop randbytes f2 calls remaining.
Proof.
  induction f1 as [|f1 IH]; intros [|f2] calls remaining H1 H2;
    cbn [write_loop]; try reflexivity.
  - destruct (Z.gtb_spec remaining 0); [lia | reflexivity].
  - destruct (Z.gtb_spec remaining 0); [lia | reflexivity].
  - destruct (Z.gtb_spec remaining 0); [|reflexivity].
    f_equal. apply IH; lia.
Qed.

End TestFileFacts.

(** [create_test_file] writes exactly [size_bytes] bytes (nothing for a
    size that is not positive), in [ceil(size_bytes / 65536)] writes of
    which the [j]-th is what [random.randbytes] gave for
    [min(65536, size_bytes - 65536 j)]; the loop ends by its own test;
    and [send_file] cuts such a file into [ceil(size_bytes / 1024)]
    packets. *)
Theorem create_test_file_size (randbytes : nat -> Z -> bytes) (size_bytes : Z) :
  (forall i n, 0 <= n -> length (randbytes i n) = Z.to_nat n) ->
  let ws := TestFile.create_test_file randbytes size_bytes in
  Z.of_nat (length (concat ws)) = Z.max 0 size_bytes
  /\ Z.of_nat (length ws) = (Z.max 0 size_bytes + 65535) / 65536
  /\ (forall (j : nat) c,
        ws !! j = Some c ->
        c = randbytes j (Z.min 65536 (size_bytes - 65536 * Z.of_nat j)))
  /\ (forall extra : nat,
        TestFile.write_loop randbytes (Z.to_nat size_bytes + extra) 0 size_bytes
        = ws)
  /\ Sender.total_packets (Sender.file_chunks (concat ws))
     = (Z.max 0 size_bytes + 1023) / 1024.
Proof.
  intros Hlen ws.
  destruct (write_loop_spec randbytes Hlen (Z.to_nat size_bytes) 0 size_bytes
              ltac:(lia)) as (Hsize & Hcnt & Hlk).
  fold (TestFile.create_test_file randbytes size_bytes) in Hsize, Hcnt, Hlk.
  fold ws in Hsize, Hcnt, Hlk.
  split; [exact Hsize|]. split; [exact Hcnt|]. split; [|split].
  - intros j c Hj. apply (Hlk j c Hj).
  - intros extra. apply write_loop_fuel; lia.
  - destruct (file_chunks_count (concat ws)) as (<- & _).
    unfold Receiver.expected_packets. rewrite Hsize. reflexivity.
Qed.

(** ** Sender and receiver from the first datagram to the last *)

(** A transfer from end to end.  The header that the sender builds for
    a file that is not empty, with its name, its size and its digest,
    followed by everything that the sender's streaming loop sent before
    it was left in the normal way and by its termination marker, makes
    [receive_file] accept the header, write the file and return True,
    when the file system lets it open the output file, named
    [received_] and the name of the header; when it does not,
    [receive_file] is left by the OSError of [open] and returns
    nothing. *)
Theorem end_to_end (int_other : bytes -> option Z) (writable : bytes -> bool)
    (md5 : bytes -> bytes)
    (name content : bytes) (start_time initial_rtt : Q)
    (ticks : list Sender.tick) (sst : Sender.sstate) (seffs : list effect) :
  let chunks := Sender.file_chunks content in
  let N := Sender.total_packets chunks in
  let h := Header.header name (Z.of_nat (length content)) (md5 content) in
  (Header.colon ∉ name) -> Utf8.valid name = true ->
  (Header.colon ∉ md5 content) -> Utf8.valid (md5 content) = true ->
  content <> [] ->
  Sender.streaming chunks start_time initial_rtt ticks Sender.init
  = Some (Running sst seffs) ->
  exists marker,
    Wire.encode_data N N [] = Some marker
    /\ Header.receive_file int_other writable md5 [Datagram h]
         (Scenario.feed (sent seffs ++ [marker]))
       = (if writable (Header.received_prefix ++ name)
          then Some true else None).
Proof.
  intros chunks N h Hn Hvn Hd Hvd Hne Hs.
  destruct (file_chunks_count content) as (Hcount & Hcat & Hpos).
  specialize (Hpos Hne). fold chunks in Hcount, Hcat, Hpos. fold N in Hpos.
  destruct (streaming_flight chunks start_time initial_rtt ticks Sender.init []
              (init_ok chunks) (init_flight chunks initial_rtt)
              (data_packets_nil chunks) (sent_between_nil chunks 0 [])
              _ Hs) as [Hdata Hrun].
  destruct (Hrun _ _ eq_refl) as (Hok & _ & Hcov & Hge).
  cbn in Hdata, Hcov. pose proof Hok as [Hb Hnx _ _].
  assert (Hnext : Sender.next_seq_num sst = N) by (subst N; lia).
  assert (HN32 : 0 <= N < 2 ^ 32).
  { destruct (Hcov 0) as (d & Hp & _); [lia|].
    apply packet_of_iff in Hp as (chunk & _ & He).
    unfold Wire.encode_data in He.
    destruct (Wire.pack_u32 0); [|discriminate].
    fold N in He. destruct (Wire.pack_u32 N) eqn:HpN; [|discriminate].
    apply (pack_u32_inv _ _ HpN). }
  assert (Hmarker : exists marker, Wire.encode_data N N [] = Some marker).
  { unfold Wire.encode_data. rewrite (pack_u32_Some _ HN32). eauto. }
  destruct Hmarker as [marker Hm]. exists marker. split; [exact Hm|].
  assert (Hsize : 0 <= Z.of_nat (length content) < 2 ^ 4300).
  { split; [lia|]. unfold Receiver.expected_packets in Hcount. fold N in Hcount.
    apply Z.lt_trans with (2 ^ 42); [|apply Z.pow_lt_mono_r; lia].
    change (2 ^ 32) with 4294967296 in HN32.
    change (2 ^ 42) with 4398046511104.
    Z.div_mod_to_equations. lia. }
  pose proof (parse_header_sender int_other name (Z.of_nat (length content))
                (md5 content) Hn Hvn Hd Hvd Hsize) as Hparse.
  fold h in Hparse.
  unfold Header.receive_file. cbn [Header.header_loop].
  destruct (decide (h = RTT_PROBE)) as [Heq|_];
    [exfalso; exact (header_not_probe _ _ _ Heq)|].
  rewrite Hparse.
  destruct (writable (Header.received_prefix ++ name)); [|reflexivity].
  destruct (delivery_success chunks (Z.of_nat (length content)) Hcount
              (sent seffs) false marker md5 (Some (md5 content)) Hpos)
    as (Hres & _).
  - intros d Hin. apply (Hdata d Hin).
  - intros k Hk. destruct (Hcov k) as (d & Hp & Hin); [lia|]. eauto.
  - exact Hm.
  - rewrite Hres, Hcat. unfold Receiver.verify.
    destruct (md5 content) as [|b digest]; [|rewrite bool_decide_eq_true_2; reflexivity].
    rewrite Z.eqb_refl. reflexivity.
Qed.

(** * Sample runs of the further properties *)

Section SampleRuns.
Import Wire.

Lemma after_first_ack_reachable :
  Sender.reachable (Scenario.small_chunks 40) 0 0 Scenario.after_first_ack.
Proof.
  unfold Scenario.after_first_ack.
  destruct (Sender.iteration (Scenario.small_chunks 40) 0 0
              (Scenario.ack_tick 1 0) Sender.init) as [st effs|b e|e] eqn:Hi;
    [|vm_compute in Hi; discriminate..].
  apply (Sender.reach_pass _ _ _ Sender.init (Scenario.ack_tick 1 0) st effs);
    [apply Sender.reach_init | reflexivity | exact Hi].
Qed.

Lemma twenty_nonempty : Scenario.twenty_chunk_file <> [].
Proof.
  unfold Scenario.twenty_chunk_file.
  destruct (Z.to_nat 20480) eqn:E; [lia | discriminate].
Qed.

Lemma two_chunk_count :
  Sender.total_packets (Sender.file_chunks Scenario.two_chunk_file) = 2.
Proof. vm_compute. reflexivity. Qed.

Lemma shuffled_are_packets (d : bytes) :
  d ∈ Scenario.shuffled ->
  exists k chunk,
    0 <= k < Sender.total_packets (Sender.file_chunks Scenario.two_chunk_file)
    /\ Sender.file_chunks Scenario.two_chunk_file !! Z.to_nat k = Some chunk
    /\ encode_data k
         (Sender.total_packets (Sender.file_chunks Scenario.two_chunk_file))
         chunk = Some d.
Proof.
  rewrite two_chunk_count. unfold Scenario.shuffled. intros Hd.
  apply elem_of_cons in Hd as [->|Hd];
    [|apply elem_of_cons in Hd as [->|Hd];
      [|apply elem_of_cons in Hd as [->|Hd];
        [|apply elem_of_nil in Hd; contradiction]]].
  - exists 1, [x62; x63]%byte. split; [lia|]. split; vm_compute; reflexivity.
  - exists 0, (repeat x61%byte 1024). split; [lia|].
    split; vm_compute; reflexivity.
  - exists 1, [x62; x63]%byte. split; [lia|]. split; vm_compute; reflexivity.
Qed.

Lemma shuffled_cover (k : Z) :
  0 <= k < Sender.total_packets (Sender.file_chunks Scenario.two_chunk_file) ->
  exists d chunk,
    d ∈ Scenario.shuffled
    /\ Sender.file_chunks Scenario.two_chunk_file !! Z.to_nat k = Some chunk
    /\ encode_data k
         (Sender.total_packets (Sender.file_chunks Scenario.two_chunk_file))
         chunk = Some d.
Proof.
  rewrite two_chunk_count. intros Hk.
  assert (Hcase : k = 0 \/ k = 1) by lia. destruct Hcase as [-> | ->].
  - exists (Scenario.data_packet 0 2 (repeat x61%byte 1024)), (repeat x61%byte 1024).
    split; [|split; vm_compute; reflexivity].
    apply elem_of_cons. right. apply elem_of_cons. left. reflexivity.
  - exists (Scenario.data_packet 1 2 [x62; x63]%byte), [x62; x63]%byte.
    split; [|split; vm_compute; reflexivity].
    apply elem_of_cons. left. reflexivity.
Qed.

End SampleRuns.

Lemma window_within_limit_witness :
  Z.of_nat (size (Sender.window Scenario.after_first_ack))
  <= Sender.effective_window 0
  /\ (Sender.effective_window 0 = 32
      \/ Sender.effective_window 0 = 128
      \/ Sender.effective_window 0 = 192).
Proof.
  apply (window_within_limit (Scenario.small_chunks 40) 0 0
           Scenario.after_first_ack).
  exact after_first_ack_reachable.
Defined.

Lemma window_entries_faithful_witness :
  let e := Sender.Entry (Scenario.data_packet 1 40 [x61%byte]) 1 0 in
  Sender.window Scenario.after_first_ack !! 1 = Some e
  /\ exists chunk,
       Scenario.small_chunks 40 !! Z.to_nat 1 = Some chunk
       /\ Wire.decode_data (Sender.packet e)
          = Some (1, Sender.total_packets (Scenario.small_chunks 40), chunk)
       /\ 0 <= Sender.retries e <= 25
       /\ Sender.base_seq_num Scenario.after_first_ack <= 1
          < Sender.next_seq_num Scenario.after_first_ack.
Proof.
  intros e.
  assert (He : Sender.window Scenario.after_first_ack !! 1 = Some e)
    by (vm_compute; reflexivity).
  split; [exact He|].
  apply (window_entries_faithful (Scenario.small_chunks 40) 0 0
           Scenario.after_first_ack 1 e after_first_ack_reachable He).
Defined.

Lemma streaming_sends_only_data_witness :
  let d := Scenario.data_packet 3 40 [x61%byte] in
  d ∈ sent (effects_of (Sender.iteration (Scenario.small_chunks 40) 0 0
                          (Scenario.ack_tick 1 0) Sender.init))
  /\ exists k chunk,
       0 <= k < Sender.total_packets (Scenario.small_chunks 40)
       /\ Scenario.small_chunks 40 !! Z.to_nat k = Some chunk
       /\ Wire.decode_data d
          = Some (k, Sender.total_packets (Scenario.small_chunks 40), chunk)
       /\ length d = (8 + length chunk)%nat.
Proof.
  intros d.
  assert (Hd : d ∈ sent (effects_of
                 (Sender.iteration (Scenario.small_chunks 40) 0 0
                    (Scenario.ack_tick 1 0) Sender.init))).
  { apply (bool_decide_unpack _). vm_compute. exact I. }
  split; [exact Hd|].
  apply (streaming_sends_only_data (Scenario.small_chunks 40) 0 0 Sender.init
           (Scenario.ack_tick 1 0) d (Sender.reach_init _ _ _) Hd).
Defined.

Lemma streaming_exit_witness :
  exists st effs,
    Sender.streaming (Scenario.small_chunks 40) 0 0 (Scenario.acked_run 40)
                     Sender.init = Some (Running st effs)
    /\ Sender.base_seq_num st = 40 /\ Sender.next_seq_num st = 40
    /\ Sender.window st = ∅
    /\ exists d, d ∈ sent effs
                 /\ Wire.decode_data d = Some (39, 40, [x61%byte]).
Proof.
  destruct (Sender.streaming (Scenario.small_chunks 40) 0 0
              (Scenario.acked_run 40) Sender.init) as [[st effs|b e|e]|] eqn:Hs;
    try (vm_compute in Hs; discriminate).
  exists st, effs. split; [reflexivity|].
  destruct (streaming_exit (Scenario.small_chunks 40) 0 0 (Scenario.acked_run 40)
              (Running st effs) Hs) as (_ & Hrun).
  destruct (Hrun st effs eq_refl) as (Hb & Hn & Hw & Hcov).
  split; [exact Hb|]. split; [exact Hn|]. split; [exact Hw|].
  apply (Hcov 39 [x61%byte]); [split; [discriminate | reflexivity] | reflexivity].
Defined.

Lemma any_order_delivery_witness :
  exists st effs,
    Receiver.run 1026 (Scenario.feed Scenario.shuffled) (Receiver.init false)
    = Some (st, effs)
    /\ Receiver.file_written effs = Scenario.two_chunk_file
    /\ (Receiver.writes effs).*1 = [0; 1]
    /\ Receiver.expected_seq st = 2
    /\ Receiver.total_packets st = 2.
Proof.
  destruct (any_order_delivery Scenario.two_chunk_file Scenario.shuffled false)
    as (st & effs & Hrun & Hf & Hw & He & Ht).
  - vm_compute. discriminate.
  - exact shuffled_are_packets.
  - exact shuffled_cover.
  - rewrite two_chunk_count in Hw, He, Ht. exists st, effs.
    split; [exact Hrun|]. split; [exact Hf|]. split; [exact Hw|].
    split; [exact He | exact Ht].
Defined.

Lemma transfer_succeeds_witness :
  Receiver.receive_file 1026 (fun _ => Scenario.sample_digest)
    (Some Scenario.sample_digest) false
    (Scenario.feed (Scenario.shuffled ++ [Scenario.data_packet 2 2 []]))
  = Some true.
Proof.
  destruct (transfer_succeeds Scenario.two_chunk_file Scenario.shuffled false
              (Scenario.data_packet 2 2 []) (fun _ => Scenario.sample_digest)
              (Some Scenario.sample_digest)) as (Hres & _).
  - vm_compute. discriminate.
  - exact shuffled_are_packets.
  - exact shuffled_cover.
  - vm_compute. reflexivity.
  - exact Hres.
Defined.

Lemma loopback_delivery_witness :
  exists sst seffs marker,
    Sender.streaming (Sender.file_chunks Scenario.twenty_chunk_file) 0 0
                     (Scenario.acked_run 20) Sender.init
    = Some (Running sst seffs)
    /\ Receiver.receive_file (Z.of_nat (length Scenario.twenty_chunk_file))
         (fun _ => []) None false (Scenario.feed (sent seffs ++ [marker]))
       = Some true.
Proof.
  destruct (Sender.streaming (Sender.file_chunks Scenario.twenty_chunk_file) 0 0
              (Scenario.acked_run 20) Sender.init) as [[sst seffs|b e|e]|] eqn:Hs;
    try (vm_compute in Hs; discriminate).
  destruct (loopback_delivery Scenario.twenty_chunk_file 0 0
              (Scenario.acked_run 20) sst seffs false (fun _ => []) None)
    as (marker & st & effs & _ & _ & _ & _ & Hres).
  - exact twenty_nonempty.
  - exact Hs.
  - exists sst, seffs, marker. split; [reflexivity | exact Hres].
Defined.

Lemma acks_match_delivered_witness :
  exists st effs,
    Receiver.run 3072 (Scenario.feed Scenario.reordered) (Receiver.init false)
    = Some (st, effs)
    /\ forall s, s ∈ Receiver.received_seq_nums st
                 <-> exists a, Wire.encode_ack s = Some a /\ a ∈ sent effs.
Proof.
  eexists _, _. split; [vm_compute; reflexivity|].
  refine (proj2 (acks_match_delivered 3072 false
                   (Scenario.feed Scenario.reordered) _ _ _)).
  vm_compute. reflexivity.
Defined.

Lemma total_bound_once_witness :
  exists st effs,
    Receiver.run 3072 (Scenario.feed Scenario.reordered) (Receiver.init false)
    = Some (st, effs)
    /\ Receiver.total_packets st = 3
    /\ forall evs' st' effs',
         Receiver.run 3072 evs' st = Some (st', effs') ->
         Receiver.total_packets st <> 0 ->
         Receiver.total_packets st' = Receiver.total_packets st.
Proof.
  eexists _, _. split; [vm_compute; reflexivity|]. split; [reflexivity|].
  refine (proj2 (proj2 (total_bound_once 3072 false
                          (Scenario.feed Scenario.reordered) _ _ _))).
  vm_compute. reflexivity.
Defined.

Lemma high_mode_iff_probe_witness :
  exists st effs,
    Receiver.run 3072 (Scenario.feed (RTT_PROBE :: Scenario.reordered))
                 (Receiver.init false) = Some (st, effs)
    /\ Receiver.high_rtt_mode st = true
    /\ forall inactive,
         (Datagram RTT_PROBE, inactive)
         ∈ Scenario.feed (RTT_PROBE :: Scenario.reordered) ->
         RTT_ACK ∈ sent effs.
Proof.
  eexists _, _. split; [vm_compute; reflexivity|]. split; [reflexivity|].
  refine (proj2 (high_mode_iff_probe 3072 false
                   (Scenario.feed (RTT_PROBE :: Scenario.reordered)) _ _ _)).
  vm_compute. reflexivity.
Defined.

Lemma termination_outcome_witness :
  is_Some (Sender.termination (Scenario.small_chunks 3) 0 0
             (repeat (1%Q, SockTimeout) 25)).
Proof.
  apply (termination_outcome (Scenario.small_chunks 3) 0 0
           (repeat (1%Q, SockTimeout) 25)).
  - vm_compute. reflexivity.
  - simpl. lia.
Defined.

Lemma dynamic_timeout_floor_witness :
  (2 # 100 <= Sender.dynamic_timeout 0 2 100 0)%Q
  /\ ((50 <= 100)%Q -> (16 # 100 <= Sender.dynamic_timeout 0 2 100 0)%Q).
Proof. apply (dynamic_timeout_floor 0 2 100 0). lia. Defined.

Lemma burst_count_witness :
  exists st1 effs,
    Sender.after_burst (Scenario.small_chunks 40) 0 0 (Scenario.ack_tick 1 0)
                       Sender.init = Running st1 effs
    /\ length (sent effs) = 8%nat
    /\ Sender.next_seq_num st1
       = Sender.next_seq_num Sender.init + Z.of_nat (length (sent effs))
    /\ size (Sender.window st1)
       = (size (Sender.window Sender.init) + length (sent effs))%nat.
Proof.
  eexists _, _. split; [vm_compute; reflexivity|]. split; [reflexivity|].
  refine (let H := burst_count (Scenario.small_chunks 40) 0 0
                     (Scenario.ack_tick 1 0) Sender.init _ _
                     (Sender.reach_init _ _ _) _ in
          conj (proj1 (proj2 (proj2 H))) (proj1 (proj2 (proj2 (proj2 H))))).
  vm_compute. reflexivity.
Defined.

Lemma small_file_stalls_witness :
  match Sender.streaming (Scenario.small_chunks 5) 0 0
                         [Scenario.ack_tick 1 0] Sender.init with
  | Some (Raised _) => True
  | Some (Returned b _) => b = false
  | _ => False
  end.
Proof.
  destruct (Sender.streaming (Scenario.small_chunks 5) 0 0
              [Scenario.ack_tick 1 0] Sender.init) as [r|] eqn:Hs;
    [|vm_compute in Hs; discriminate].
  pose proof (small_file_stalls (Scenario.small_chunks 5) 0 0
                [Scenario.ack_tick 1 0] r) as H.
  cbv zeta in H. specialize (H ltac:(vm_compute; discriminate) eq_refl Hs).
  destruct r; [contradiction | exact H | exact I].
Defined.

Lemma send_file_true_witness :
  exists effs (h p m : nat) (ds : list bytes) (marker : bytes),
    Sender.send_file Scenario.sample_header Scenario.twenty_chunk_file 0
                     Scenario.prompt_peer = Some (Returned true effs)
    /\ sent effs
       = repeat Scenario.sample_header h ++ repeat RTT_PROBE p ++ ds
         ++ repeat marker m
    /\ (1 <= h <= 25)%nat /\ (1 <= p <= 3)%nat /\ (3 <= m <= 500)%nat.
Proof.
  destruct (Sender.send_file Scenario.sample_header Scenario.twenty_chunk_file 0
              Scenario.prompt_peer) as [[[] e|[|] e|e]|] eqn:Hs;
    try (vm_compute in Hs; discriminate).
  destruct (send_file_true _ _ _ _ _ Hs)
    as (h & p & m & ds & marker & Hsent & Hh & Hp & Hm & _).
  exists e, h, p, m, ds, marker. auto.
Defined.

Lemma partial_delivery_witness :
  exists st effs rest,
    Receiver.run 1026 (Scenario.feed Scenario.late_only) (Receiver.init false)
    = Some (st, effs)
    /\ Scenario.two_chunk_file = Receiver.file_written effs ++ rest
    /\ forall d t c, d ∈ Scenario.late_only ->
         Wire.decode_data d <> Some (Receiver.expected_seq st, t, c).
Proof.
  destruct (partial_delivery Scenario.two_chunk_file Scenario.late_only false)
    as (st & effs & Hrun & _ & _ & (rest & Hrest) & _ & Hmiss).
  - intros d Hd. apply shuffled_are_packets.
    apply list_elem_of_singleton in Hd as ->.
    apply elem_of_cons. left. reflexivity.
  - exists st, effs, rest. auto.
Defined.

Lemma data_loop_ends_witness :
  exists r pre ev inactive post st1 e1,
    Receiver.stream_loop 3072
      (Scenario.feed (Scenario.reordered ++ [Scenario.data_packet 3 3 []]))
      (Receiver.init false) = Some r
    /\ Scenario.feed (Scenario.reordered ++ [Scenario.data_packet 3 3 []])
       = pre ++ (ev, inactive) :: post
    /\ Receiver.run 3072 pre (Receiver.init false) = Some (st1, e1)
    /\ Receiver.file_written (Receiver.effs_of r) = Receiver.file_written e1.
Proof.
  destruct (Receiver.stream_loop 3072
              (Scenario.feed (Scenario.reordered ++ [Scenario.data_packet 3 3 []]))
              (Receiver.init false)) as [r|] eqn:Hl;
    [|vm_compute in Hl; discriminate].
  destruct (data_loop_ends _ _ _ _ Hl)
    as (pre & ev & inactive & post & st1 & e1 & Hevs & Hrun & Hf & _).
  exists r, pre, ev, inactive, post, st1, e1. auto.
Defined.

Lemma header_round_trip_witness :
  let h := Header.header Scenario.sample_name 20480 Scenario.sample_digest in
  Header.parse_header Scenario.no_int h
  = Some (Scenario.sample_name, 20480, Some Scenario.sample_digest)
  /\ Header.header_loop Scenario.no_int [Datagram h] false
     = (Some (Header.HeaderOk Scenario.sample_name 20480
                (Some Scenario.sample_digest) false,
              [Sendto HEADER_ACK]), [])
  /\ Sender.header_sync h [Datagram HEADER_ACK] 0
     = (Some (Running 0 [Sendto h]), []).
Proof.
  apply (header_round_trip Scenario.no_int Scenario.sample_name
           Scenario.sample_digest 20480 [] [] false 0).
  - apply (bool_decide_unpack _). vm_compute. exact I.
  - reflexivity.
  - apply (bool_decide_unpack _). vm_compute. exact I.
  - reflexivity.
  - split; [lia | vm_compute; reflexivity].
  - reflexivity.
Defined.

Lemma accepted_header_fields_witness :
  Header.parse_header Scenario.no_int Scenario.sample_header
  = Some ([x61%byte], 1, Some [])
  /\ Utf8.valid Scenario.sample_header = true
  /\ (Header.colon ∉ [x61%byte])
  /\ (exists rest, Scenario.sample_header = [x61%byte] ++ Header.colon :: rest)
  /\ (forall digest, Some [] = Some digest -> Header.colon ∉ digest).
Proof.
  assert (Hp : Header.parse_header Scenario.no_int Scenario.sample_header
               = Some ([x61%byte], 1, Some [])) by (vm_compute; reflexivity).
  split; [exact Hp|].
  apply (accepted_header_fields Scenario.no_int Scenario.sample_header
           [x61%byte] 1 (Some []) Hp).
Defined.

Lemma header_loop_outcome_witness :
  exists out effs pre ev,
    Header.header_loop Scenario.no_int Scenario.header_traffic false
    = (Some (out, effs), [])
    /\ out = Header.HeaderOk [x61%byte] 1 (Some []) true
    /\ sent effs = [RTT_ACK; HEADER_ACK]
    /\ Scenario.header_traffic = pre ++ ev :: [].
Proof.
  eexists _, _. 
  destruct (header_loop_outcome Scenario.no_int Scenario.header_traffic []
              false (Header.HeaderOk [x61%byte] 1 (Some []) true)
              [Sendto RTT_ACK; Sendto HEADER_ACK])
    as (pre & ev & Hevs & _); [vm_compute; reflexivity|].
  exists pre, ev. split; [vm_compute; reflexivity|].
  split; [reflexivity|]. split; [reflexivity | exact Hevs].
Defined.

Lemma create_test_file_size_witness :
  let ws := TestFile.create_test_file Scenario.zero_bytes 70000 in
  Z.of_nat (length (concat ws)) = Z.max 0 70000
  /\ Z.of_nat (length ws) = (Z.max 0 70000 + 65535) / 65536
  /\ Sender.total_packets (Sender.file_chunks (concat ws))
     = (Z.max 0 70000 + 1023) / 1024.
Proof.
  intros ws.
  destruct (create_test_file_size Scenario.zero_bytes 70000)
    as (H1 & H2 & _ & _ & H5).
  - intros i n Hn. apply repeat_length.
  - auto.
Defined.

Lemma end_to_end_witness :
  exists sst seffs marker,
    Sender.streaming (Sender.file_chunks Scenario.twenty_chunk_file) 0 0
                     (Scenario.acked_run 20) Sender.init
    = Some (Running sst seffs)
    /\ Header.receive_file Scenario.no_int (fun _ => true)
         (fun _ => Scenario.sample_digest)
         [Datagram (Header.header Scenario.sample_name
                      (Z.of_nat (length Scenario.twenty_chunk_file))
                      Scenario.sample_digest)]
         (Scenario.feed (sent seffs ++ [marker]))
       = Some true
    /\ Header.receive_file Scenario.no_int (fun _ => false)
         (fun _ => Scenario.sample_digest)
         [Datagram (Header.header Scenario.sample_name
                      (Z.of_nat (length Scenario.twenty_chunk_file))
                      Scenario.sample_digest)]
         (Scenario.feed (sent seffs ++ [marker]))
       = None.
Proof.
  destruct (Sender.streaming (Sender.file_chunks Scenario.twenty_chunk_file) 0 0
              (Scenario.acked_run 20) Sender.init) as [[sst seffs|b e|e]|] eqn:Hs;
    try (vm_compute in Hs; discriminate).
  assert (Hn : Header.colon ∉ Scenario.sample_name)
    by (apply (bool_decide_unpack _); vm_compute; exact I).
  assert (Hd : Header.colon ∉ Scenario.sample_digest)
    by (apply (bool_decide_unpack _); vm_compute; exact I).
  destruct (end_to_end Scenario.no_int (fun _ => true)
              (fun _ => Scenario.sample_digest)
              Scenario.sample_name Scenario.twenty_chunk_file 0 0
              (Scenario.acked_run 20) sst seffs Hn eq_refl Hd eq_refl
              twenty_nonempty Hs) as (marker & Hm & Hres).
  destruct (end_to_end Scenario.no_int (fun _ => false)
              (fun _ => Scenario.sample_digest)
              Scenario.sample_name Scenario.twenty_chunk_file 0 0
              (Scenario.acked_run 20) sst seffs Hn eq_refl Hd eq_refl
              twenty_nonempty Hs) as (marker' & Hm' & Hres').
  assert (marker' = marker) as -> by congruence.
  exists sst, seffs, marker.
  split; [reflexivity | split; [exact Hres | exact Hres']].
Defined.
